(** * timeslotassigner: interval stores, resource groups and the calendar registry

    A shallow embedding of [timeslotassigner/calendar.py] and
    [timeslotassigner/manager.py].

    - Python integers are unbounded, so times and indices are [Z].
    - A method is a computation over the object it is called on: it takes
      [self] and gives back [self] after the call together with the outcome,
      which is a value, a raised exception, or (for the one [while True]
      loop of the package) the exhaustion of the fuel the loop was given.
    - [sortedcontainers.SortedDict] is a list of items in ascending key
      order, a Python [dict] a list of items in insertion order. *)

From Stdlib Require Import String.
From Stdlib Require Import ZArith List Lia Bool Sorted Permutation.
Import ListNotations.
Local Open Scope Z_scope.

(** ** Outcomes of a call *)

Inductive exn : Type :=
| ValueError
| KeyError
| IndexError.

Inductive result (A : Type) : Type :=
| Ret (a : A)
| Raise (e : exn)
| OutOfFuel.

Arguments Ret {A} a.
Arguments Raise {A} e.
Arguments OutOfFuel {A}.

(** ** Methods: state passing with exceptions *)

Definition M (S A : Type) : Type := S -> S * result A.

Definition ret {S A : Type} (a : A) : M S A := fun s => (s, Ret a).

Definition raise {S A : Type} (e : exn) : M S A := fun s => (s, Raise e).

Definition lift {S A : Type} (r : result A) : M S A := fun s => (s, r).

Definition get {S : Type} : M S S := fun s => (s, Ret s).

Definition put {S : Type} (s' : S) : M S unit := fun _ => (s', Ret tt).

Definition bind {S A B : Type} (m : M S A) (k : A -> M S B) : M S B :=
  fun s =>
    match m s with
    | (s', Ret a) => k a s'
    | (s', Raise e) => (s', Raise e)
    | (s', OutOfFuel) => (s', OutOfFuel)
    end.

Notation "x <- m ;; k" := (bind m (fun x => k))
  (at level 61, m at next level, right associativity).
Notation "m ;;; k" := (bind m (fun _ => k))
  (at level 61, right associativity).

(** Unfolds the monad in a goal. *)
Ltac run_m := unfold bind, get, put, lift, ret, raise; cbv beta zeta.

(** The state a call leaves behind, and what it gave. *)
Definition state_of {S A : Type} (r : S * result A) : S := fst r.
Definition outcome_of {S A : Type} (r : S * result A) : result A := snd r.

(** ** [sortedcontainers.SortedDict] with integer keys

    Items are kept in ascending key order.  [bisect_left k] is the index of
    the first key that is not below [k], [bisect_right k] the index of the
    first key above [k]; the library finds them by binary search over the
    sorted keys, here they are found by a scan from the left, which gives
    the same index on a sorted sequence. *)

Module SortedDict.
Section Defs.
Context {V : Type}.

Definition t : Type := list (Z * V).

Definition empty : t := [].

Definition len (d : t) : Z := Z.of_nat (length d).

Fixpoint bisect_left (d : t) (k : Z) : Z :=
  match d with
  | [] => 0
  | (k', _) :: r => if k' <? k then 1 + bisect_left r k else 0
  end.

Fixpoint bisect_right (d : t) (k : Z) : Z :=
  match d with
  | [] => 0
  | (k', _) :: r => if k' <=? k then 1 + bisect_right r k else 0
  end.

(** [peekitem(index)]: a negative index counts from the end; an index out
    of range raises [IndexError]. *)
Definition peekitem (d : t) (index : Z) : result (Z * V) :=
  let i := if index <? 0 then len d + index else index in
  if i <? 0 then Raise IndexError
  else match nth_error d (Z.to_nat i) with
       | Some item => Ret item
       | None => Raise IndexError
       end.

(** [d[k] = v]: replaces the value of an existing key, otherwise inserts
    the item at its place in the order. *)
Fixpoint setitem (d : t) (k : Z) (v : V) : t :=
  match d with
  | [] => [(k, v)]
  | (k', v') :: r =>
      if k <? k' then (k, v) :: d
      else if k =? k' then (k, v) :: r
      else (k', v') :: setitem r k v
  end.

(** [del d[k]]: raises [KeyError] when the key is absent. *)
Fixpoint delitem (d : t) (k : Z) : result t :=
  match d with
  | [] => Raise KeyError
  | (k', v') :: r =>
      if k =? k' then Ret r
      else match delitem r k with
           | Ret r' => Ret ((k', v') :: r')
           | Raise e => Raise e
           | OutOfFuel => OutOfFuel
           end
  end.

Definition items (d : t) : list (Z * V) := d.
End Defs.
Arguments t V : clear implicits.
End SortedDict.

(** ** [class CalendarBase]: the time-slots of a single resource *)

Module CalendarBase.
Section Defs.
Context {D : Type}.

Record t : Type := mk {
  resource_id : string;
  _slots : SortedDict.t (Z * D)
}.

Definition init (rid : string) : t := mk rid SortedDict.empty.

Definition set_slots (self : t) (d : SortedDict.t (Z * D)) : t :=
  mk (resource_id self) d.

Definition _has_conflict (start end_ : Z) : M t bool :=
  self <- get ;;
  let idx := SortedDict.bisect_left (_slots self) start in
  before <- (if idx >? 0 then
               p <- lift (SortedDict.peekitem (_slots self) (idx - 1)) ;;
               let '(_, (prev_end, _)) := p in
               ret (prev_end >? start)
             else ret false) ;;
  if (before : bool) then ret true
  else
    after <- (if idx <? SortedDict.len (_slots self) then
                n <- lift (SortedDict.peekitem (_slots self) idx) ;;
                let '(next_start, _) := n in
                ret (next_start <? end_)
              else ret false) ;;
    if (after : bool) then ret true else ret false.

Definition add_slot (start end_ : Z) (data : D) : M t bool :=
  if start >=? end_ then raise ValueError
  else
    conflict <- _has_conflict start end_ ;;
    if (conflict : bool) then ret false
    else
      self <- get ;;
      put (set_slots self (SortedDict.setitem (_slots self) start (end_, data))) ;;;
      ret true.

(** One pass through the body of the [while True] loop of
    [_find_available_slot]: either the loop goes round again with a new
    [current_time] ([inl]) or the method returns ([inr]). *)
Definition find_body (duration current_time : Z) : M t (Z + Z) :=
  conflict <- _has_conflict current_time (current_time + duration) ;;
  if negb conflict then ret (inr current_time)
  else
    self <- get ;;
    let idx := SortedDict.bisect_right (_slots self) current_time - 1 in
    jump <- (if idx >=? 0 then
               p <- lift (SortedDict.peekitem (_slots self) idx) ;;
               let '(_, (end_, _)) := p in
               if end_ >? current_time then ret (Some end_) else ret None
             else ret None) ;;
    match jump with
    | Some end_ => ret (inl end_)
    | None =>
        let idx := SortedDict.bisect_left (_slots self) current_time in
        if idx <? SortedDict.len (_slots self) then
          n <- lift (SortedDict.peekitem (_slots self) idx) ;;
          let '(_, (next_end, _)) := n in
          ret (inl next_end)
        else ret (inr current_time)
    end.

(** The loop, run for at most [fuel] passes. *)
Fixpoint find_loop (fuel : nat) (duration current_time : Z) : M t Z :=
  match fuel with
  | O => lift OutOfFuel
  | S fuel' =>
      r <- find_body duration current_time ;;
      match r with
      | inl t' => find_loop fuel' duration t'
      | inr t' => ret t'
      end
  end.

Definition _find_available_slot (fuel : nat) (preferred_start duration : Z)
  : M t Z :=
  find_loop fuel duration preferred_start.

Definition add_slot_with_shift (fuel : nat) (start end_ : Z) (data : D)
  : M t (Z * Z) :=
  if start >=? end_ then raise ValueError
  else
    let duration := end_ - start in
    actual_start <- _find_available_slot fuel start duration ;;
    let actual_end := actual_start + duration in
    self <- get ;;
    put (set_slots self
           (SortedDict.setitem (_slots self) actual_start (actual_end, data))) ;;;
    ret (actual_start, actual_end).

Definition remove_slot (start : Z) : M t bool :=
  self <- get ;;
  match SortedDict.delitem (_slots self) start with
  | Ret d => put (set_slots self d) ;;; ret true
  | Raise KeyError => ret false
  | Raise e => raise e
  | OutOfFuel => lift OutOfFuel
  end.

Definition get_slot_at (time : Z) : M t (option (Z * Z * D)) :=
  self <- get ;;
  let idx := SortedDict.bisect_right (_slots self) time - 1 in
  if idx >=? 0 then
    p <- lift (SortedDict.peekitem (_slots self) idx) ;;
    let '(start, (end_, data)) := p in
    if (start <=? time) && (time <? end_) then ret (Some (start, end_, data))
    else ret None
  else ret None.

Definition get_all_slots : M t (list (Z * Z * D)) :=
  self <- get ;;
  ret (map (fun '(start, (end_, data)) => (start, end_, data))
           (SortedDict.items (_slots self))).

Definition left_slot (start : Z) : M t (option (Z * Z * D)) :=
  self <- get ;;
  let idx := SortedDict.bisect_left (_slots self) start - 1 in
  if idx >=? 0 then
    p <- lift (SortedDict.peekitem (_slots self) idx) ;;
    let '(prev_start, (prev_end, data)) := p in
    ret (Some (prev_start, prev_end, data))
  else ret None.

Definition right_slot (start : Z) : M t (option (Z * Z * D)) :=
  self <- get ;;
  let idx := SortedDict.bisect_right (_slots self) start in
  if idx <? SortedDict.len (_slots self) then
    n <- lift (SortedDict.peekitem (_slots self) idx) ;;
    let '(next_start, (next_end, data)) := n in
    ret (Some (next_start, next_end, data))
  else ret None.
End Defs.
Arguments t D : clear implicits.
End CalendarBase.

(** ** Python [dict]: items in insertion order, one item per key *)

Module PyDict.
Section Defs.
Context {K V : Type} (K_eq_dec : forall a b : K, {a = b} + {a <> b}).

Definition t : Type := list (K * V).

Definition empty : t := [].

(** [d.get(k)] *)
Fixpoint get_ (d : t) (k : K) : option V :=
  match d with
  | [] => None
  | (k', v) :: r => if K_eq_dec k k' then Some v else get_ r k
  end.

(** [k in d] *)
Definition contains (d : t) (k : K) : bool :=
  match get_ d k with
  | Some _ => true
  | None => false
  end.

(** [d[k]]: raises [KeyError] when the key is absent. *)
Definition getitem (d : t) (k : K) : result V :=
  match get_ d k with
  | Some v => Ret v
  | None => Raise KeyError
  end.

(** [d[k] = v]: an existing key keeps its place, a new key goes last. *)
Fixpoint setitem (d : t) (k : K) (v : V) : t :=
  match d with
  | [] => [(k, v)]
  | (k', v') :: r =>
      if K_eq_dec k k' then (k, v) :: r else (k', v') :: setitem r k v
  end.

(** [del d[k]]: raises [KeyError] when the key is absent. *)
Fixpoint delitem (d : t) (k : K) : result t :=
  match d with
  | [] => Raise KeyError
  | (k', v') :: r =>
      if K_eq_dec k k' then Ret r
      else match delitem r k with
           | Ret r' => Ret ((k', v') :: r')
           | Raise e => Raise e
           | OutOfFuel => OutOfFuel
           end
  end.

Definition keys (d : t) : list K := map fst d.

(** [d[k].method(...)]: the method runs on the object stored under [k],
    and what it does to that object is seen through the dict. *)
Definition on_item {A : Type} (k : K) (m : M V A) : M t A :=
  fun d =>
    match getitem d k with
    | Ret v => let '(v', r) := m v in (setitem d k v', r)
    | Raise e => (d, Raise e)
    | OutOfFuel => (d, OutOfFuel)
    end.
End Defs.
Arguments t K V : clear implicits.
End PyDict.

(** ** [class Calendar]: the calendars of several resources *)

Module Calendar.
Section Defs.
Context {D : Type}.

Record t : Type := mk {
  _calendars : PyDict.t string (CalendarBase.t D)
}.

(** A method of the dict of calendars, run from a method of [self]. *)
Definition on_calendars {A : Type}
  (m : M (PyDict.t string (CalendarBase.t D)) A) : M t A :=
  fun self => let '(d, r) := m (_calendars self) in (mk d, r).

Definition add_resource (resource_id : string) : M t unit :=
  self <- get ;;
  if negb (PyDict.contains string_dec (_calendars self) resource_id) then
    put (mk (PyDict.setitem string_dec (_calendars self) resource_id
               (CalendarBase.init resource_id)))
  else ret tt.

Fixpoint init_loop (resources : list string) : M t unit :=
  match resources with
  | [] => ret tt
  | resource_id :: rest =>
      self <- get ;;
      put (mk (PyDict.setitem string_dec (_calendars self) resource_id
                 (CalendarBase.init resource_id))) ;;;
      init_loop rest
  end.

Definition init (resources : option (list string)) : t :=
  match resources with
  | Some (r :: rs) => state_of (init_loop (r :: rs) (mk PyDict.empty))
  | _ => mk PyDict.empty
  end.

Definition remove_resource (resource_id : string) : M t bool :=
  self <- get ;;
  match PyDict.delitem string_dec (_calendars self) resource_id with
  | Ret d => put (mk d) ;;; ret true
  | Raise KeyError => ret false
  | Raise e => raise e
  | OutOfFuel => lift OutOfFuel
  end.

Definition get_calendar (resource_id : string)
  : M t (option (CalendarBase.t D)) :=
  self <- get ;;
  ret (PyDict.get_ string_dec (_calendars self) resource_id).

Definition add_slot (resource_id : string) (start end_ : Z) (data : D)
  : M t bool :=
  self <- get ;;
  (if negb (PyDict.contains string_dec (_calendars self) resource_id)
   then add_resource resource_id else ret tt) ;;;
  on_calendars
    (PyDict.on_item string_dec resource_id
       (CalendarBase.add_slot start end_ data)).

Definition add_slot_with_shift (fuel : nat) (resource_id : string)
  (start end_ : Z) (data : D) : M t (Z * Z) :=
  self <- get ;;
  (if negb (PyDict.contains string_dec (_calendars self) resource_id)
   then add_resource resource_id else ret tt) ;;;
  on_calendars
    (PyDict.on_item string_dec resource_id
       (CalendarBase.add_slot_with_shift fuel start end_ data)).

(** The [for] loop of [get_slots_at], over the resource ids the dict had
    when the loop began; [result] is the list built so far. *)
Fixpoint get_slots_at_loop (time : Z) (ids : list string)
  (result_ : list (string * Z * Z * D)) : M t (list (string * Z * Z * D)) :=
  match ids with
  | [] => ret result_
  | resource_id :: rest =>
      slot <- on_calendars
                (PyDict.on_item string_dec resource_id
                   (CalendarBase.get_slot_at time)) ;;
      match slot with
      | Some (start, end_, data) =>
          get_slots_at_loop time rest
            (result_ ++ [(resource_id, start, end_, data)])
      | None => get_slots_at_loop time rest result_
      end
  end.

Definition get_slots_at (time : Z) : M t (list (string * Z * Z * D)) :=
  self <- get ;;
  get_slots_at_loop time (PyDict.keys (_calendars self)) [].

Definition get_all_resources : M t (list string) :=
  self <- get ;;
  ret (PyDict.keys (_calendars self)).
End Defs.
Arguments t D : clear implicits.
End Calendar.

(** ** [class CalendarManager]: calendars under arbitrary keys

    A key is any value of a type [K] with decidable equality.  [None] is not
    a key here: [get_slots_at] reads a [None] key as "all calendars", so its
    [calendar_key] argument is an [option K]. *)

Module CalendarManager.
Section Defs.
Context {K D : Type} (K_eq_dec : forall a b : K, {a = b} + {a <> b}).

Record t : Type := mk {
  _calendars : PyDict.t K (Calendar.t D)
}.

Definition init (calendars : option (PyDict.t K (Calendar.t D))) : t :=
  match calendars with
  | Some (c :: cs) => mk (c :: cs)
  | _ => mk PyDict.empty
  end.

Definition on_calendars {A : Type}
  (m : M (PyDict.t K (Calendar.t D)) A) : M t A :=
  fun self => let '(d, r) := m (_calendars self) in (mk d, r).

Definition add_calendar (key : K) (calendar : option (Calendar.t D))
  : M t unit :=
  let calendar :=
    match calendar with
    | None => Calendar.init None
    | Some c => c
    end in
  self <- get ;;
  put (mk (PyDict.setitem K_eq_dec (_calendars self) key calendar)).

Definition remove_calendar (key : K) : M t bool :=
  self <- get ;;
  match PyDict.delitem K_eq_dec (_calendars self) key with
  | Ret d => put (mk d) ;;; ret true
  | Raise KeyError => ret false
  | Raise e => raise e
  | OutOfFuel => lift OutOfFuel
  end.

Definition get_calendar (key : K) : M t (option (Calendar.t D)) :=
  self <- get ;;
  ret (PyDict.get_ K_eq_dec (_calendars self) key).

Definition get_all_calendar_keys : M t (list K) :=
  self <- get ;;
  ret (PyDict.keys (_calendars self)).

Definition add_slot (calendar_key : K) (resource_id : string)
  (start end_ : Z) (data : D) : M t bool :=
  self <- get ;;
  (if negb (PyDict.contains K_eq_dec (_calendars self) calendar_key)
   then add_calendar calendar_key None else ret tt) ;;;
  on_calendars
    (PyDict.on_item K_eq_dec calendar_key
       (Calendar.add_slot resource_id start end_ data)).

Definition add_slot_with_shift (fuel : nat) (calendar_key : K)
  (resource_id : string) (start end_ : Z) (data : D) : M t (Z * Z) :=
  self <- get ;;
  (if negb (PyDict.contains K_eq_dec (_calendars self) calendar_key)
   then add_calendar calendar_key None else ret tt) ;;;
  on_calendars
    (PyDict.on_item K_eq_dec calendar_key
       (Calendar.add_slot_with_shift fuel resource_id start end_ data)).

(** The [for] loop of [get_slots_at] over all calendars, over the keys the
    dict had when the loop began; [result] is the dict built so far. *)
Fixpoint get_slots_at_loop (time : Z) (ks : list K)
  (result_ : PyDict.t K (list (string * Z * Z * D)))
  : M t (PyDict.t K (list (string * Z * Z * D))) :=
  match ks with
  | [] => ret result_
  | key :: rest =>
      slots <- on_calendars
                 (PyDict.on_item K_eq_dec key (Calendar.get_slots_at time)) ;;
      match slots with
      | _ :: _ =>
          get_slots_at_loop time rest (PyDict.setitem K_eq_dec result_ key slots)
      | [] => get_slots_at_loop time rest result_
      end
  end.

Definition get_slots_at (time : Z) (calendar_key : option K)
  : M t (PyDict.t K (list (string * Z * Z * D))) :=
  let result_ := PyDict.empty in
  match calendar_key with
  | Some calendar_key =>
      self <- get ;;
      if PyDict.contains K_eq_dec (_calendars self) calendar_key then
        slots <- on_calendars
                   (PyDict.on_item K_eq_dec calendar_key
                      (Calendar.get_slots_at time)) ;;
        match slots with
        | _ :: _ => ret (PyDict.setitem K_eq_dec result_ calendar_key slots)
        | [] => ret result_
        end
      else ret result_
  | None =>
      self <- get ;;
      get_slots_at_loop time (PyDict.keys (_calendars self)) result_
  end.

Definition add_resource_to_calendar (calendar_key : K) (resource_id : string)
  : M t unit :=
  self <- get ;;
  (if negb (PyDict.contains K_eq_dec (_calendars self) calendar_key)
   then add_calendar calendar_key None else ret tt) ;;;
  on_calendars
    (PyDict.on_item K_eq_dec calendar_key (Calendar.add_resource resource_id)).

Definition get_calendar_resources (calendar_key : K) : M t (list string) :=
  self <- get ;;
  match PyDict.get_ K_eq_dec (_calendars self) calendar_key with
  | Some _ =>
      on_calendars
        (PyDict.on_item K_eq_dec calendar_key Calendar.get_all_resources)
  | None => ret []
  end.

(** The [for] loop of [bulk_assign_slots]; [results] is the list built so
    far.  An exception raised by [add_slot] leaves the loop. *)
Fixpoint bulk_assign_slots_loop
  (assignments : list (K * string * Z * Z * D)) (results : list bool)
  : M t (list bool) :=
  match assignments with
  | [] => ret results
  | (calendar_key, resource_id, start, end_, data) :: rest =>
      success <- add_slot calendar_key resource_id start end_ data ;;
      bulk_assign_slots_loop rest (results ++ [success])
  end.

Definition bulk_assign_slots (assignments : list (K * string * Z * Z * D))
  : M t (list bool) :=
  bulk_assign_slots_loop assignments [].

(** The inner [for] loop of [get_all_slots_at], over the slots found in one
    calendar. *)
Fixpoint get_all_slots_at_inner (calendar_key : K)
  (slots : list (string * Z * Z * D))
  (result_ : list (K * string * Z * Z * D)) : list (K * string * Z * Z * D) :=
  match slots with
  | [] => result_
  | (resource_id, start, end_, data) :: rest =>
      get_all_slots_at_inner calendar_key rest
        (result_ ++ [(calendar_key, resource_id, start, end_, data)])
  end.

(** The outer [for] loop of [get_all_slots_at], over the items of the dict
    that [get_slots_at] returned. *)
Fixpoint get_all_slots_at_outer
  (items : list (K * list (string * Z * Z * D)))
  (result_ : list (K * string * Z * Z * D)) : list (K * string * Z * Z * D) :=
  match items with
  | [] => result_
  | (calendar_key, slots) :: rest =>
      get_all_slots_at_outer rest
        (get_all_slots_at_inner calendar_key slots result_)
  end.

Definition get_all_slots_at (time : Z)
  : M t (list (K * string * Z * Z * D)) :=
  slots_by_calendar <- get_slots_at time None ;;
  ret (get_all_slots_at_outer slots_by_calendar []).

(** The dict comprehension of [get_all_resources], over the keys the dict
    has; [result] is the dict built so far. *)
Fixpoint get_all_resources_loop (ks : list K)
  (result_ : PyDict.t K (list string)) : M t (PyDict.t K (list string)) :=
  match ks with
  | [] => ret result_
  | key :: rest =>
      resources <- on_calendars
                     (PyDict.on_item K_eq_dec key Calendar.get_all_resources) ;;
      get_all_resources_loop rest (PyDict.setitem K_eq_dec result_ key resources)
  end.

Definition get_all_resources : M t (PyDict.t K (list string)) :=
  self <- get ;;
  get_all_resources_loop (PyDict.keys (_calendars self)) PyDict.empty.

(** The [for] loop of [bulk_assign_slots_with_shift]. *)
Fixpoint bulk_assign_slots_with_shift_loop (fuel : nat)
  (assignments : list (K * string * Z * Z * D)) (results : list (Z * Z))
  : M t (list (Z * Z)) :=
  match assignments with
  | [] => ret results
  | (calendar_key, resource_id, start, end_, data) :: rest =>
      actual_times <- add_slot_with_shift fuel calendar_key resource_id
                        start end_ data ;;
      bulk_assign_slots_with_shift_loop fuel rest (results ++ [actual_times])
  end.

Definition bulk_assign_slots_with_shift (fuel : nat)
  (assignments : list (K * string * Z * Z * D)) : M t (list (Z * Z)) :=
  bulk_assign_slots_with_shift_loop fuel assignments [].
End Defs.
Arguments t K D : clear implicits.
End CalendarManager.

(** ** The vocabulary of the specification *)

Section StoreSpec.
Context {D : Type}.

Definition slot_start (x : Z * (Z * D)) : Z := fst x.
Definition slot_end (x : Z * (Z * D)) : Z := fst (snd x).

(** The stored interval [x] overlaps the half-open range [[a, b)]. *)
Definition overlaps (a b : Z) (x : Z * (Z * D)) : Prop :=
  slot_start x < b /\ a < slot_end x.

Definition overlapsb (a b : Z) (x : Z * (Z * D)) : bool :=
  (slot_start x <? b) && (a <? slot_end x).

(** Some stored interval overlaps [[a, b)]. *)
Definition conflictb (s : SortedDict.t (Z * D)) (a b : Z) : bool :=
  existsb (overlapsb a b) s.

(** What [SortedDict] keeps by construction: keys in strictly ascending
    order. *)
Definition keys_sorted (s : SortedDict.t (Z * D)) : Prop :=
  StronglySorted Z.lt (map fst s).

(** Every stored interval has [start < end]. *)
Definition well_formed (s : SortedDict.t (Z * D)) : Prop :=
  Forall (fun x => slot_start x < slot_end x) s.

(** No two distinct stored intervals overlap. *)
Definition non_overlapping (s : SortedDict.t (Z * D)) : Prop :=
  forall i j x y,
    i <> j -> nth_error s i = Some x -> nth_error s j = Some y ->
    ~ (slot_start x < slot_end y /\ slot_start y < slot_end x).

(** The invariant of an interval store, as the data model has it: the
    intervals are kept by ascending start, each has [start < end], and no
    two of them overlap. *)
Definition store_inv (s : SortedDict.t (Z * D)) : Prop :=
  keys_sorted s /\ well_formed s /\ non_overlapping s.

(** The same invariant in the shape the proofs use: each interval is
    well formed and ends no later than every later one starts. *)
Definition precedes (x y : Z * (Z * D)) : Prop := slot_end x <= slot_start y.

Definition ordered (s : SortedDict.t (Z * D)) : Prop :=
  StronglySorted precedes s /\ well_formed s.

(** [[t, t + d)] overlaps no stored interval. *)
Definition free_at (s : SortedDict.t (Z * D)) (d t : Z) : Prop :=
  forall x, In x s -> ~ overlaps t (t + d) x.

(** Number of stored intervals that end after [t]: the measure of the
    shift search. *)
Definition ends_after (s : SortedDict.t (Z * D)) (t : Z) : nat :=
  length (filter (fun x => t <? slot_end x) s).
End StoreSpec.

(** ** Callers of a store: sequences of operations *)

Section Operations.
Context {D : Type}.

Inductive op : Type :=
| Add (start end_ : Z) (data : D)
| AddWithShift (start end_ : Z) (data : D)
| Remove (start : Z).

Inductive op_value : Type :=
| Added (ok : bool)
| Placed (slot : Z * Z)
| Removed (ok : bool).

Definition run_op (fuel : nat) (o : op) : M (CalendarBase.t D) op_value :=
  match o with
  | Add start end_ data =>
      ok <- CalendarBase.add_slot start end_ data ;; ret (Added ok)
  | AddWithShift start end_ data =>
      slot <- CalendarBase.add_slot_with_shift fuel start end_ data ;;
      ret (Placed slot)
  | Remove start =>
      ok <- CalendarBase.remove_slot start ;; ret (Removed ok)
  end.

(** A caller that performs the operations one after the other on the same
    store and goes on after an exception; it gets the store at the end
    and the outcome of each call. *)
Fixpoint run_ops (fuel : nat) (ops : list op) (self : CalendarBase.t D)
  : CalendarBase.t D * list (result op_value) :=
  match ops with
  | [] => (self, [])
  | o :: rest =>
      let '(self', r) := run_op fuel o self in
      let '(self'', rs) := run_ops fuel rest self' in
      (self'', r :: rs)
  end.

(** The candidates the loop of [_find_available_slot] moves to, one for
    each pass that goes round again, in the order they are taken. *)
Fixpoint find_jumps (fuel : nat) (duration current_time : Z)
  (self : CalendarBase.t D) : list Z :=
  match fuel with
  | O => []
  | S fuel' =>
      match CalendarBase.find_body duration current_time self with
      | (self', Ret (inl t')) => t' :: find_jumps fuel' duration t' self'
      | _ => []
      end
  end.
End Operations.
Arguments op D : clear implicits.

(** ** Callers of a registry: assignments one by one *)

Section Assignments.
Context {K D : Type} (K_eq_dec : forall a b : K, {a = b} + {a <> b}).

(** One assignment of the input of [bulk_assign_slots], as a call of
    [add_slot]. *)
Definition assign (a : K * string * Z * Z * D)
  : M (CalendarManager.t K D) bool :=
  let '(calendar_key, resource_id, start, end_, data) := a in
  CalendarManager.add_slot K_eq_dec calendar_key resource_id start end_ data.

Definition valid_range (a : K * string * Z * Z * D) : Prop :=
  let '(_, _, start, end_, _) := a in start < end_.

(** The registry after the assignments of a list have been made in
    order, each on the registry the one before left. *)
Definition after_all (m : CalendarManager.t K D)
  (l : list (K * string * Z * Z * D)) : CalendarManager.t K D :=
  fold_left (fun m a => state_of (assign a m)) l m.

(** The slots stored for a resource of a calendar, if both exist. *)
Definition slots_of (m : CalendarManager.t K D) (key : K) (rid : string)
  : option (SortedDict.t (Z * D)) :=
  match PyDict.get_ K_eq_dec (CalendarManager._calendars m) key with
  | Some g =>
      match PyDict.get_ string_dec (Calendar._calendars g) rid with
      | Some c => Some (CalendarBase._slots c)
      | None => None
      end
  | None => None
  end.
(** The dict of calendars once the calendar under [key] is sure to be
    there. *)
Definition with_calendar (m : CalendarManager.t K D) (key : K) : PyDict.t K (Calendar.t D) :=
  if PyDict.contains K_eq_dec (CalendarManager._calendars m) key
  then CalendarManager._calendars m
  else PyDict.setitem K_eq_dec (CalendarManager._calendars m) key
         (Calendar.init None).

(** The dict of stores once the store of [rid] is sure to be there. *)
Definition with_resource (g : Calendar.t D) (rid : string)
  : PyDict.t string (CalendarBase.t D) :=
  if PyDict.contains string_dec (Calendar._calendars g) rid
  then Calendar._calendars g
  else PyDict.setitem string_dec (Calendar._calendars g) rid
         (CalendarBase.init rid).
End Assignments.

(** ** The vocabulary of the further properties *)

Section FurtherSpec.
Context {K D : Type} (K_eq_dec : forall a b : K, {a = b} + {a <> b}).

(** A stored interval as [get_slot_at] and [get_all_slots] return it. *)
Definition as_slot (x : Z * (Z * D)) : Z * Z * D :=
  (fst x, fst (snd x), snd (snd x)).

(** The stored interval [x] contains the time [t]. *)
Definition covers (t : Z) (x : Z * (Z * D)) : Prop :=
  slot_start x <= t < slot_end x.

(** [r] is the answer to a lookup at [t] in the intervals [s]: the one
    interval that contains [t], or [None] when there is none. *)
Definition found_at (s : SortedDict.t (Z * D)) (t : Z)
  (r : option (Z * Z * D)) : Prop :=
  match r with
  | Some (a, b, d) =>
      In (a, (b, d)) s /\ a <= t < b /\
      (forall x, In x s -> covers t x -> x = (a, (b, d)))
  | None => forall x, In x s -> ~ covers t x
  end.

(** A dict holds one item per key. *)
Definition one_item_per_key {A B : Type} (d : PyDict.t A B) : Prop :=
  NoDup (PyDict.keys d).

(** What one resource contributes to [Calendar.get_slots_at]. *)
Definition hit_at (time : Z) (rid : string) (c : CalendarBase.t D)
  : list (string * Z * Z * D) :=
  match outcome_of (CalendarBase.get_slot_at time c) with
  | Ret (Some (start, end_, data)) => [(rid, start, end_, data)]
  | _ => []
  end.

(** The hits of a group, resource by resource in the order of the dict. *)
Definition hits_of (time : Z) (g : Calendar.t D) : list (string * Z * Z * D) :=
  flat_map (fun item => hit_at time (fst item) (snd item))
           (Calendar._calendars g).

(** A slot found in the calendar [key], as [get_all_slots_at] returns it. *)
Definition tagged (key : K) (x : string * Z * Z * D) : K * string * Z * Z * D :=
  let '(rid, start, end_, data) := x in (key, rid, start, end_, data).

(** The store an operation on resource [rid] of a group works on: the one
    the group has, or the fresh one that is created for it. *)
Definition store_for (g : Calendar.t D) (rid : string) : CalendarBase.t D :=
  match PyDict.get_ string_dec (Calendar._calendars g) rid with
  | Some c => c
  | None => CalendarBase.init rid
  end.

(** The hits of a group, resource id by resource id. *)
Definition hits_by_id (time : Z) (g : Calendar.t D)
  : list (string * Z * Z * D) :=
  flat_map (fun id => hit_at time id (store_for g id))
           (PyDict.keys (Calendar._calendars g)).

(** The group an operation on calendar [key] of a registry works on. *)
Definition group_for (m : CalendarManager.t K D) (key : K) : Calendar.t D :=
  match PyDict.get_ K_eq_dec (CalendarManager._calendars m) key with
  | Some g => g
  | None => Calendar.init None
  end.

(** Every store of the registry satisfies the store invariant. *)
Definition registry_inv (m : CalendarManager.t K D) : Prop :=
  forall key rid s, slots_of K_eq_dec m key rid = Some s -> store_inv s.

(** No store of the registry holds more than [n] intervals. *)
Definition stores_within (n : nat) (m : CalendarManager.t K D) : Prop :=
  forall key rid s, slots_of K_eq_dec m key rid = Some s -> (length s <= n)%nat.

(** One assignment of the input of [bulk_assign_slots_with_shift], as a
    call of [add_slot_with_shift]. *)
Definition assign_with_shift (fuel : nat) (a : K * string * Z * Z * D)
  : M (CalendarManager.t K D) (Z * Z) :=
  let '(calendar_key, resource_id, start, end_, data) := a in
  CalendarManager.add_slot_with_shift K_eq_dec fuel calendar_key resource_id
    start end_ data.

(** The returned times fit the assignment: same duration, not earlier than
    asked. *)
Definition shifted_from (a : K * string * Z * Z * D) (r : Z * Z) : Prop :=
  let '(_, _, start, end_, _) := a in
  start <= fst r /\ snd r - fst r = end_ - start.
End FurtherSpec.

(** ** Stores and registries of the examples *)

Definition one_slot : CalendarBase.t string :=
  CalendarBase.mk "alice" [(10, (12, "a"%string))].

Definition three_slots : CalendarBase.t string :=
  CalendarBase.mk "alice"
    [(10, (15, "a"%string)); (20, (25, "b"%string)); (30, (35, "c"%string))].

Definition empty_manager : CalendarManager.t string string :=
  CalendarManager.init None.

Definition two_resources : Calendar.t string :=
  Calendar.mk
    [("alice"%string, three_slots);
     ("bob"%string, CalendarBase.mk "bob" [(12, (14, "m"%string))])].

Definition one_team : CalendarManager.t string string :=
  CalendarManager.mk [("eng"%string, two_resources)].

Definition two_assignments : list (string * string * Z * Z * string) :=
  [("k"%string, "a"%string, 10, 12, "x"%string);
   ("k"%string, "a"%string, 11, 13, "y"%string)].

Definition invalid_then_valid : list (string * string * Z * Z * string) :=
  [("k"%string, "a"%string, 10, 10, "x"%string);
   ("k"%string, "a"%string, 10, 12, "y"%string)].

(** ** Facts about [SortedDict] *)

Section SortedDictFacts.
Context {V : Type}.
Implicit Types (d l : SortedDict.t V) (k : Z).

Lemma len_nil : SortedDict.len (@nil (Z * V)) = 0.
Proof. reflexivity. Qed.

Lemma len_cons (x : Z * V) l : SortedDict.len (x :: l) = 1 + SortedDict.len l.
Proof. unfold SortedDict.len. simpl length. lia. Qed.

Lemma len_app l1 l2 :
  SortedDict.len (l1 ++ l2) = SortedDict.len l1 + SortedDict.len l2.
Proof. unfold SortedDict.len. rewrite length_app. lia. Qed.

Lemma len_snoc l (x : Z * V) : SortedDict.len (l ++ [x]) = SortedDict.len l + 1.
Proof. unfold SortedDict.len. rewrite length_app. simpl length. lia. Qed.

Lemma len_nonneg l : 0 <= SortedDict.len l.
Proof. unfold SortedDict.len. lia. Qed.

Lemma peekitem_at l1 (x : Z * V) l2 :
  SortedDict.peekitem (l1 ++ x :: l2) (SortedDict.len l1) = Ret x.
Proof.
  unfold SortedDict.peekitem.
  pose proof (len_nonneg l1) as Hn.
  destruct (Z.ltb_spec (SortedDict.len l1) 0) as [Hlt | _]; [lia |].
  destruct (Z.ltb_spec (SortedDict.len l1) 0) as [Hlt | _]; [lia |].
  unfold SortedDict.len. rewrite Nat2Z.id.
  rewrite nth_error_app2 by lia.
  now rewrite Nat.sub_diag.
Qed.

Lemma peekitem_last l1 (p : Z * V) l2 :
  SortedDict.peekitem ((l1 ++ [p]) ++ l2) (SortedDict.len (l1 ++ [p]) - 1)
  = Ret p.
Proof.
  rewrite <- app_assoc. simpl.
  replace (SortedDict.len (l1 ++ [p]) - 1) with (SortedDict.len l1).
  - apply peekitem_at.
  - rewrite len_snoc. lia.
Qed.

(** [bisect_left] cuts a sorted dict into the keys below [k] and the
    keys not below [k]. *)
Lemma bisect_left_split d k :
  StronglySorted Z.lt (map fst d) ->
  exists l1 l2,
    d = l1 ++ l2 /\ SortedDict.bisect_left d k = SortedDict.len l1 /\
    Forall (fun x => fst x < k) l1 /\ Forall (fun x => k <= fst x) l2.
Proof.
  induction d as [| [k' v] r IH]; intros Hs.
  - exists [], []. repeat split; constructor.
  - simpl in Hs. apply StronglySorted_inv in Hs as [Hr Hall].
    simpl. destruct (Z.ltb_spec k' k) as [Hlt | Hge].
    + destruct (IH Hr) as (l1 & l2 & -> & Hb & H1 & H2).
      exists ((k', v) :: l1), l2. repeat split; auto.
      * rewrite Hb, len_cons. reflexivity.
    + exists [], ((k', v) :: r). repeat split; auto.
      constructor; [simpl; lia |].
      rewrite Forall_map in Hall.
      eapply Forall_impl; [| exact Hall]. simpl. intros; lia.
Qed.

(** [bisect_right] cuts a sorted dict into the keys up to [k] and the
    keys above [k]. *)
Lemma bisect_right_split d k :
  StronglySorted Z.lt (map fst d) ->
  exists l1 l2,
    d = l1 ++ l2 /\ SortedDict.bisect_right d k = SortedDict.len l1 /\
    Forall (fun x => fst x <= k) l1 /\ Forall (fun x => k < fst x) l2.
Proof.
  induction d as [| [k' v] r IH]; intros Hs.
  - exists [], []. repeat split; constructor.
  - simpl in Hs. apply StronglySorted_inv in Hs as [Hr Hall].
    simpl. destruct (Z.leb_spec k' k) as [Hle | Hgt].
    + destruct (IH Hr) as (l1 & l2 & -> & Hb & H1 & H2).
      exists ((k', v) :: l1), l2. repeat split; auto.
      * rewrite Hb, len_cons. reflexivity.
    + exists [], ((k', v) :: r). repeat split; auto.
      constructor; [simpl; lia |].
      rewrite Forall_map in Hall.
      eapply Forall_impl; [| exact Hall]. simpl. intros; lia.
Qed.

(** A list is empty or ends with an item. *)
Lemma snoc_cases (l : list (Z * V)) : l = [] \/ exists l' p, l = l' ++ [p].
Proof.
  induction l as [| p l' _] using rev_ind; [left | right]; eauto.
Qed.
End SortedDictFacts.

(** ** The invariant of an interval store *)

Section StoreInvariant.
Context {D : Type}.
Implicit Types (s l : SortedDict.t (Z * D)) (x y : Z * (Z * D)).

Lemma ordered_nil : ordered (@nil (Z * (Z * D))).
Proof. split; constructor. Qed.

Lemma ordered_cons_inv x s :
  ordered (x :: s) ->
  slot_start x < slot_end x /\ Forall (precedes x) s /\ ordered s.
Proof.
  intros [Hs Hw]. apply StronglySorted_inv in Hs as [Hs Hx].
  inversion Hw; subst. repeat split; assumption.
Qed.

Lemma ordered_cons x s :
  slot_start x < slot_end x -> Forall (precedes x) s -> ordered s ->
  ordered (x :: s).
Proof.
  intros Hx Hp [Hs Hw]. split; constructor; assumption.
Qed.

Lemma ordered_wf s x : ordered s -> In x s -> slot_start x < slot_end x.
Proof.
  intros [_ Hw] Hin. unfold well_formed in Hw.
  rewrite Forall_forall in Hw. now apply Hw.
Qed.

Lemma ordered_app l1 l2 :
  ordered (l1 ++ l2) ->
  ordered l1 /\ ordered l2 /\
  (forall x y, In x l1 -> In y l2 -> precedes x y).
Proof.
  induction l1 as [| a l1 IH]; simpl; intros Ho.
  - split; [apply ordered_nil | split; [assumption | intros ? ? []]].
  - apply ordered_cons_inv in Ho as (Ha & Hp & Ho).
    destruct (IH Ho) as (H1 & H2 & H12).
    apply Forall_app in Hp as [Hp1 Hp2].
    split; [now apply ordered_cons | split; [assumption |]].
    intros x y [<- | Hx] Hy; [| now apply H12].
    rewrite Forall_forall in Hp2. now apply Hp2.
Qed.

Lemma ordered_keys_sorted s : ordered s -> keys_sorted s.
Proof.
  unfold keys_sorted.
  induction s as [| a s IH]; simpl; intros Ho; [constructor |].
  apply ordered_cons_inv in Ho as (Ha & Hp & Ho).
  constructor; [now apply IH |].
  rewrite Forall_map. rewrite Forall_forall in Hp |- *.
  intros y Hy. specialize (Hp y Hy). unfold precedes, slot_start in *. lia.
Qed.

Lemma store_inv_tail x s : store_inv (x :: s) -> store_inv s.
Proof.
  intros (Hk & Hw & Hn). repeat split.
  - unfold keys_sorted in *. simpl in Hk. now apply StronglySorted_inv in Hk.
  - now inversion Hw.
  - intros i j a b Hij Hi Hj. apply (Hn (S i) (S j)); auto.
Qed.

(** The invariant as stated and as used are the same property. *)
Lemma store_inv_ordered s : store_inv s <-> ordered s.
Proof.
  split.
  - induction s as [| a s IH]; intros Hinv; [apply ordered_nil |].
    pose proof (store_inv_tail _ _ Hinv) as Ht.
    destruct Hinv as (Hk & Hw & Hn).
    apply ordered_cons; [now inversion Hw | | now apply IH].
    rewrite Forall_forall. intros y Hy.
    apply In_nth_error in Hy as [j Hj].
    unfold keys_sorted in Hk. simpl in Hk.
    apply StronglySorted_inv in Hk as [_ Hlt].
    rewrite Forall_map, Forall_forall in Hlt.
    pose proof (Hlt y (nth_error_In _ _ Hj)) as Hay.
    inversion Hw as [| ? ? Ha Hws]; subst.
    unfold well_formed in Hws. rewrite Forall_forall in Hws.
    pose proof (Hws y (nth_error_In _ _ Hj)) as Hy.
    specialize (Hn 0%nat (S j) a y (Nat.neq_0_succ j) eq_refl Hj).
    unfold precedes, slot_start in *. lia.
  - intros Ho. split; [now apply ordered_keys_sorted |].
    split; [apply Ho |].
    induction s as [| a s IH]; intros i j x y Hij Hi Hj.
    + destruct i; discriminate.
    + apply ordered_cons_inv in Ho as (Ha & Hp & Ho).
      rewrite Forall_forall in Hp.
      destruct i as [| i], j as [| j]; simpl in Hi, Hj.
      * congruence.
      * injection Hi as <-. apply nth_error_In in Hj.
        specialize (Hp y Hj). pose proof (ordered_wf _ _ Ho Hj).
        unfold precedes in *. lia.
      * injection Hj as <-. apply nth_error_In in Hi.
        specialize (Hp x Hi). pose proof (ordered_wf _ _ Ho Hi).
        unfold precedes in *. lia.
      * apply (IH Ho i j); auto.
Qed.

Lemma conflictb_true s a b :
  conflictb s a b = true <-> exists x, In x s /\ overlaps a b x.
Proof.
  unfold conflictb. rewrite existsb_exists.
  split; intros (x & Hin & Hx); exists x; split; auto;
    unfold overlapsb, overlaps in *.
  - apply andb_prop in Hx as [H1 H2]. lia.
  - apply andb_true_intro. lia.
Qed.

Lemma conflictb_false s a b :
  conflictb s a b = false <-> forall x, In x s -> ~ overlaps a b x.
Proof.
  rewrite <- not_true_iff_false, conflictb_true. firstorder.
Qed.

Lemma conflictb_free s d t : conflictb s t (t + d) = false <-> free_at s d t.
Proof. apply conflictb_false. Qed.
End StoreInvariant.

(** ** Conflict detection *)

Section Conflict.
Context {D : Type}.
Implicit Types (self : CalendarBase.t D) (s l : SortedDict.t (Z * D)).

(** In an ordered store the two neighbours of the insertion point decide
    whether a range overlaps anything. *)
Lemma conflictb_neighbours l1 l2 a b :
  ordered (l1 ++ l2) -> a < b ->
  Forall (fun x => fst x < a) l1 -> Forall (fun x => a <= fst x) l2 ->
  conflictb (l1 ++ l2) a b =
  (match rev l1 with p :: _ => a <? slot_end p | [] => false end)
  || (match l2 with n :: _ => slot_start n <? b | [] => false end).
Proof.
  intros Ho Hab H1 H2.
  destruct (ordered_app _ _ Ho) as (Ho1 & Ho2 & H12).
  rewrite Forall_forall in H1, H2.
  apply eq_iff_eq_true. rewrite conflictb_true, orb_true_iff. split.
  - intros (x & Hin & Hs & He). apply in_app_or in Hin as [Hin | Hin].
    + left. destruct (snoc_cases l1) as [-> | (l' & p & ->)]; [easy |].
      rewrite rev_unit. apply Z.ltb_lt.
      apply in_app_or in Hin as [Hin | [<- | []]]; [| assumption].
      destruct (ordered_app _ _ Ho1) as (_ & _ & Hp).
      specialize (Hp x p Hin (or_introl eq_refl)).
      assert (Hip : In p (l' ++ [p])) by (apply in_or_app; right; now left).
      pose proof (ordered_wf _ p Ho1 Hip).
      unfold precedes in Hp. lia.
    + right. destruct l2 as [| n l2']; [easy |].
      apply Z.ltb_lt. destruct Hin as [<- | Hin]; [assumption |].
      apply ordered_cons_inv in Ho2 as (Hn & Hp & _).
      rewrite Forall_forall in Hp. specialize (Hp x Hin).
      unfold precedes in Hp. lia.
  - intros [Hp | Hn].
    + destruct (snoc_cases l1) as [-> | (l' & p & ->)]; [easy |].
      rewrite rev_unit in Hp. apply Z.ltb_lt in Hp.
      assert (Hin : In p (l' ++ [p])) by (apply in_or_app; right; now left).
      exists p. split; [apply in_or_app; now left |].
      specialize (H1 p Hin). unfold overlaps, slot_start. lia.
    + destruct l2 as [| n l2']; [easy |]. apply Z.ltb_lt in Hn.
      exists n. split; [apply in_or_app; right; now left |].
      pose proof (ordered_wf _ n Ho2 (or_introl eq_refl)).
      specialize (H2 n (or_introl eq_refl)).
      unfold overlaps, slot_start in *. lia.
Qed.

(** [_has_conflict] reads [self] only, and on an ordered store answers
    whether some stored interval overlaps [[a, b)]. *)
Lemma has_conflict_spec self a b :
  ordered (CalendarBase._slots self) -> a < b ->
  CalendarBase._has_conflict a b self
  = (self, Ret (conflictb (CalendarBase._slots self) a b)).
Proof.
  intros Ho Hab.
  destruct (bisect_left_split (CalendarBase._slots self) a
              (ordered_keys_sorted _ Ho)) as (l1 & l2 & Hs & Hb & H1 & H2).
  unfold CalendarBase._has_conflict. run_m. rewrite Hb, Hs.
  rewrite Hs in Ho. rewrite (conflictb_neighbours l1 l2 a b Ho Hab H1 H2).
  pose proof (len_nonneg l2) as Hl2.
  destruct (snoc_cases l1) as [-> | (l' & [kp [ep dp]] & ->)].
  - simpl app. rewrite len_nil. simpl.
    destruct l2 as [| [kn vn] l2'].
    + reflexivity.
    + rewrite len_cons in *. pose proof (len_nonneg l2').
      destruct (Z.ltb_spec 0 (1 + SortedDict.len l2')); [| lia].
      change ((kn, vn) :: l2') with ([] ++ (kn, vn) :: l2').
      rewrite (peekitem_at [] (kn, vn) l2' : SortedDict.peekitem _ 0 = _).
      unfold slot_start. simpl. now destruct (kn <? b).
  - rewrite rev_unit.
    assert (Hpos : 0 < SortedDict.len (l' ++ [(kp, (ep, dp))])).
    { rewrite len_snoc. pose proof (len_nonneg l'). lia. }
    rewrite Z.gtb_ltb. destruct (Z.ltb_spec 0 (SortedDict.len (l' ++ [(kp, (ep, dp))]))); [| lia].
    rewrite peekitem_last. unfold slot_end. simpl.
    rewrite Z.gtb_ltb. destruct (a <? ep); [reflexivity |]. simpl.
    rewrite (len_app (l' ++ [(kp, (ep, dp))]) l2).
    destruct l2 as [| [kn vn] l2'].
    + rewrite len_nil, Z.add_0_r, Z.ltb_irrefl. reflexivity.
    + rewrite len_cons in *. pose proof (len_nonneg l2').
      destruct (Z.ltb_spec (SortedDict.len (l' ++ [(kp, (ep, dp))]))
                  (SortedDict.len (l' ++ [(kp, (ep, dp))]) + (1 + SortedDict.len l2')));
        [| lia].
      rewrite peekitem_at. unfold slot_start. simpl. now destruct (kn <? b).
Qed.
End Conflict.

(** ** Insertion and removal keep the store ordered *)

Section Update.
Context {D : Type}.
Implicit Types (s l : SortedDict.t (Z * D)).

(** Storing an interval that overlaps nothing adds one item and keeps the
    store ordered. *)
Lemma setitem_fresh s k e (d : D) :
  ordered s -> k < e ->
  (forall x, In x s -> ~ overlaps k e x) ->
  ordered (SortedDict.setitem s k (e, d)) /\
  Permutation ((k, (e, d)) :: s) (SortedDict.setitem s k (e, d)).
Proof.
  induction s as [| [k' [e' d']] r IH]; intros Ho Hke Hfree.
  - simpl. split; [| reflexivity].
    apply ordered_cons; [assumption | constructor | apply ordered_nil].
  - pose proof Ho as Ho'.
    apply ordered_cons_inv in Ho' as (Hw & Hp & Hr).
    unfold slot_start, slot_end in Hw. simpl in Hw.
    pose proof (Hfree _ (or_introl eq_refl)) as Hhead.
    unfold overlaps, slot_start, slot_end in Hhead. simpl in Hhead.
    simpl. destruct (Z.ltb_spec k k') as [Hlt | Hge].
    + split; [| reflexivity].
      apply ordered_cons; [assumption | | assumption].
      rewrite Forall_forall. intros y Hy.
      pose proof (ordered_wf _ y Ho Hy) as Hwy.
      pose proof (Hfree y Hy) as Hny.
      assert (k' <= slot_start y).
      { destruct Hy as [<- | Hy]; [unfold slot_start; simpl; lia |].
        rewrite Forall_forall in Hp. specialize (Hp y Hy).
        unfold precedes, slot_end in Hp. simpl in Hp. lia. }
      unfold overlaps, precedes, slot_end in *. simpl. lia.
    + destruct (Z.eqb_spec k k') as [-> | Hne]; [lia |].
      destruct IH as [IHo IHp];
        [assumption | assumption | intros x Hx; apply Hfree; now right |].
      split.
      * apply ordered_cons; [assumption | | assumption].
        rewrite Forall_forall. intros y Hy.
        apply (Permutation_in _ (Permutation_sym IHp)) in Hy.
        destruct Hy as [<- | Hy].
        -- unfold precedes, slot_start, slot_end. simpl. lia.
        -- rewrite Forall_forall in Hp. now apply Hp.
      * etransitivity; [apply perm_swap |]. now apply perm_skip.
Qed.

Lemma delitem_cases s k :
  (exists s', SortedDict.delitem s k = Ret s' /\ incl s' s /\
              (length s' < length s)%nat /\
              (ordered s -> ordered s')) \/
  SortedDict.delitem s k = Raise KeyError.
Proof.
  induction s as [| [k' v'] r IH]; simpl; [now right |].
  destruct (Z.eqb_spec k k') as [-> | Hne].
  - left. exists r. split; [reflexivity |].
    split; [apply incl_tl, incl_refl |]. split; [simpl; lia |].
    intros Ho. now apply ordered_cons_inv in Ho.
  - destruct IH as [(r' & -> & Hincl & Hlen & Hord) | ->]; [left | now right].
    exists ((k', v') :: r'). split; [reflexivity |].
    split; [now apply incl_cons; [left | apply incl_tl] |].
    split; [simpl; lia |].
    intros Ho. apply ordered_cons_inv in Ho as (Hw & Hp & Hr).
    apply ordered_cons; [assumption | | now apply Hord].
    rewrite Forall_forall in Hp |- *. intros y Hy. apply Hp, Hincl, Hy.
Qed.
End Update.

(** ** The shift search *)

Section ShiftSearch.
Context {D : Type}.
Implicit Types (self : CalendarBase.t D) (s l : SortedDict.t (Z * D)).

Lemma filter_length_mono {A : Type} (P Q : A -> bool) (l : list A) :
  (forall x, In x l -> Q x = true -> P x = true) ->
  (length (filter Q l) <= length (filter P l))%nat.
Proof.
  induction l as [| a l IH]; intros H; simpl; [lia |].
  assert (IH' := IH (fun x Hx => H x (or_intror Hx))).
  pose proof (H a (or_introl eq_refl)) as Ha.
  destruct (Q a), (P a); simpl; first [lia | discriminate (Ha eq_refl)].
Qed.

Lemma filter_length_strict {A : Type} (P Q : A -> bool) (l : list A) (a : A) :
  (forall x, In x l -> Q x = true -> P x = true) ->
  In a l -> P a = true -> Q a = false ->
  (length (filter Q l) < length (filter P l))%nat.
Proof.
  induction l as [| b l IH]; intros H Hin HP HQ; [destruct Hin |].
  simpl. pose proof (H b (or_introl eq_refl)) as Hb.
  assert (Hl := fun x Hx => H x (or_intror Hx)).
  destruct Hin as [-> | Hin].
  - rewrite HP, HQ. simpl.
    pose proof (filter_length_mono P Q l Hl). lia.
  - specialize (IH Hl Hin HP HQ).
    destruct (Q b), (P b); simpl; first [lia | discriminate (Hb eq_refl)].
Qed.

Lemma ends_after_le_length s t : (ends_after s t <= length s)%nat.
Proof.
  unfold ends_after. apply List.filter_length_le.
Qed.

(** Moving the candidate to the end of a stored interval that ends later
    leaves fewer intervals ending after the candidate. *)
Lemma ends_after_decreases s t t' x :
  t < t' -> In x s -> slot_end x = t' ->
  (ends_after s t' < ends_after s t)%nat.
Proof.
  intros Hlt Hin He. unfold ends_after.
  apply filter_length_strict with (a := x); auto.
  - intros y _ Hy. apply Z.ltb_lt in Hy. apply Z.ltb_lt. lia.
  - apply Z.ltb_lt. lia.
  - apply Z.ltb_ge. lia.
Qed.

(** The last part of the loop body, taken when no stored interval that
    starts at or before [t] reaches beyond [t]: the blocker is the first
    interval that starts at or after [t], and the candidate moves to its
    end. *)
Lemma next_blocker_spec self d t :
  ordered (CalendarBase._slots self) -> 0 < d ->
  conflictb (CalendarBase._slots self) t (t + d) = true ->
  (forall y, In y (CalendarBase._slots self) ->
             slot_start y <= t -> slot_end y <= t) ->
  exists t',
    (let idx := SortedDict.bisect_left (CalendarBase._slots self) t in
     if idx <? SortedDict.len (CalendarBase._slots self) then
       n <- lift (SortedDict.peekitem (CalendarBase._slots self) idx) ;;
       let '(_, (next_end, _)) := n in
       ret (inl next_end)
     else ret (inr t)) self = (self, Ret (@inl Z Z t')) /\
    t < t' /\
    (exists x, In x (CalendarBase._slots self) /\ slot_end x = t') /\
    (forall u, t <= u < t' ->
               conflictb (CalendarBase._slots self) u (u + d) = true).
Proof.
  destruct self as [rid s]. simpl. intros Ho Hd Hc Hcover.
  destruct (bisect_left_split s t (ordered_keys_sorted _ Ho))
    as (m1 & m2 & Hs & Hb & H1 & H2).
  apply conflictb_true in Hc as (x & Hx & Hxs & Hxe).
  rewrite Forall_forall in H1, H2.
  assert (Hxm2 : In x m2).
  { rewrite Hs in Hx. apply in_app_or in Hx as [Hx1 | Hx2]; [| assumption].
    exfalso. specialize (H1 x Hx1).
    assert (Hin : In x s) by (rewrite Hs; apply in_or_app; now left).
    specialize (Hcover x Hin). unfold slot_start in Hcover. lia. }
  rewrite Hb. clear Hb. subst s.
  destruct (ordered_app _ _ Ho) as (_ & Ho2 & _).
  destruct m2 as [| [kn [en dn]] m2']; [destruct Hxm2 |].
  rewrite len_app, len_cons. pose proof (len_nonneg m2').
  destruct (Z.ltb_spec (SortedDict.len m1)
              (SortedDict.len m1 + (1 + SortedDict.len m2'))); [| lia].
  run_m. rewrite peekitem_at.
  pose proof (ordered_wf _ _ Ho2 (or_introl eq_refl)) as Hwn.
  pose proof (H2 _ (or_introl eq_refl)) as Hkn.
  unfold slot_start, slot_end in Hwn. simpl in Hwn, Hkn.
  assert (Hin : In (kn, (en, dn)) (m1 ++ (kn, (en, dn)) :: m2'))
    by (apply in_or_app; right; now left).
  exists en. split; [reflexivity |]. split; [lia |]. split.
  - exists (kn, (en, dn)). split; [assumption | reflexivity].
  - intros u Hu. apply conflictb_true.
    exists (kn, (en, dn)). split; [assumption |].
    assert (kn <= slot_start x).
    { destruct Hxm2 as [<- | Hxm2]; [unfold slot_start; simpl; lia |].
      apply ordered_cons_inv in Ho2 as (_ & Hp & _).
      rewrite Forall_forall in Hp. specialize (Hp x Hxm2).
      unfold precedes, slot_end in Hp. simpl in Hp. lia. }
    unfold overlaps, slot_start, slot_end. simpl. lia.
Qed.
(** One pass of the loop: it returns the candidate when the candidate is
    free, and otherwise moves it strictly forward to the end of a stored
    interval, skipping only candidates that are blocked. *)
Lemma find_body_spec self d t :
  ordered (CalendarBase._slots self) -> 0 < d ->
  (conflictb (CalendarBase._slots self) t (t + d) = false /\
   CalendarBase.find_body d t self = (self, Ret (inr t))) \/
  (exists t',
      CalendarBase.find_body d t self = (self, Ret (inl t')) /\
      t < t' /\
      (exists x, In x (CalendarBase._slots self) /\ slot_end x = t') /\
      (forall u, t <= u < t' ->
                 conflictb (CalendarBase._slots self) u (u + d) = true)).
Proof.
  intros Ho Hd.
  destruct (conflictb (CalendarBase._slots self) t (t + d)) eqn:Hc;
    [right | left; split; [reflexivity |]];
    unfold CalendarBase.find_body; unfold bind at 1;
    rewrite (has_conflict_spec self t (t + d) Ho) by lia;
    rewrite Hc; cbn [negb]; [| reflexivity].
  destruct (bisect_right_split (CalendarBase._slots self) t
              (ordered_keys_sorted _ Ho)) as (l1 & l2 & Hs & Hb & H1 & H2).
  rewrite Forall_forall in H1, H2.
  unfold bind at 1, get at 1. cbv beta zeta. rewrite Hb.
  destruct (snoc_cases l1) as [-> | (l' & [kp [ep dp]] & ->)].
  - (* no interval starts at or before [t] *)
    rewrite len_nil. unfold bind at 1. cbn [Z.sub Z.add Z.opp Z.geb Z.compare].
    unfold ret at 1.
    apply next_blocker_spec; auto.
    intros y Hy Hyt. rewrite Hs in Hy. simpl in Hy.
    specialize (H2 y Hy). unfold slot_start in Hyt. lia.
  - rewrite len_snoc. pose proof (len_nonneg l') as Hl'.
    replace (SortedDict.len l' + 1 - 1) with (SortedDict.len l') by lia.
    rewrite Z.geb_leb. destruct (Z.leb_spec 0 (SortedDict.len l')); [| lia].
    assert (Hs' : CalendarBase._slots self = l' ++ (kp, (ep, dp)) :: l2)
      by (rewrite Hs, <- app_assoc; reflexivity).
    assert (Hpeek : SortedDict.peekitem (CalendarBase._slots self)
                      (SortedDict.len l') = Ret (kp, (ep, dp)))
      by (rewrite Hs'; apply peekitem_at).
    unfold bind at 1. unfold bind at 1. unfold lift at 1. rewrite Hpeek.
    rewrite Z.gtb_ltb.
    assert (Hp : In (kp, (ep, dp)) (CalendarBase._slots self))
      by (rewrite Hs'; apply in_or_app; right; now left).
    assert (Hkp : kp <= t).
    { apply (H1 (kp, (ep, dp))). apply in_or_app. right. now left. }
    destruct (Z.ltb_spec t ep) as [Hlt | Hge].
    + (* the interval around [t] blocks: jump to its end *)
      exists ep. split; [reflexivity |]. split; [assumption |]. split.
      * exists (kp, (ep, dp)). split; [assumption | reflexivity].
      * intros u Hu. apply conflictb_true. exists (kp, (ep, dp)).
        split; [assumption |].
        unfold overlaps, slot_start, slot_end. simpl. lia.
    + unfold ret at 1.
      apply next_blocker_spec; auto.
      intros y Hy Hyt. rewrite Hs' in Hy, Ho.
      apply in_app_or in Hy as [Hy | [<- | Hy]].
      * destruct (ordered_app _ _ Ho) as (_ & Ho2 & H12).
        specialize (H12 y (kp, (ep, dp)) Hy (or_introl eq_refl)).
        pose proof (ordered_wf _ _ Ho2 (or_introl eq_refl)) as Hw.
        unfold precedes, slot_start, slot_end in *. simpl in *. lia.
      * unfold slot_end. simpl. lia.
      * specialize (H2 y Hy). unfold slot_start in Hyt. lia.
Qed.

(** The loop returns as soon as the fuel exceeds the number of stored
    intervals that end after the candidate, with the least free start at
    or after the candidate, and it leaves [self] as it was. *)
Lemma find_loop_spec fuel : forall self d t,
  ordered (CalendarBase._slots self) -> 0 < d ->
  (ends_after (CalendarBase._slots self) t < fuel)%nat ->
  exists r,
    CalendarBase.find_loop fuel d t self = (self, Ret r) /\
    t <= r /\
    conflictb (CalendarBase._slots self) r (r + d) = false /\
    (forall u, t <= u < r ->
               conflictb (CalendarBase._slots self) u (u + d) = true).
Proof.
  induction fuel as [| fuel IH]; intros self d t Ho Hd Hfuel; [lia |].
  cbn [CalendarBase.find_loop]. unfold bind at 1.
  destruct (find_body_spec self d t Ho Hd)
    as [[Hc ->] | (t' & -> & Hlt & (x & Hx & He) & Hskip)].
  - exists t. split; [reflexivity |]. split; [lia |]. split; [assumption |].
    intros u Hu. lia.
  - pose proof (ends_after_decreases _ t t' x Hlt Hx He) as Hdec.
    destruct (IH self d t' Ho Hd) as (r & Hr & Hle & Hfree & Hmin); [lia |].
    exists r. split; [assumption |]. split; [lia |]. split; [assumption |].
    intros u Hu. destruct (Z.lt_ge_cases u t'); [apply Hskip | apply Hmin]; lia.
Qed.
End ShiftSearch.

(** ** The methods never index out of range *)

Section Totality.
Context {D : Type}.
Implicit Types (self : CalendarBase.t D) (s : SortedDict.t (Z * D)).

Lemma bisect_left_bounds {V : Type} (d : SortedDict.t V) k :
  0 <= SortedDict.bisect_left d k <= SortedDict.len d.
Proof.
  induction d as [| [k' v] r IH]; cbn [SortedDict.bisect_left].
  - unfold SortedDict.len. simpl. lia.
  - rewrite len_cons. destruct (k' <? k); lia.
Qed.

Lemma bisect_right_bounds {V : Type} (d : SortedDict.t V) k :
  0 <= SortedDict.bisect_right d k <= SortedDict.len d.
Proof.
  induction d as [| [k' v] r IH]; cbn [SortedDict.bisect_right].
  - unfold SortedDict.len. simpl. lia.
  - rewrite len_cons. destruct (k' <=? k); lia.
Qed.

Lemma peekitem_in_range {V : Type} (d : SortedDict.t V) i :
  0 <= i < SortedDict.len d ->
  exists x, SortedDict.peekitem d i = Ret x /\ In x d.
Proof.
  intros Hi. unfold SortedDict.peekitem.
  destruct (Z.ltb_spec i 0); [lia |].
  destruct (Z.ltb_spec i 0); [lia |].
  destruct (nth_error d (Z.to_nat i)) as [x |] eqn:Hn.
  - exists x. split; [reflexivity | eapply nth_error_In; eassumption].
  - apply nth_error_None in Hn. unfold SortedDict.len in Hi. lia.
Qed.

Lemma has_conflict_total self a b :
  exists c, CalendarBase._has_conflict a b self = (self, Ret c).
Proof.
  unfold CalendarBase._has_conflict. run_m.
  pose proof (bisect_left_bounds (CalendarBase._slots self) a) as Hb.
  set (idx := SortedDict.bisect_left (CalendarBase._slots self) a) in *.
  assert (Hafter : exists c,
    (let (s', r) :=
       (if idx <? SortedDict.len (CalendarBase._slots self)
        then fun s0 : CalendarBase.t D =>
               match SortedDict.peekitem (CalendarBase._slots self) idx with
               | Ret a0 => (let '(next_start, _) := a0 in
                            fun s1 : CalendarBase.t D => (s1, Ret (next_start <? b))) s0
               | Raise e => (s0, Raise e)
               | OutOfFuel => (s0, OutOfFuel)
               end
        else fun s0 : CalendarBase.t D => (s0, Ret false)) self in
     match r with
     | Ret a0 => (if a0 then fun s0 : CalendarBase.t D => (s0, Ret true)
                  else fun s0 : CalendarBase.t D => (s0, Ret false)) s'
     | Raise e => (s', Raise e)
     | OutOfFuel => (s', OutOfFuel)
     end) = (self, Ret c)).
  { destruct (Z.ltb_spec idx (SortedDict.len (CalendarBase._slots self))).
    - destruct (peekitem_in_range (CalendarBase._slots self) idx)
        as ([kn vn] & -> & _); [lia |].
      destruct (kn <? b); eauto.
    - eauto. }
  rewrite Z.gtb_ltb. destruct (Z.ltb_spec 0 idx).
  - destruct (peekitem_in_range (CalendarBase._slots self) (idx - 1))
      as ([kp [ep dp]] & -> & _); [lia |].
    destruct (ep >? a); [eauto | exact Hafter].
  - exact Hafter.
Qed.

(** With a valid range [add_slot] returns a boolean, whatever the store. *)
Lemma add_slot_total self start end_ (data : D) :
  start < end_ ->
  exists self' b,
    CalendarBase.add_slot start end_ data self = (self', Ret b) /\
    CalendarBase.resource_id self' = CalendarBase.resource_id self.
Proof.
  intros Hlt. unfold CalendarBase.add_slot.
  rewrite Z.geb_leb. destruct (Z.leb_spec end_ start); [lia |].
  unfold bind at 1.
  destruct (has_conflict_total self start end_) as [c ->].
  destruct c; run_m; eauto.
Qed.

Lemma add_slot_invalid self start end_ (data : D) :
  start >= end_ ->
  CalendarBase.add_slot start end_ data self = (self, Raise ValueError).
Proof.
  intros Hge. unfold CalendarBase.add_slot.
  rewrite Z.geb_leb. destruct (Z.leb_spec end_ start); [reflexivity | lia].
Qed.

Lemma add_slot_with_shift_invalid fuel self start end_ (data : D) :
  start >= end_ ->
  CalendarBase.add_slot_with_shift fuel start end_ data self
  = (self, Raise ValueError).
Proof.
  intros Hge. unfold CalendarBase.add_slot_with_shift.
  rewrite Z.geb_leb. destruct (Z.leb_spec end_ start); [reflexivity | lia].
Qed.

(** One pass of the loop never raises and leaves [self] as it was. *)
Lemma find_body_total self d t :
  exists r, CalendarBase.find_body d t self = (self, Ret r).
Proof.
  unfold CalendarBase.find_body. unfold bind at 1.
  destruct (has_conflict_total self t (t + d)) as [c ->].
  destruct c; cbn [negb]; [| run_m; eauto].
  run_m.
  pose proof (bisect_right_bounds (CalendarBase._slots self) t) as Hr.
  pose proof (bisect_left_bounds (CalendarBase._slots self) t) as Hl.
  set (ir := SortedDict.bisect_right (CalendarBase._slots self) t) in *.
  set (il := SortedDict.bisect_left (CalendarBase._slots self) t) in *.
  assert (Hnext : exists r,
    (if il <? SortedDict.len (CalendarBase._slots self)
     then fun s0 : CalendarBase.t D =>
            match SortedDict.peekitem (CalendarBase._slots self) il with
            | Ret a0 => (let '(_, (next_end, _)) := a0 in
                         fun s1 : CalendarBase.t D => (s1, Ret (@inl Z Z next_end))) s0
            | Raise e => (s0, Raise e)
            | OutOfFuel => (s0, OutOfFuel)
            end
     else fun s0 : CalendarBase.t D => (s0, Ret (inr t))) self = (self, Ret r)).
  { destruct (Z.ltb_spec il (SortedDict.len (CalendarBase._slots self))).
    - destruct (peekitem_in_range (CalendarBase._slots self) il)
        as ([kn [en dn]] & -> & _); [lia |]. eauto.
    - eauto. }
  rewrite Z.geb_leb. destruct (Z.leb_spec 0 (ir - 1)).
  - destruct (peekitem_in_range (CalendarBase._slots self) (ir - 1))
      as ([kp [ep dp]] & -> & _); [lia |].
    destruct (ep >? t); [eauto | exact Hnext].
  - exact Hnext.
Qed.

(** The loop returns a time or runs out of fuel; it never raises and
    never changes [self]. *)
Lemma find_loop_total fuel : forall self d t,
  (exists r, CalendarBase.find_loop fuel d t self = (self, Ret r)) \/
  CalendarBase.find_loop fuel d t self = (self, OutOfFuel).
Proof.
  induction fuel as [| fuel IH]; intros self d t; [now right |].
  destruct (find_body_total self d t) as [r Hr].
  assert (Heq : CalendarBase.find_loop (S fuel) d t self =
                match r with
                | inl t' => CalendarBase.find_loop fuel d t' self
                | inr t' => (self, Ret t')
                end).
  { cbn [CalendarBase.find_loop]. unfold bind. rewrite Hr.
    now destruct r. }
  rewrite Heq. destruct r as [t' | t']; [apply IH | left; eauto].
Qed.
End Totality.

(** ** What the operations of a store do *)

Section StoreOperations.
Context {D : Type}.
Implicit Types (self : CalendarBase.t D) (s : SortedDict.t (Z * D)).

Lemma add_slot_ordered self start end_ (data : D) :
  ordered (CalendarBase._slots self) -> start < end_ ->
  CalendarBase.add_slot start end_ data self =
  if conflictb (CalendarBase._slots self) start end_
  then (self, Ret false)
  else (CalendarBase.set_slots self
          (SortedDict.setitem (CalendarBase._slots self) start (end_, data)),
        Ret true).
Proof.
  intros Ho Hlt. unfold CalendarBase.add_slot.
  rewrite Z.geb_leb. destruct (Z.leb_spec end_ start); [lia |].
  unfold bind at 1. rewrite (has_conflict_spec self start end_ Ho Hlt).
  now destruct (conflictb (CalendarBase._slots self) start end_).
Qed.

(** Whenever the loop returns, it returns the least free start at or
    after the candidate. *)
Lemma find_loop_sound fuel : forall self d t r self',
  ordered (CalendarBase._slots self) -> 0 < d ->
  CalendarBase.find_loop fuel d t self = (self', Ret r) ->
  self' = self /\ t <= r /\
  conflictb (CalendarBase._slots self) r (r + d) = false /\
  (forall u, t <= u < r ->
             conflictb (CalendarBase._slots self) u (u + d) = true).
Proof.
  induction fuel as [| fuel IH]; intros self d t r self' Ho Hd Hrun;
    [discriminate |].
  cbn [CalendarBase.find_loop] in Hrun. unfold bind at 1 in Hrun.
  destruct (find_body_spec self d t Ho Hd)
    as [[Hc Hb] | (t' & Hb & Hlt & _ & Hskip)]; rewrite Hb in Hrun.
  - injection Hrun as <- <-. split; [reflexivity |]. split; [lia |].
    split; [assumption |]. intros u Hu. lia.
  - destruct (IH self d t' r self' Ho Hd Hrun) as (-> & Hle & Hfree & Hmin).
    split; [reflexivity |]. split; [lia |]. split; [assumption |].
    intros u Hu. destruct (Z.lt_ge_cases u t'); [apply Hskip | apply Hmin]; lia.
Qed.

(** [add_slot_with_shift] on an ordered store: it places the interval at
    the least free start, or the loop was given too little fuel. *)
Lemma add_slot_with_shift_cases fuel self start end_ (data : D) :
  ordered (CalendarBase._slots self) -> start < end_ ->
  (exists t,
    CalendarBase.add_slot_with_shift fuel start end_ data self =
    (CalendarBase.set_slots self
       (SortedDict.setitem (CalendarBase._slots self) t
          (t + (end_ - start), data)),
     Ret (t, t + (end_ - start))) /\
    start <= t /\
    conflictb (CalendarBase._slots self) t (t + (end_ - start)) = false /\
    (forall u, start <= u < t ->
       conflictb (CalendarBase._slots self) u (u + (end_ - start)) = true)) \/
  (CalendarBase.add_slot_with_shift fuel start end_ data self
   = (self, OutOfFuel) /\
   (fuel <= ends_after (CalendarBase._slots self) start)%nat).
Proof.
  intros Ho Hlt.
  assert (Hrun : CalendarBase.add_slot_with_shift fuel start end_ data self =
    match CalendarBase.find_loop fuel (end_ - start) start self with
    | (s', Ret t) =>
        (CalendarBase.set_slots s'
           (SortedDict.setitem (CalendarBase._slots s') t
              (t + (end_ - start), data)),
         Ret (t, t + (end_ - start)))
    | (s', Raise e) => (s', Raise e)
    | (s', OutOfFuel) => (s', OutOfFuel)
    end).
  { unfold CalendarBase.add_slot_with_shift.
    rewrite Z.geb_leb. destruct (Z.leb_spec end_ start); [lia |].
    cbv zeta. unfold CalendarBase._find_available_slot. unfold bind at 1.
    destruct (CalendarBase.find_loop fuel (end_ - start) start self)
      as [s' [t | e |]]; reflexivity. }
  rewrite Hrun.
  destruct (find_loop_total fuel self (end_ - start) start) as [[t Ht] | Ht];
    rewrite Ht.
  - left. exists t. split; [reflexivity |].
    eapply find_loop_sound in Ht; [| assumption | lia]. tauto.
  - right. split; [reflexivity |].
    destruct (Nat.lt_ge_cases (ends_after (CalendarBase._slots self) start) fuel)
      as [Hfuel | Hfuel]; [| assumption].
    destruct (find_loop_spec fuel self (end_ - start) start Ho)
      as (t & Ht' & _); [lia | assumption | congruence].
Qed.

(** Whatever the outcome, an operation leaves an ordered store ordered
    and adds at most one interval. *)
Lemma add_slot_keeps self start end_ (data : D) :
  ordered (CalendarBase._slots self) ->
  let r := CalendarBase.add_slot start end_ data self in
  ordered (CalendarBase._slots (state_of r)) /\
  (length (CalendarBase._slots (state_of r))
   <= S (length (CalendarBase._slots self)))%nat /\
  outcome_of r <> OutOfFuel.
Proof.
  intros Ho r. subst r.
  destruct (Z.lt_ge_cases start end_) as [Hlt | Hge].
  - rewrite (add_slot_ordered self start end_ data Ho Hlt).
    destruct (conflictb (CalendarBase._slots self) start end_) eqn:Hc.
    + simpl. split; [assumption |]. split; [lia | discriminate].
    + simpl. rewrite conflictb_false in Hc.
      destruct (setitem_fresh _ start end_ data Ho Hlt Hc) as [Ho' Hp].
      split; [assumption |]. split; [| discriminate].
      apply Permutation_length in Hp. simpl in Hp. lia.
  - rewrite add_slot_invalid by lia. simpl.
    split; [assumption |]. split; [lia | discriminate].
Qed.

Lemma add_slot_with_shift_keeps fuel self start end_ (data : D) :
  ordered (CalendarBase._slots self) ->
  let r := CalendarBase.add_slot_with_shift fuel start end_ data self in
  ordered (CalendarBase._slots (state_of r)) /\
  (length (CalendarBase._slots (state_of r))
   <= S (length (CalendarBase._slots self)))%nat /\
  ((length (CalendarBase._slots self) < fuel)%nat ->
   outcome_of r <> OutOfFuel).
Proof.
  intros Ho r. subst r.
  destruct (Z.lt_ge_cases start end_) as [Hlt | Hge].
  - destruct (add_slot_with_shift_cases fuel self start end_ data Ho Hlt)
      as [(t & -> & Hle & Hfree & _) | [-> Hfuel]].
    + simpl. rewrite conflictb_false in Hfree.
      destruct (setitem_fresh _ t (t + (end_ - start)) data Ho) as [Ho' Hp];
        [lia | assumption |].
      split; [assumption |]. split; [| discriminate].
      apply Permutation_length in Hp. simpl in Hp. lia.
    + simpl. split; [assumption |]. split; [lia |].
      pose proof (ends_after_le_length (CalendarBase._slots self) start).
      intros; lia.
  - rewrite add_slot_with_shift_invalid by lia. simpl.
    split; [assumption |]. split; [lia |]. discriminate.
Qed.

Lemma remove_slot_keeps self start :
  ordered (CalendarBase._slots self) ->
  let r := CalendarBase.remove_slot start self in
  ordered (CalendarBase._slots (state_of r)) /\
  (length (CalendarBase._slots (state_of r))
   <= S (length (CalendarBase._slots self)))%nat /\
  outcome_of r <> OutOfFuel.
Proof.
  intros Ho r. subst r. unfold CalendarBase.remove_slot. run_m.
  destruct (delitem_cases (CalendarBase._slots self) start)
    as [(s' & -> & _ & Hlen & Hord) | ->]; simpl.
  - split; [now apply Hord |]. split; [lia | discriminate].
  - split; [assumption |]. split; [lia | discriminate].
Qed.
End StoreOperations.

(** ** Point lookup and neighbour navigation *)

Section Queries.
Context {D : Type}.
Implicit Types (self : CalendarBase.t D) (s l : SortedDict.t (Z * D)).

Lemma keys_sorted_app l1 l2 :
  keys_sorted (l1 ++ l2) ->
  forall x y, In x l1 -> In y l2 -> fst x < fst y.
Proof.
  unfold keys_sorted. induction l1 as [| a l1 IH]; simpl; intros Hs x y Hx Hy;
    [destruct Hx |].
  apply StronglySorted_inv in Hs as [Hs Ha].
  destruct Hx as [<- | Hx]; [| now apply IH].
  rewrite Forall_map, Forall_forall in Ha.
  apply Ha, in_or_app. now right.
Qed.

(** [get_slot_at] on an ordered store: the interval that contains [time]
    when there is one, which is then the only one, and [None] when no
    stored interval contains [time]; [self] is left as it was. *)
Lemma get_slot_at_spec self time :
  ordered (CalendarBase._slots self) ->
  exists r,
    CalendarBase.get_slot_at time self = (self, Ret r) /\
    match r with
    | Some (a, b, d) =>
        In (a, (b, d)) (CalendarBase._slots self) /\ a <= time < b /\
        (forall x, In x (CalendarBase._slots self) ->
                   slot_start x <= time < slot_end x -> x = (a, (b, d)))
    | None =>
        forall x, In x (CalendarBase._slots self) ->
                  ~ (slot_start x <= time < slot_end x)
    end.
Proof.
  intros Ho.
  destruct (bisect_right_split (CalendarBase._slots self) time
              (ordered_keys_sorted _ Ho)) as (l1 & l2 & Hs & Hb & H1 & H2).
  rewrite Forall_forall in H1, H2.
  unfold CalendarBase.get_slot_at. run_m. rewrite Hb.
  destruct (snoc_cases l1) as [-> | (l' & [kp [ep dp]] & ->)].
  - rewrite len_nil. simpl. exists None. split; [reflexivity |].
    intros x Hx. rewrite Hs in Hx. simpl in Hx. specialize (H2 x Hx).
    unfold slot_start. lia.
  - rewrite len_snoc. pose proof (len_nonneg l') as Hl'.
    replace (SortedDict.len l' + 1 - 1) with (SortedDict.len l') by lia.
    rewrite Z.geb_leb. destruct (Z.leb_spec 0 (SortedDict.len l')); [| lia].
    assert (Hs' : CalendarBase._slots self = l' ++ (kp, (ep, dp)) :: l2)
      by (rewrite Hs, <- app_assoc; reflexivity).
    assert (Hpeek : SortedDict.peekitem (CalendarBase._slots self)
                      (SortedDict.len l') = Ret (kp, (ep, dp)))
      by (rewrite Hs'; apply peekitem_at).
    rewrite Hpeek.
    assert (Hp : In (kp, (ep, dp)) (CalendarBase._slots self))
      by (rewrite Hs'; apply in_or_app; right; now left).
    assert (Hkp : kp <= time).
    { apply (H1 (kp, (ep, dp))). apply in_or_app. right. now left. }
    assert (Hother : forall x, In x (CalendarBase._slots self) ->
              slot_start x <= time < slot_end x -> x = (kp, (ep, dp))).
    { intros x Hx Hin. rewrite Hs' in Hx, Ho.
      apply in_app_or in Hx as [Hx | [<- | Hx]]; [| reflexivity |].
      - destruct (ordered_app _ _ Ho) as (_ & _ & H12).
        specialize (H12 x (kp, (ep, dp)) Hx (or_introl eq_refl)).
        unfold precedes, slot_start in H12. simpl in H12. lia.
      - specialize (H2 x Hx). unfold slot_start in Hin. lia. }
    destruct (Z.leb_spec kp time); [| lia].
    destruct (Z.ltb_spec time ep); simpl.
    + exists (Some (kp, ep, dp)). split; [reflexivity |]. auto with zarith.
    + exists None. split; [reflexivity |].
      intros x Hx Hin. specialize (Hother x Hx Hin). subst x.
      unfold slot_end in Hin. simpl in Hin. lia.
Qed.

(** [left_slot] on a sorted store: the interval with the greatest start
    below [x]. *)
Lemma left_slot_spec self x :
  keys_sorted (CalendarBase._slots self) ->
  exists r,
    CalendarBase.left_slot x self = (self, Ret r) /\
    match r with
    | Some (a, b, d) =>
        In (a, (b, d)) (CalendarBase._slots self) /\ a < x /\
        (forall y, In y (CalendarBase._slots self) ->
                   slot_start y < x -> slot_start y <= a)
    | None =>
        forall y, In y (CalendarBase._slots self) -> ~ slot_start y < x
    end.
Proof.
  intros Hk.
  destruct (bisect_left_split (CalendarBase._slots self) x Hk)
    as (l1 & l2 & Hs & Hb & H1 & H2).
  rewrite Forall_forall in H1, H2.
  unfold CalendarBase.left_slot. run_m. rewrite Hb.
  destruct (snoc_cases l1) as [-> | (l' & [kp [ep dp]] & ->)].
  - rewrite len_nil. simpl. exists None. split; [reflexivity |].
    intros y Hy. rewrite Hs in Hy. simpl in Hy. specialize (H2 y Hy).
    unfold slot_start. lia.
  - rewrite len_snoc. pose proof (len_nonneg l') as Hl'.
    replace (SortedDict.len l' + 1 - 1) with (SortedDict.len l') by lia.
    rewrite Z.geb_leb. destruct (Z.leb_spec 0 (SortedDict.len l')); [| lia].
    assert (Hs' : CalendarBase._slots self = l' ++ (kp, (ep, dp)) :: l2)
      by (rewrite Hs, <- app_assoc; reflexivity).
    assert (Hpeek : SortedDict.peekitem (CalendarBase._slots self)
                      (SortedDict.len l') = Ret (kp, (ep, dp)))
      by (rewrite Hs'; apply peekitem_at).
    rewrite Hpeek. exists (Some (kp, ep, dp)). split; [reflexivity |].
    split; [rewrite Hs'; apply in_or_app; right; now left |].
    split; [apply (H1 (kp, (ep, dp))), in_or_app; right; now left |].
    intros y Hy Hlt. rewrite Hs' in Hy, Hk.
    apply in_app_or in Hy as [Hy | [<- | Hy]].
    + pose proof (keys_sorted_app _ _ Hk y (kp, (ep, dp)) Hy (or_introl eq_refl)).
      unfold slot_start. simpl in *. lia.
    + unfold slot_start. simpl. lia.
    + specialize (H2 y Hy). unfold slot_start in Hlt. lia.
Qed.

(** [right_slot] on a sorted store: the interval with the smallest start
    above [x]. *)
Lemma right_slot_spec self x :
  keys_sorted (CalendarBase._slots self) ->
  exists r,
    CalendarBase.right_slot x self = (self, Ret r) /\
    match r with
    | Some (a, b, d) =>
        In (a, (b, d)) (CalendarBase._slots self) /\ x < a /\
        (forall y, In y (CalendarBase._slots self) ->
                   x < slot_start y -> a <= slot_start y)
    | None =>
        forall y, In y (CalendarBase._slots self) -> ~ x < slot_start y
    end.
Proof.
  intros Hk.
  destruct (bisect_right_split (CalendarBase._slots self) x Hk)
    as (l1 & l2 & Hs & Hb & H1 & H2).
  rewrite Forall_forall in H1, H2.
  unfold CalendarBase.right_slot. run_m. rewrite Hb.
  assert (Hlen : SortedDict.len (CalendarBase._slots self)
                 = SortedDict.len l1 + SortedDict.len l2)
    by (rewrite Hs; apply len_app).
  rewrite Hlen.
  destruct l2 as [| [kn [en dn]] l2'].
  - rewrite len_nil, Z.add_0_r, Z.ltb_irrefl. exists None.
    split; [reflexivity |].
    intros y Hy. rewrite Hs, app_nil_r in Hy. specialize (H1 y Hy).
    unfold slot_start. lia.
  - rewrite len_cons. pose proof (len_nonneg l2').
    destruct (Z.ltb_spec (SortedDict.len l1)
                (SortedDict.len l1 + (1 + SortedDict.len l2'))); [| lia].
    assert (Hpeek : SortedDict.peekitem (CalendarBase._slots self)
                      (SortedDict.len l1) = Ret (kn, (en, dn)))
      by (rewrite Hs; apply peekitem_at).
    rewrite Hpeek. exists (Some (kn, en, dn)). split; [reflexivity |].
    split; [rewrite Hs; apply in_or_app; right; now left |].
    split; [apply (H2 (kn, (en, dn))); now left |].
    intros y Hy Hlt. rewrite Hs in Hy, Hk.
    apply in_app_or in Hy as [Hy | [<- | Hy]].
    + specialize (H1 y Hy). unfold slot_start in Hlt. lia.
    + unfold slot_start. simpl. lia.
    + change (l1 ++ (kn, (en, dn)) :: l2')
        with (l1 ++ [(kn, (en, dn))] ++ l2') in Hk.
      rewrite app_assoc in Hk.
      assert (Hn : In (kn, (en, dn)) (l1 ++ [(kn, (en, dn))]))
        by (apply in_or_app; right; now left).
      pose proof (keys_sorted_app _ _ Hk (kn, (en, dn)) y Hn Hy).
      unfold slot_start. simpl in *. lia.
Qed.
End Queries.

(** * The interval store: conflict-checked and shifting insertion *)

Section StoreClaims.
Context {D : Type}.
Implicit Types (self : CalendarBase.t D).

Lemma bind_ret_run {S A B : Type} (m : M S A) (f : A -> B) (s : S) :
  state_of ((x <- m ;; ret (f x)) s) = state_of (m s) /\
  (outcome_of ((x <- m ;; ret (f x)) s) = OutOfFuel ->
   outcome_of (m s) = OutOfFuel).
Proof.
  unfold bind, ret, state_of, outcome_of.
  destruct (m s) as [s' [a | e |]]; simpl; split; congruence.
Qed.

Lemma run_op_keeps fuel (o : op D) self :
  ordered (CalendarBase._slots self) ->
  let r := run_op fuel o self in
  ordered (CalendarBase._slots (state_of r)) /\
  (length (CalendarBase._slots (state_of r))
   <= S (length (CalendarBase._slots self)))%nat /\
  ((length (CalendarBase._slots self) < fuel)%nat ->
   outcome_of r <> OutOfFuel).
Proof.
  intros Ho r. subst r. destruct o as [a b d | a b d | a]; unfold run_op.
  - destruct (bind_ret_run (CalendarBase.add_slot a b d) Added self) as [-> Hout].
    destruct (add_slot_keeps self a b d Ho) as (H1 & H2 & H3).
    split; [assumption |]. split; [assumption |]. intros _ H. auto.
  - destruct (bind_ret_run (CalendarBase.add_slot_with_shift fuel a b d)
                Placed self) as [-> Hout].
    destruct (add_slot_with_shift_keeps fuel self a b d Ho) as (H1 & H2 & H3).
    split; [assumption |]. split; [assumption |]. intros Hf H.
    now apply H3; [| apply Hout].
  - destruct (bind_ret_run (CalendarBase.remove_slot a) Removed self)
      as [-> Hout].
    destruct (remove_slot_keeps self a Ho) as (H1 & H2 & H3).
    split; [assumption |]. split; [assumption |]. intros _ H. auto.
Qed.

Lemma run_ops_keeps fuel (ops : list (op D)) : forall self,
  ordered (CalendarBase._slots self) ->
  (length (CalendarBase._slots self) + length ops <= fuel)%nat ->
  ordered (CalendarBase._slots (fst (run_ops fuel ops self))) /\
  Forall (fun o => o <> OutOfFuel) (snd (run_ops fuel ops self)).
Proof.
  induction ops as [| o ops IH]; intros self Ho Hfuel; simpl.
  - split; [assumption | constructor].
  - simpl in Hfuel.
    destruct (run_op_keeps fuel o self Ho) as (H1 & H2 & H3).
    unfold state_of, outcome_of in H1, H2, H3.
    destruct (run_op fuel o self) as [self' r]. simpl in H1, H2, H3.
    destruct (IH self' H1) as [H4 H5]; [lia |].
    destruct (run_ops fuel ops self') as [self'' rs]. simpl in *.
    split; [assumption |]. constructor; [apply H3; lia | assumption].
Qed.

Lemma find_jumps_bound fuel : forall self d t,
  ordered (CalendarBase._slots self) -> 0 < d ->
  (length (find_jumps fuel d t self)
   <= ends_after (CalendarBase._slots self) t)%nat.
Proof.
  induction fuel as [| fuel IH]; intros self d t Ho Hd; simpl; [lia |].
  destruct (find_body_spec self d t Ho Hd)
    as [[_ ->] | (t' & -> & Hlt & (x & Hx & He) & _)]; simpl; [lia |].
  pose proof (ends_after_decreases _ t t' x Hlt Hx He).
  specialize (IH self d t' Ho Hd). lia.
Qed.
End StoreClaims.

Section StoreTheorems.

Lemma three_slots_inv : store_inv (CalendarBase._slots three_slots).
Proof.
  apply store_inv_ordered. unfold three_slots, ordered, well_formed. simpl.
  split; repeat constructor; unfold precedes, slot_start, slot_end; simpl; lia.
Qed.

Lemma one_slot_inv : store_inv (CalendarBase._slots one_slot).
Proof.
  apply store_inv_ordered. unfold one_slot, ordered, well_formed. simpl.
  split; repeat constructor; unfold precedes, slot_start, slot_end; simpl; lia.
Qed.

(** C1.  On a store that satisfies the invariant, and for [start < end],
    [add_slot_with_shift] (given more fuel than there are stored
    intervals) returns [(t, t + duration)] with [duration = end - start],
    where [t] is the least integer at or after [start] such that
    [[t, t + duration)] overlaps no stored interval; the store afterwards
    holds exactly the old intervals and [[t, t + duration)], and satisfies
    the invariant.  With [(10,15)], [(20,25)], [(30,35)] stored,
    [add_slot_with_shift(12, 32)] returns [(35, 55)]. *)
Theorem add_slot_with_shift_least_free :
  (forall (D : Type) (self : CalendarBase.t D) (fuel : nat)
          (start end_ : Z) (data : D),
      store_inv (CalendarBase._slots self) ->
      start < end_ ->
      (length (CalendarBase._slots self) < fuel)%nat ->
      exists t,
        let duration := end_ - start in
        let slots' := SortedDict.setitem (CalendarBase._slots self) t
                        (t + duration, data) in
        CalendarBase.add_slot_with_shift fuel start end_ data self
        = (CalendarBase.set_slots self slots', Ret (t, t + duration)) /\
        start <= t /\
        free_at (CalendarBase._slots self) duration t /\
        (forall u, start <= u ->
                   free_at (CalendarBase._slots self) duration u -> t <= u) /\
        Permutation ((t, (t + duration, data)) :: CalendarBase._slots self)
                    slots' /\
        store_inv slots') /\
  CalendarBase.add_slot_with_shift 4 12 32 "x"%string three_slots
  = (CalendarBase.mk "alice"
       [(10, (15, "a"%string)); (20, (25, "b"%string));
        (30, (35, "c"%string)); (35, (55, "x"%string))],
     Ret (35, 55)).
Proof.
  split; [| reflexivity].
  intros D self fuel start end_ data Hinv Hlt Hfuel.
  apply store_inv_ordered in Hinv.
  pose proof (ends_after_le_length (CalendarBase._slots self) start).
  destruct (add_slot_with_shift_cases fuel self start end_ data Hinv Hlt)
    as [(t & Hrun & Hle & Hfree & Hmin) | [_ Hout]]; [| lia].
  exists t. cbv zeta. split; [assumption |]. split; [assumption |].
  rewrite conflictb_free in Hfree. split; [assumption |].
  split.
  - intros u Hu Hfu. destruct (Z.le_gt_cases t u) as [| Hgt]; [assumption |].
    rewrite <- conflictb_free in Hfu. rewrite Hmin in Hfu by lia. discriminate.
  - destruct (setitem_fresh (CalendarBase._slots self) t
                (t + (end_ - start)) data Hinv) as [Ho Hp];
      [lia | exact Hfree |].
    split; [assumption | now apply store_inv_ordered].
Qed.

Lemma add_slot_with_shift_least_free_witness :
  store_inv (CalendarBase._slots three_slots) /\ 12 < 32 /\
  (length (CalendarBase._slots three_slots) < 4)%nat /\
  exists t,
    CalendarBase.add_slot_with_shift 4 12 32 "x"%string three_slots
    = (CalendarBase.set_slots three_slots
         (SortedDict.setitem (CalendarBase._slots three_slots) t
            (t + (32 - 12), "x"%string)),
       Ret (t, t + (32 - 12))) /\
    12 <= t.
Proof.
  split; [exact three_slots_inv |]. split; [lia |]. split; [simpl; lia |].
  destruct (proj1 add_slot_with_shift_least_free string three_slots 4%nat
              12 32 "x"%string three_slots_inv)
    as (t & Hrun & Hle & _); [lia | simpl; lia |].
  exists t. split; assumption.
Defined.
End StoreTheorems.


(** * The interval store: invariant and termination *)

Section StoreInvariantTheorems.

Lemma get_all_slots_starts {D : Type} (self : CalendarBase.t D) :
  exists slots,
    CalendarBase.get_all_slots self = (self, Ret slots) /\
    map (fun x => fst (fst x)) slots = map fst (CalendarBase._slots self).
Proof.
  eexists. split; [reflexivity |].
  unfold SortedDict.items. rewrite map_map.
  apply map_ext. now intros [k [e d]].
Qed.

Lemma sorted_lt_le (l : list Z) : StronglySorted Z.lt l -> StronglySorted Z.le l.
Proof.
  induction 1 as [| a l Hs IH Ha]; constructor; [assumption |].
  eapply Forall_impl; [| exact Ha]. simpl. intros; lia.
Qed.

(** C2.  Start from an empty store and let a caller perform any finite
    sequence of [add_slot], [add_slot_with_shift] and [remove_slot] calls
    (with any arguments, also ones that raise), the loop being given at
    least as much fuel as there are calls.  Then every call returns or
    raises, none runs out of fuel, no two distinct intervals of the
    resulting store overlap, and [get_all_slots()] is non-decreasing by
    start. *)
Theorem store_invariant_preserved :
  forall (D : Type) (rid : string) (ops : list (op D)) (extra : nat),
    let r := run_ops (length ops + extra) ops (CalendarBase.init rid) in
    non_overlapping (CalendarBase._slots (fst r)) /\
    (exists slots,
        CalendarBase.get_all_slots (fst r) = (fst r, Ret slots) /\
        StronglySorted Z.le (map (fun x => fst (fst x)) slots)) /\
    Forall (fun o => o <> OutOfFuel) (snd r).
Proof.
  intros D rid ops extra r. subst r.
  destruct (run_ops_keeps (length ops + extra) ops (CalendarBase.init rid))
    as [Ho Hout]; [apply ordered_nil | simpl; lia |].
  apply store_inv_ordered in Ho. destruct Ho as (Hk & _ & Hn).
  split; [assumption |]. split; [| assumption].
  destruct (get_all_slots_starts
              (fst (run_ops (length ops + extra) ops (CalendarBase.init rid))))
    as (slots & Hrun & Hstarts).
  exists slots. split; [assumption |].
  rewrite Hstarts. now apply sorted_lt_le.
Qed.

(** C3.  On a store that satisfies the invariant, and for [start < end],
    the search loop of [add_slot_with_shift] terminates.  Every pass leaves
    the store as it was and either returns the candidate or moves it
    strictly forward to the end of a stored interval; the passes that move
    the candidate are at most as many as the stored intervals, so the loop
    returns within that many passes and the one that returns. *)
Theorem find_available_slot_terminates :
  forall (D : Type) (self : CalendarBase.t D) (start end_ : Z),
    store_inv (CalendarBase._slots self) ->
    start < end_ ->
    let duration := end_ - start in
    (forall t, exists r,
        CalendarBase.find_body duration t self = (self, Ret r) /\
        match r with
        | inl t' => t < t' /\
                    exists x, In x (CalendarBase._slots self) /\ slot_end x = t'
        | inr t' => t' = t
        end) /\
    (forall fuel,
        (length (find_jumps fuel duration start self)
         <= length (CalendarBase._slots self))%nat) /\
    (forall fuel,
        (length (CalendarBase._slots self) < fuel)%nat ->
        exists t,
          CalendarBase._find_available_slot fuel start duration self
          = (self, Ret t)).
Proof.
  intros D self start end_ Hinv Hlt duration.
  apply store_inv_ordered in Hinv.
  assert (Hd : 0 < duration) by (unfold duration; lia).
  split; [| split].
  - intros t.
    destruct (find_body_spec self duration t Hinv Hd)
      as [[_ Hb] | (t' & Hb & Hadv & Hx & _)].
    + exists (inr t). split; [assumption | reflexivity].
    + exists (inl t'). split; [assumption |]. split; assumption.
  - intros fuel.
    pose proof (find_jumps_bound fuel self duration start Hinv Hd).
    pose proof (ends_after_le_length (CalendarBase._slots self) start). lia.
  - intros fuel Hfuel. unfold CalendarBase._find_available_slot.
    pose proof (ends_after_le_length (CalendarBase._slots self) start).
    destruct (find_loop_spec fuel self duration start Hinv Hd) as (t & Ht & _);
      [lia |].
    exists t. assumption.
Qed.

Lemma find_available_slot_terminates_witness :
  store_inv (CalendarBase._slots three_slots) /\ 12 < 32 /\
  exists t,
    CalendarBase._find_available_slot 4 12 (32 - 12) three_slots
    = (three_slots, Ret t).
Proof.
  split; [exact three_slots_inv |]. split; [lia |].
  apply (find_available_slot_terminates string three_slots 12 32
           three_slots_inv); [lia | simpl; lia].
Defined.
End StoreInvariantTheorems.

(** * The interval store: insertion, validation and queries *)

Section StoreOperationTheorems.

(** C4.  On a store that satisfies the invariant, and for [start < end],
    [add_slot] returns [False] and leaves the store unchanged exactly when
    [[start, end)] overlaps a stored interval; otherwise it returns [True]
    and the store holds the old intervals and [[start, end)], and still
    satisfies the invariant.  Touching intervals do not conflict: after
    [add_slot(10, 12, a)], [add_slot(12, 15, b)] succeeds, while
    [add_slot] of [(9,11)], [(11,13)], [(10,12)], [(9,13)] and [(10,11)]
    on a store that holds [(10,12)] returns [False] and changes nothing. *)
Theorem add_slot_conflict_checked :
  (forall (D : Type) (self : CalendarBase.t D) (start end_ : Z) (data : D),
      store_inv (CalendarBase._slots self) ->
      start < end_ ->
      let r := CalendarBase.add_slot start end_ data self in
      let hit := exists x, In x (CalendarBase._slots self) /\
                           overlaps start end_ x in
      let slots' := SortedDict.setitem (CalendarBase._slots self) start
                      (end_, data) in
      (r = (self, Ret false) <-> hit) /\
      (~ hit ->
       r = (CalendarBase.set_slots self slots', Ret true) /\
       Permutation ((start, (end_, data)) :: CalendarBase._slots self) slots' /\
       store_inv slots')) /\
  CalendarBase.add_slot 10 12 "a"%string (CalendarBase.init "alice")
  = (one_slot, Ret true) /\
  CalendarBase.add_slot 12 15 "b"%string one_slot
  = (CalendarBase.mk "alice" [(10, (12, "a"%string)); (12, (15, "b"%string))],
     Ret true) /\
  Forall (fun range =>
            CalendarBase.add_slot (fst range) (snd range) "c"%string one_slot
            = (one_slot, Ret false))
         [(9, 11); (11, 13); (10, 12); (9, 13); (10, 11)].
Proof.
  split; [| split; [reflexivity | split; [reflexivity |]]].
  - intros D self start end_ data Hinv Hlt r hit slots'.
    apply store_inv_ordered in Hinv. subst r hit slots'.
    rewrite (add_slot_ordered self start end_ data Hinv Hlt).
    rewrite <- conflictb_true.
    destruct (conflictb (CalendarBase._slots self) start end_) eqn:Hc.
    + split; [tauto |]. intros Hn. now elim Hn.
    + split; [split; [intros H; inversion H | discriminate] |].
      intros _. rewrite conflictb_false in Hc.
      destruct (setitem_fresh _ start end_ data Hinv Hlt Hc) as [Ho Hp].
      split; [reflexivity |]. split; [assumption | now apply store_inv_ordered].
  - repeat constructor.
Qed.

Lemma add_slot_conflict_checked_witness :
  store_inv (CalendarBase._slots one_slot) /\ 11 < 13 /\
  (CalendarBase.add_slot 11 13 "c"%string one_slot = (one_slot, Ret false) <->
   exists x, In x (CalendarBase._slots one_slot) /\ overlaps 11 13 x).
Proof.
  split; [exact one_slot_inv |]. split; [lia |].
  apply (proj1 add_slot_conflict_checked string one_slot 11 13 "c"%string
           one_slot_inv).
  lia.
Defined.

(** C5.  Whatever the store, and for all integers [start >= end], both
    [add_slot] and [add_slot_with_shift] raise [ValueError] (the invalid
    range condition) instead of returning a value, and leave the store
    unchanged; for [start < end] neither of them raises. *)
Theorem invalid_range_raises :
  forall (D : Type) (self : CalendarBase.t D) (start end_ : Z) (data : D),
    (start >= end_ ->
     CalendarBase.add_slot start end_ data self = (self, Raise ValueError) /\
     forall fuel,
       CalendarBase.add_slot_with_shift fuel start end_ data self
       = (self, Raise ValueError)) /\
    (start < end_ ->
     (forall e, outcome_of (CalendarBase.add_slot start end_ data self)
                <> Raise e) /\
     forall fuel e,
       outcome_of (CalendarBase.add_slot_with_shift fuel start end_ data self)
       <> Raise e).
Proof.
  intros D self start end_ data. split.
  - intros Hge. split; [now apply add_slot_invalid |].
    intros fuel. now apply add_slot_with_shift_invalid.
  - intros Hlt. split.
    + intros e. destruct (add_slot_total self start end_ data Hlt)
        as (self' & b & -> & _). discriminate.
    + intros fuel e. unfold CalendarBase.add_slot_with_shift.
      rewrite Z.geb_leb. destruct (Z.leb_spec end_ start); [lia |].
      cbv zeta. unfold CalendarBase._find_available_slot. unfold bind at 1.
      destruct (find_loop_total fuel self (end_ - start) start)
        as [[t ->] | ->]; discriminate.
Qed.

Lemma invalid_range_raises_witness :
  10 >= 10 /\
  CalendarBase.add_slot 10 10 "x"%string one_slot
  = (one_slot, Raise ValueError) /\
  10 < 12 /\
  outcome_of (CalendarBase.add_slot 10 12 "x"%string one_slot)
  <> Raise ValueError.
Proof.
  split; [lia |]. split.
  - apply (proj1 (invalid_range_raises string one_slot 10 10 "x"%string)). lia.
  - split; [lia |].
    apply (proj2 (invalid_range_raises string one_slot 10 12 "x"%string)). lia.
Defined.

(** C6.  On a store that satisfies the invariant, [get_slot_at(time)]
    leaves the store unchanged and returns the stored interval [[s, e)]
    with [s <= time < e] when there is one (it is then the only one), and
    [None] when there is none.  The end is excluded: after
    [add_slot(10, 15, x)], [get_slot_at(9)] and [get_slot_at(15)] are
    [None], [get_slot_at(10)] and [get_slot_at(14)] are [(10, 15, x)]. *)
Theorem get_slot_at_half_open :
  (forall (D : Type) (self : CalendarBase.t D) (time : Z),
      store_inv (CalendarBase._slots self) ->
      exists r,
        CalendarBase.get_slot_at time self = (self, Ret r) /\
        match r with
        | Some (s, e, d) =>
            In (s, (e, d)) (CalendarBase._slots self) /\ s <= time < e /\
            (forall x, In x (CalendarBase._slots self) ->
                       slot_start x <= time < slot_end x -> x = (s, (e, d)))
        | None =>
            forall x, In x (CalendarBase._slots self) ->
                      ~ (slot_start x <= time < slot_end x)
        end) /\
  (let self := state_of (CalendarBase.add_slot 10 15 "x"%string
                           (CalendarBase.init "alice")) in
   CalendarBase.get_slot_at 9 self = (self, Ret None) /\
   CalendarBase.get_slot_at 10 self = (self, Ret (Some (10, 15, "x"%string))) /\
   CalendarBase.get_slot_at 14 self = (self, Ret (Some (10, 15, "x"%string))) /\
   CalendarBase.get_slot_at 15 self = (self, Ret None)).
Proof.
  split; [| repeat split].
  intros D self time Hinv. apply store_inv_ordered in Hinv.
  now apply get_slot_at_spec.
Qed.

Lemma get_slot_at_half_open_witness :
  store_inv (CalendarBase._slots three_slots) /\
  exists r, CalendarBase.get_slot_at 22 three_slots = (three_slots, Ret r).
Proof.
  split; [exact three_slots_inv |].
  destruct (proj1 get_slot_at_half_open string three_slots 22 three_slots_inv)
    as (r & Hr & _).
  exists r. exact Hr.
Defined.

(** C7.  On every store (its keys in ascending order, as [SortedDict]
    keeps them), [left_slot(x)] returns the stored interval with the
    greatest start strictly below [x], and [None] when no start is below
    [x]; [right_slot(x)] returns the stored interval with the smallest
    start strictly above [x], and [None] when no start is above [x].  An
    interval that starts at [x] is returned by neither, and both leave the
    store as it was. *)
Theorem left_right_slot_strict :
  forall (D : Type) (self : CalendarBase.t D) (x : Z),
    keys_sorted (CalendarBase._slots self) ->
    (exists r,
        CalendarBase.left_slot x self = (self, Ret r) /\
        match r with
        | Some (s, e, d) =>
            In (s, (e, d)) (CalendarBase._slots self) /\ s < x /\
            (forall y, In y (CalendarBase._slots self) ->
                       slot_start y < x -> slot_start y <= s)
        | None =>
            forall y, In y (CalendarBase._slots self) -> ~ slot_start y < x
        end) /\
    (exists r,
        CalendarBase.right_slot x self = (self, Ret r) /\
        match r with
        | Some (s, e, d) =>
            In (s, (e, d)) (CalendarBase._slots self) /\ x < s /\
            (forall y, In y (CalendarBase._slots self) ->
                       x < slot_start y -> s <= slot_start y)
        | None =>
            forall y, In y (CalendarBase._slots self) -> ~ x < slot_start y
        end).
Proof.
  intros D self x Hk. split;
    [now apply left_slot_spec | now apply right_slot_spec].
Qed.

Lemma left_right_slot_strict_witness :
  keys_sorted (CalendarBase._slots three_slots) /\
  (exists r, CalendarBase.left_slot 20 three_slots = (three_slots, Ret r)) /\
  (exists r, CalendarBase.right_slot 20 three_slots = (three_slots, Ret r)).
Proof.
  split; [exact (proj1 three_slots_inv) |].
  destruct (left_right_slot_strict string three_slots 20 (proj1 three_slots_inv))
    as [(l & Hl & _) (r & Hr & _)].
  split; [exists l | exists r]; assumption.
Defined.
End StoreOperationTheorems.

(** * Dicts, resource groups and the registry *)

Section PyDictFacts.
Context {K V : Type} (K_eq_dec : forall a b : K, {a = b} + {a <> b}).
Implicit Types (d : PyDict.t K V) (k : K) (v : V).

Lemma get_setitem_same d k v :
  PyDict.get_ K_eq_dec (PyDict.setitem K_eq_dec d k v) k = Some v.
Proof.
  induction d as [| [k' v'] r IH]; simpl.
  - destruct (K_eq_dec k k); congruence.
  - destruct (K_eq_dec k k') as [E | Hne]; simpl;
      destruct (K_eq_dec _ _); congruence.
Qed.

Lemma get_setitem_other d k k' v :
  k' <> k ->
  PyDict.get_ K_eq_dec (PyDict.setitem K_eq_dec d k v) k'
  = PyDict.get_ K_eq_dec d k'.
Proof.
  intros Hne. induction d as [| [k0 v0] r IH]; simpl.
  - destruct (K_eq_dec k' k); congruence.
  - destruct (K_eq_dec k k0) as [E | Hk]; simpl;
      repeat (destruct (K_eq_dec _ _); simpl); congruence.
Qed.

Lemma setitem_same d k v :
  PyDict.get_ K_eq_dec d k = Some v -> PyDict.setitem K_eq_dec d k v = d.
Proof.
  induction d as [| [k' v'] r IH]; simpl; [discriminate |].
  destruct (K_eq_dec k k') as [E | Hne]; intros H.
  - congruence.
  - now rewrite IH.
Qed.

Lemma setitem_setitem d k v v' :
  PyDict.setitem K_eq_dec (PyDict.setitem K_eq_dec d k v) k v'
  = PyDict.setitem K_eq_dec d k v'.
Proof.
  induction d as [| [k0 v0] r IH]; simpl.
  - destruct (K_eq_dec k k); congruence.
  - destruct (K_eq_dec k k0) as [E | Hne]; simpl;
      destruct (K_eq_dec _ _); congruence.
Qed.

Lemma contains_get d k :
  PyDict.contains K_eq_dec d k = true <-> PyDict.get_ K_eq_dec d k <> None.
Proof.
  unfold PyDict.contains. destruct (PyDict.get_ K_eq_dec d k); split;
    congruence.
Qed.

Lemma contains_setitem d k v :
  PyDict.contains K_eq_dec (PyDict.setitem K_eq_dec d k v) k = true.
Proof. apply contains_get. rewrite get_setitem_same. discriminate. Qed.

Lemma keys_get d k :
  In k (PyDict.keys d) -> exists v, PyDict.get_ K_eq_dec d k = Some v.
Proof.
  unfold PyDict.keys. induction d as [| [k' v'] r IH]; simpl; [intros [] |].
  intros [E | Hin]; destruct (K_eq_dec k k'); eauto; congruence.
Qed.

(** A method that leaves the stored object as it was leaves the dict as it
    was. *)
Lemma on_item_pure {A : Type} d k v (m : M V A) (r : result A) :
  PyDict.get_ K_eq_dec d k = Some v -> m v = (v, r) ->
  PyDict.on_item K_eq_dec k m d = (d, r).
Proof.
  intros Hget Hm. unfold PyDict.on_item, PyDict.getitem.
  rewrite Hget, Hm. now rewrite setitem_same.
Qed.

Lemma on_item_run {A : Type} d k v v' (m : M V A) (r : result A) :
  PyDict.get_ K_eq_dec d k = Some v -> m v = (v', r) ->
  PyDict.on_item K_eq_dec k m d = (PyDict.setitem K_eq_dec d k v', r).
Proof.
  intros Hget Hm. unfold PyDict.on_item, PyDict.getitem.
  now rewrite Hget, Hm.
Qed.
End PyDictFacts.

Section CalendarFacts.
Context {D : Type}.
Implicit Types (g : Calendar.t D) (c : CalendarBase.t D).

Lemma get_slot_at_total c time :
  exists r, CalendarBase.get_slot_at time c = (c, Ret r).
Proof.
  unfold CalendarBase.get_slot_at. run_m.
  pose proof (bisect_right_bounds (CalendarBase._slots c) time) as Hb.
  set (i := SortedDict.bisect_right (CalendarBase._slots c) time) in *.
  rewrite Z.geb_leb. destruct (Z.leb_spec 0 (i - 1)); [| eauto].
  destruct (peekitem_in_range (CalendarBase._slots c) (i - 1))
    as ([kp [ep dp]] & -> & _); [lia |].
  destruct ((kp <=? time) && (time <? ep)); eauto.
Qed.

Lemma calendar_eta g : Calendar.mk (Calendar._calendars g) = g.
Proof. now destruct g. Qed.

Lemma get_slots_at_loop_pure time (ids : list string) : forall g acc,
  (forall id, In id ids -> In id (PyDict.keys (Calendar._calendars g))) ->
  exists l, Calendar.get_slots_at_loop time ids acc g = (g, Ret l).
Proof.
  induction ids as [| id ids IH]; intros g acc Hin; simpl.
  - eexists. reflexivity.
  - destruct (keys_get string_dec _ id (Hin id (or_introl eq_refl))) as [c Hc].
    destruct (get_slot_at_total c time) as [r Hr].
    unfold bind at 1. unfold Calendar.on_calendars.
    rewrite (on_item_pure string_dec _ id c _ _ Hc Hr), calendar_eta.
    destruct r as [[[s e] d] |]; apply IH; intros; apply Hin; now right.
Qed.

(** [Calendar.get_slots_at] returns a list and leaves the group as it was. *)
Lemma calendar_get_slots_at_pure g time :
  exists l, Calendar.get_slots_at time g = (g, Ret l).
Proof.
  unfold Calendar.get_slots_at. unfold bind, get.
  apply get_slots_at_loop_pure. auto.
Qed.

Lemma calendar_add_resource g rid :
  exists g',
    Calendar.add_resource rid g = (g', Ret tt) /\
    PyDict.contains string_dec (Calendar._calendars g') rid = true /\
    (PyDict.contains string_dec (Calendar._calendars g) rid = false ->
     g' = Calendar.mk (PyDict.setitem string_dec (Calendar._calendars g) rid
                         (CalendarBase.init rid))).
Proof.
  unfold Calendar.add_resource. run_m.
  destruct (PyDict.contains string_dec (Calendar._calendars g) rid) eqn:Hc;
    simpl.
  - exists g. split; [reflexivity |]. split; [assumption | discriminate].
  - eexists. split; [reflexivity |]. split; [| reflexivity].
    simpl. apply contains_setitem.
Qed.

(** The first half of [Calendar.add_slot] and [Calendar.add_slot_with_shift]:
    the resource is there before the store is called. *)
Lemma calendar_ensure_resource {A : Type} g rid (m : M (CalendarBase.t D) A) :
  exists c c' r,
    PyDict.get_ string_dec
      (if PyDict.contains string_dec (Calendar._calendars g) rid
       then Calendar._calendars g
       else PyDict.setitem string_dec (Calendar._calendars g) rid
              (CalendarBase.init rid)) rid = Some c /\
    (PyDict.contains string_dec (Calendar._calendars g) rid = false ->
     c = CalendarBase.init rid) /\
    m c = (c', r) /\
    (self <- get ;;
     (if negb (PyDict.contains string_dec (Calendar._calendars self) rid)
      then Calendar.add_resource rid else ret tt) ;;;
     Calendar.on_calendars (PyDict.on_item string_dec rid m)) g
    = (Calendar.mk
         (PyDict.setitem string_dec
            (if PyDict.contains string_dec (Calendar._calendars g) rid
             then Calendar._calendars g
             else PyDict.setitem string_dec (Calendar._calendars g) rid
                    (CalendarBase.init rid)) rid c'), r).
Proof.
  destruct (PyDict.contains string_dec (Calendar._calendars g) rid) eqn:Hc;
    cbv iota.
  - pose proof (proj1 (contains_get string_dec _ _) Hc) as Hne.
    destruct (PyDict.get_ string_dec (Calendar._calendars g) rid) as [c |] eqn:Hg;
      [| congruence].
    destruct (m c) as [c' r] eqn:Hm.
    exists c, c', r. split; [reflexivity |]. split; [discriminate |].
    split; [assumption |].
    unfold bind at 1, get at 1. rewrite Hc. cbn [negb].
    unfold bind at 1, ret at 1. unfold Calendar.on_calendars.
    now rewrite (on_item_run string_dec _ rid c c' m r Hg Hm).
  - destruct (m (CalendarBase.init rid)) as [c' r] eqn:Hm.
    exists (CalendarBase.init rid), c', r.
    split; [apply get_setitem_same |]. split; [reflexivity |].
    split; [assumption |].
    unfold bind at 1, get at 1. rewrite Hc. cbn [negb].
    unfold bind at 1.
    destruct (calendar_add_resource g rid) as (g' & -> & _ & Hg').
    rewrite (Hg' Hc). unfold Calendar.on_calendars. simpl.
    now rewrite (on_item_run string_dec _ rid (CalendarBase.init rid) c' m r
                   (get_setitem_same string_dec _ _ _) Hm).
Qed.
End CalendarFacts.

Section ManagerFacts.
Context {K D : Type} (K_eq_dec : forall a b : K, {a = b} + {a <> b}).
Implicit Types (m : CalendarManager.t K D) (g : Calendar.t D).

Lemma manager_eta m : CalendarManager.mk (CalendarManager._calendars m) = m.
Proof. now destruct m. Qed.

(** The first half of the writing methods of the manager: the calendar is
    there before the group is called. *)
Lemma manager_ensure_calendar {A : Type} m key (f : M (Calendar.t D) A) :
  exists g g' r,
    PyDict.get_ K_eq_dec (with_calendar K_eq_dec m key) key = Some g /\
    (PyDict.contains K_eq_dec (CalendarManager._calendars m) key = false ->
     g = Calendar.init None) /\
    f g = (g', r) /\
    (self <- get ;;
     (if negb (PyDict.contains K_eq_dec (CalendarManager._calendars self) key)
      then CalendarManager.add_calendar K_eq_dec key None else ret tt) ;;;
     CalendarManager.on_calendars (PyDict.on_item K_eq_dec key f)) m
    = (CalendarManager.mk (PyDict.setitem K_eq_dec (with_calendar K_eq_dec m key) key g'),
       r).
Proof.
  unfold with_calendar.
  destruct (PyDict.contains K_eq_dec (CalendarManager._calendars m) key) eqn:Hc;
    cbv iota.
  - pose proof (proj1 (contains_get K_eq_dec _ _) Hc) as Hne.
    destruct (PyDict.get_ K_eq_dec (CalendarManager._calendars m) key)
      as [g |] eqn:Hg; [| congruence].
    destruct (f g) as [g' r] eqn:Hf.
    exists g, g', r. split; [reflexivity |]. split; [discriminate |].
    split; [assumption |].
    unfold bind at 1, get at 1. rewrite Hc. cbn [negb].
    unfold bind at 1, ret at 1. unfold CalendarManager.on_calendars.
    now rewrite (on_item_run K_eq_dec _ key g g' f r Hg Hf).
  - destruct (f (Calendar.init None)) as [g' r] eqn:Hf.
    exists (Calendar.init None), g', r.
    split; [apply get_setitem_same |]. split; [reflexivity |].
    split; [assumption |].
    unfold bind at 1, get at 1. rewrite Hc. cbn [negb].
    unfold bind at 1. unfold CalendarManager.add_calendar at 1.
    unfold bind at 1, get at 1, put at 1.
    unfold CalendarManager.on_calendars. cbn [CalendarManager._calendars].
    now rewrite (on_item_run K_eq_dec _ key (Calendar.init None) g' f r
                   (get_setitem_same K_eq_dec _ _ _) Hf).
Qed.

Lemma calendar_add_slot_runs g rid start end_ (data : D) :
  exists c c' r,
    PyDict.get_ string_dec (with_resource g rid) rid = Some c /\
    (PyDict.contains string_dec (Calendar._calendars g) rid = false ->
     c = CalendarBase.init rid) /\
    CalendarBase.add_slot start end_ data c = (c', r) /\
    Calendar.add_slot rid start end_ data g
    = (Calendar.mk (PyDict.setitem string_dec (with_resource g rid) rid c'), r).
Proof.
  exact (calendar_ensure_resource g rid (CalendarBase.add_slot start end_ data)).
Qed.

Lemma calendar_add_slot_with_shift_runs fuel g rid start end_ (data : D) :
  exists c c' r,
    PyDict.get_ string_dec (with_resource g rid) rid = Some c /\
    (PyDict.contains string_dec (Calendar._calendars g) rid = false ->
     c = CalendarBase.init rid) /\
    CalendarBase.add_slot_with_shift fuel start end_ data c = (c', r) /\
    Calendar.add_slot_with_shift fuel rid start end_ data g
    = (Calendar.mk (PyDict.setitem string_dec (with_resource g rid) rid c'), r).
Proof.
  exact (calendar_ensure_resource g rid
           (CalendarBase.add_slot_with_shift fuel start end_ data)).
Qed.

Lemma manager_add_slot_runs m key rid start end_ (data : D) :
  exists g g' r,
    PyDict.get_ K_eq_dec (with_calendar K_eq_dec m key) key = Some g /\
    (PyDict.contains K_eq_dec (CalendarManager._calendars m) key = false ->
     g = Calendar.init None) /\
    Calendar.add_slot rid start end_ data g = (g', r) /\
    CalendarManager.add_slot K_eq_dec key rid start end_ data m
    = (CalendarManager.mk (PyDict.setitem K_eq_dec (with_calendar K_eq_dec m key) key g'),
       r).
Proof.
  exact (manager_ensure_calendar m key (Calendar.add_slot rid start end_ data)).
Qed.

(** With a valid range [add_slot] of the manager returns a boolean. *)
Lemma manager_add_slot_total m key rid start end_ (data : D) :
  start < end_ ->
  exists m' b,
    CalendarManager.add_slot K_eq_dec key rid start end_ data m = (m', Ret b).
Proof.
  intros Hlt.
  destruct (manager_add_slot_runs m key rid start end_ data)
    as (g & g' & r & _ & _ & Hg & ->).
  destruct (calendar_add_slot_runs g rid start end_ data)
    as (c & c' & r' & _ & _ & Hc & Hrun).
  destruct (add_slot_total c start end_ data Hlt) as (c'' & b & Hb & _).
  rewrite Hrun in Hg. rewrite Hb in Hc.
  injection Hc as <- <-. injection Hg as <- <-. eauto.
Qed.
End ManagerFacts.

Section RegistryFacts.
Context {K D : Type} (K_eq_dec : forall a b : K, {a = b} + {a <> b}).
Implicit Types (m : CalendarManager.t K D) (g : Calendar.t D).

Lemma after_all_cons m a l :
  after_all K_eq_dec m (a :: l)
  = after_all K_eq_dec (state_of (assign K_eq_dec a m)) l.
Proof. reflexivity. Qed.

Lemma assign_total m a :
  valid_range a -> exists m' b, assign K_eq_dec a m = (m', Ret b).
Proof.
  destruct a as [[[[k r] s] e] d]. simpl. apply manager_add_slot_total.
Qed.

(** The loop of [bulk_assign_slots] over assignments with valid ranges:
    it makes the assignments in order and appends one boolean for each. *)
Lemma bulk_loop_spec l : forall m acc,
  Forall valid_range l ->
  exists bs,
    CalendarManager.bulk_assign_slots_loop K_eq_dec l acc m
    = (after_all K_eq_dec m l, Ret (acc ++ bs)) /\
    length bs = length l /\
    forall i a, nth_error l i = Some a ->
      exists b, nth_error bs i = Some b /\
                assign K_eq_dec a (after_all K_eq_dec m (firstn i l))
                = (after_all K_eq_dec m (firstn (S i) l), Ret b).
Proof.
  induction l as [| a l IH]; intros m acc Hv.
  - exists []. simpl. rewrite app_nil_r. split; [reflexivity |].
    split; [reflexivity |]. intros [| i] x H; discriminate.
  - inversion Hv as [| ? ? Ha Hl]; subst.
    destruct (assign_total m a Ha) as (m' & b & Hm).
    destruct (IH m' (acc ++ [b]) Hl) as (bs & Hrun & Hlen & Hnth).
    exists (b :: bs).
    rewrite after_all_cons, Hm. cbn [state_of fst].
    split; [| split; [simpl; lia |]].
    + destruct a as [[[[k r] s] e] d]. cbn [CalendarManager.bulk_assign_slots_loop].
      unfold bind at 1. simpl in Hm. rewrite Hm.
      rewrite Hrun, <- app_assoc. reflexivity.
    + intros [| i] x Hx; simpl in Hx.
      * injection Hx as <-. exists b. split; [reflexivity |].
        cbn [firstn]. unfold after_all at 1 2. cbn [fold_left].
        rewrite Hm. reflexivity.
      * destruct (Hnth i x Hx) as (b' & Hb' & Hrun').
        exists b'. split; [assumption |].
        cbn [firstn]. rewrite !after_all_cons, Hm. exact Hrun'.
Qed.

(** A resource group and a store exist under [key] and [rid]. *)
Lemma slots_of_created (d : PyDict.t K (Calendar.t D)) key rid
  (ds : PyDict.t string (CalendarBase.t D)) c :
  slots_of K_eq_dec
    (CalendarManager.mk
       (PyDict.setitem K_eq_dec d key
          (Calendar.mk (PyDict.setitem string_dec ds rid c)))) key rid
  = Some (CalendarBase._slots c).
Proof.
  unfold slots_of. cbn [CalendarManager._calendars].
  rewrite get_setitem_same. cbn [Calendar._calendars].
  now rewrite get_setitem_same.
Qed.

Lemma manager_get_slots_at_loop_spec time (ks : list K) : forall m acc,
  (forall k, In k ks -> In k (PyDict.keys (CalendarManager._calendars m))) ->
  (forall k l, PyDict.get_ K_eq_dec acc k = Some l ->
     l <> [] /\
     exists g, PyDict.get_ K_eq_dec (CalendarManager._calendars m) k = Some g /\
               Calendar.get_slots_at time g = (g, Ret l)) ->
  exists res,
    CalendarManager.get_slots_at_loop K_eq_dec time ks acc m = (m, Ret res) /\
    (forall k l, PyDict.get_ K_eq_dec res k = Some l ->
       l <> [] /\
       exists g, PyDict.get_ K_eq_dec (CalendarManager._calendars m) k = Some g /\
                 Calendar.get_slots_at time g = (g, Ret l)).
Proof.
  induction ks as [| key ks IH]; intros m acc Hin Hacc; simpl.
  - exists acc. split; [reflexivity | assumption].
  - destruct (keys_get K_eq_dec _ key (Hin key (or_introl eq_refl))) as [g Hg].
    destruct (calendar_get_slots_at_pure g time) as [l Hl].
    unfold bind at 1. unfold CalendarManager.on_calendars.
    rewrite (on_item_pure K_eq_dec _ key g _ _ Hg Hl), manager_eta.
    destruct l as [| x l].
    + apply IH; [intros; apply Hin; now right | assumption].
    + apply IH; [intros; apply Hin; now right |].
      intros k l' Hk. destruct (K_eq_dec k key) as [-> | Hne].
      * rewrite get_setitem_same in Hk. injection Hk as <-.
        split; [discriminate | eauto].
      * rewrite get_setitem_other in Hk by assumption. now apply Hacc.
Qed.
End RegistryFacts.

(** * The registry: bulk assignment, reads and auto-creation *)

Section RegistryTheorems.

(** C8, as the code has it.  For every registry and every input list whose
    items all have [start < end], [bulk_assign_slots] makes the
    assignments in input order, each on the registry the one before left
    (a refused item neither stops the loop nor undoes an earlier item), and
    returns one boolean per item, in input order.
    [bulk_assign_slots([(k, "a", 10, 12, _), (k, "a", 11, 13, _)])] returns
    [[True, False]] and only the first assignment is stored afterwards. *)
Theorem bulk_assign_slots_in_order :
  (forall (K D : Type) (K_eq_dec : forall a b : K, {a = b} + {a <> b})
          (m : CalendarManager.t K D) (l : list (K * string * Z * Z * D)),
      Forall valid_range l ->
      exists bs,
        CalendarManager.bulk_assign_slots K_eq_dec l m
        = (after_all K_eq_dec m l, Ret bs) /\
        length bs = length l /\
        forall i a, nth_error l i = Some a ->
          exists b,
            nth_error bs i = Some b /\
            assign K_eq_dec a (after_all K_eq_dec m (firstn i l))
            = (after_all K_eq_dec m (firstn (S i) l), Ret b)) /\
  (let r := CalendarManager.bulk_assign_slots string_dec two_assignments
              empty_manager in
   outcome_of r = Ret [true; false] /\
   slots_of string_dec (state_of r) "k"%string "a"%string = Some [(10, (12, "x"%string))]).
Proof.
  split; [| split; reflexivity].
  intros K D K_eq_dec m l Hv.
  destruct (bulk_loop_spec K_eq_dec l m [] Hv) as (bs & Hrun & Hlen & Hnth).
  exists bs. split; [exact Hrun |]. split; assumption.
Qed.

Lemma bulk_assign_slots_in_order_witness :
  Forall valid_range two_assignments /\
  exists bs,
    CalendarManager.bulk_assign_slots string_dec two_assignments empty_manager
    = (after_all string_dec empty_manager two_assignments, Ret bs) /\
    length bs = length two_assignments.
Proof.
  assert (Hv : Forall valid_range two_assignments)
    by (repeat constructor; simpl; lia).
  split; [exact Hv |].
  destruct (proj1 bulk_assign_slots_in_order string string string_dec
              empty_manager _ Hv) as (bs & Hrun & Hlen & _).
  exists bs. split; assumption.
Defined.

(** C8 as stated fails: an item with [start >= end] makes [add_slot] raise
    [ValueError], which leaves [bulk_assign_slots]; no list of booleans is
    returned and the items after it are not processed. *)
Lemma bulk_assign_slots_invalid_item_aborts :
  let r := CalendarManager.bulk_assign_slots string_dec invalid_then_valid
             empty_manager in
  outcome_of r = Raise ValueError /\
  ~ (exists bs, outcome_of r = Ret bs /\
                length bs = length invalid_then_valid) /\
  slots_of string_dec (state_of r) "k"%string "a"%string = Some [].
Proof.
  cbv zeta. split; [reflexivity |]. split; [| reflexivity].
  intros (bs & Hbs & _). discriminate Hbs.
Qed.

(** C9.  For every registry, [get_calendar_resources(key)] and
    [get_slots_at(time, key)] leave the registry as it was, so they create
    no calendar and no resource: [get_calendar_resources] of an absent key
    returns the empty list, and the dict [get_slots_at] returns has no
    entry for a key whose calendar is absent or has no slot at [time].
    After [add_slot], [add_slot_with_shift] and [add_resource_to_calendar]
    the calendar and the resource exist, whatever the outcome of the
    call. *)
Theorem reads_create_nothing_writes_create :
  forall (K D : Type) (K_eq_dec : forall a b : K, {a = b} + {a <> b})
         (m : CalendarManager.t K D),
    (forall key, exists l,
        CalendarManager.get_calendar_resources K_eq_dec key m = (m, Ret l) /\
        (PyDict.get_ K_eq_dec (CalendarManager._calendars m) key = None ->
         l = [])) /\
    (forall time calendar_key, exists res,
        CalendarManager.get_slots_at K_eq_dec time calendar_key m
        = (m, Ret res) /\
        forall k,
          (PyDict.get_ K_eq_dec (CalendarManager._calendars m) k = None \/
           exists g,
             PyDict.get_ K_eq_dec (CalendarManager._calendars m) k = Some g /\
             outcome_of (Calendar.get_slots_at time g) = Ret []) ->
          PyDict.get_ K_eq_dec res k = None) /\
    (forall key rid start end_ data,
        slots_of K_eq_dec
          (state_of (CalendarManager.add_slot K_eq_dec key rid start end_ data m))
          key rid <> None) /\
    (forall fuel key rid start end_ data,
        slots_of K_eq_dec
          (state_of (CalendarManager.add_slot_with_shift K_eq_dec fuel key rid
                       start end_ data m))
          key rid <> None) /\
    (forall key rid,
        slots_of K_eq_dec
          (state_of (CalendarManager.add_resource_to_calendar K_eq_dec key rid m))
          key rid <> None).
Proof.
  intros K D K_eq_dec m.
  split; [| split; [| split; [| split]]].
  - intros key. unfold CalendarManager.get_calendar_resources.
    unfold bind at 1, get at 1.
    destruct (PyDict.get_ K_eq_dec (CalendarManager._calendars m) key)
      as [g |] eqn:Hg.
    + exists (PyDict.keys (Calendar._calendars g)).
      split; [| discriminate].
      unfold CalendarManager.on_calendars.
      rewrite (on_item_pure K_eq_dec _ key g Calendar.get_all_resources
                 (Ret (PyDict.keys (Calendar._calendars g))) Hg eq_refl).
      now rewrite manager_eta.
    + exists []. split; reflexivity.
  - intros time calendar_key.
    assert (Homit : forall res,
      (forall k l, PyDict.get_ K_eq_dec res k = Some l ->
         l <> [] /\
         exists g, PyDict.get_ K_eq_dec (CalendarManager._calendars m) k = Some g /\
                   Calendar.get_slots_at time g = (g, Ret l)) ->
      forall k,
        (PyDict.get_ K_eq_dec (CalendarManager._calendars m) k = None \/
         exists g,
           PyDict.get_ K_eq_dec (CalendarManager._calendars m) k = Some g /\
           outcome_of (Calendar.get_slots_at time g) = Ret []) ->
        PyDict.get_ K_eq_dec res k = None).
    { intros res Hres k Hk.
      destruct (PyDict.get_ K_eq_dec res k) as [l |] eqn:Hl; [| reflexivity].
      destruct (Hres k l Hl) as (Hne & g & Hg & Hrun).
      destruct Hk as [Hk | (g' & Hg' & Hout)]; [congruence |].
      rewrite Hg in Hg'. injection Hg' as <-.
      rewrite Hrun in Hout. unfold outcome_of in Hout. simpl in Hout.
      congruence. }
    destruct calendar_key as [key |]; unfold CalendarManager.get_slots_at;
      cbv zeta.
    + unfold bind at 1, get at 1. unfold PyDict.contains.
      destruct (PyDict.get_ K_eq_dec (CalendarManager._calendars m) key)
        as [g |] eqn:Hg.
      * destruct (calendar_get_slots_at_pure g time) as [l Hl].
        unfold bind at 1. unfold CalendarManager.on_calendars.
        rewrite (on_item_pure K_eq_dec _ key g _ _ Hg Hl), manager_eta.
        destruct l as [| x l].
        -- exists PyDict.empty. split; [reflexivity |]. intros; reflexivity.
        -- eexists. split; [reflexivity |]. apply Homit.
           intros k l' Hk. simpl in Hk.
           destruct (K_eq_dec k key) as [-> | Hne]; [| discriminate].
           injection Hk as <-. split; [discriminate | eauto].
      * exists PyDict.empty. split; [reflexivity |]. intros; reflexivity.
    + unfold bind at 1, get at 1.
      destruct (manager_get_slots_at_loop_spec K_eq_dec time
                  (PyDict.keys (CalendarManager._calendars m)) m PyDict.empty)
        as (res & Hrun & Hres); [auto | intros k l H; discriminate H |].
      exists res. split; [assumption |]. now apply Homit.
  - intros key rid start end_ data.
    destruct (manager_add_slot_runs K_eq_dec m key rid start end_ data)
      as (g & g' & r & _ & _ & Hg & ->).
    destruct (calendar_add_slot_runs g rid start end_ data)
      as (c & c' & r' & _ & _ & _ & Hrun).
    rewrite Hrun in Hg. injection Hg as <- <-.
    cbn [state_of fst]. rewrite slots_of_created. discriminate.
  - intros fuel key rid start end_ data.
    destruct (manager_ensure_calendar K_eq_dec m key
                (Calendar.add_slot_with_shift fuel rid start end_ data))
      as (g & g' & r & _ & _ & Hg & Hm).
    destruct (calendar_add_slot_with_shift_runs fuel g rid start end_ data)
      as (c & c' & r' & _ & _ & _ & Hrun).
    rewrite Hrun in Hg. injection Hg as <- <-.
    unfold CalendarManager.add_slot_with_shift. rewrite Hm.
    cbn [state_of fst]. rewrite slots_of_created. discriminate.
  - intros key rid.
    destruct (manager_ensure_calendar K_eq_dec m key (Calendar.add_resource rid))
      as (g & g' & r & _ & _ & Hg & Hm).
    unfold CalendarManager.add_resource_to_calendar. rewrite Hm.
    destruct (calendar_add_resource g rid) as (g'' & Hrun & Hc & _).
    rewrite Hrun in Hg. injection Hg as <- <-.
    cbn [state_of fst]. unfold slots_of. cbn [CalendarManager._calendars].
    rewrite get_setitem_same.
    apply contains_get in Hc.
    destruct (PyDict.get_ string_dec (Calendar._calendars g'') rid);
      [discriminate | congruence].
Qed.
End RegistryTheorems.

Section AutoCreation.

(** C10.  When [Calendar.add_slot] is called with [start >= end] for a
    resource that the group does not have yet, the empty store of the
    resource is created before the range is checked: the call raises
    [ValueError] and the group keeps the new resource, with no slot.
    Likewise [CalendarManager.add_slot] with [start >= end] under a key
    that the registry does not have yet raises [ValueError] and leaves
    under that key the new group, which holds the new resource with no
    slot.  Nothing that was created is taken back. *)
Theorem auto_creation_survives_invalid_range :
  (forall (D : Type) (g : Calendar.t D) (rid : string) (start end_ : Z)
          (data : D),
      start >= end_ ->
      PyDict.contains string_dec (Calendar._calendars g) rid = false ->
      let r := Calendar.add_slot rid start end_ data g in
      outcome_of r = Raise ValueError /\
      state_of r
      = Calendar.mk (PyDict.setitem string_dec (Calendar._calendars g) rid
                       (CalendarBase.init rid)) /\
      PyDict.get_ string_dec (Calendar._calendars (state_of r)) rid
      = Some (CalendarBase.init rid)) /\
  (forall (K D : Type) (K_eq_dec : forall a b : K, {a = b} + {a <> b})
          (m : CalendarManager.t K D) (key : K) (rid : string)
          (start end_ : Z) (data : D),
      start >= end_ ->
      PyDict.contains K_eq_dec (CalendarManager._calendars m) key = false ->
      let r := CalendarManager.add_slot K_eq_dec key rid start end_ data m in
      outcome_of r = Raise ValueError /\
      state_of r
      = CalendarManager.mk
          (PyDict.setitem K_eq_dec (CalendarManager._calendars m) key
             (Calendar.mk [(rid, CalendarBase.init rid)])) /\
      PyDict.get_ K_eq_dec (CalendarManager._calendars (state_of r)) key
      = Some (Calendar.mk [(rid, CalendarBase.init rid)]) /\
      slots_of K_eq_dec (state_of r) key rid = Some []).
Proof.
  assert (Hgroup : forall (D : Type) (g : Calendar.t D) rid start end_ data,
    start >= end_ ->
    PyDict.contains string_dec (Calendar._calendars g) rid = false ->
    Calendar.add_slot rid start end_ data g
    = (Calendar.mk (PyDict.setitem string_dec (Calendar._calendars g) rid
                      (CalendarBase.init rid)), Raise ValueError)).
  { intros D g rid start end_ data Hge Hc.
    destruct (calendar_add_slot_runs g rid start end_ data)
      as (c & c' & r & _ & Hinit & Hrun & ->).
    rewrite (Hinit Hc), add_slot_invalid in Hrun by assumption.
    injection Hrun as <- <-.
    unfold with_resource. rewrite Hc. now rewrite setitem_setitem. }
  split.
  - intros D g rid start end_ data Hge Hc r. subst r.
    rewrite (Hgroup D g rid start end_ data Hge Hc).
    cbn [outcome_of state_of fst snd Calendar._calendars].
    split; [reflexivity |]. split; [reflexivity | apply get_setitem_same].
  - intros K D K_eq_dec m key rid start end_ data Hge Hc r. subst r.
    destruct (manager_add_slot_runs K_eq_dec m key rid start end_ data)
      as (g & g' & r & _ & Hinit & Hrun & ->).
    rewrite (Hinit Hc) in Hrun.
    rewrite (Hgroup D (Calendar.init None) rid start end_ data Hge eq_refl)
      in Hrun.
    injection Hrun as <- <-.
    unfold with_calendar. rewrite Hc, setitem_setitem.
    cbn [outcome_of state_of fst snd CalendarManager._calendars].
    split; [reflexivity |]. split; [reflexivity |].
    split; [apply get_setitem_same |].
    unfold slots_of. cbn [CalendarManager._calendars].
    rewrite get_setitem_same. simpl.
    destruct (string_dec rid rid); [reflexivity | congruence].
Qed.

Lemma auto_creation_survives_invalid_range_witness :
  10 >= 10 /\
  PyDict.contains string_dec (CalendarManager._calendars empty_manager)
    "k"%string = false /\
  outcome_of (CalendarManager.add_slot string_dec "k"%string "a"%string
                10 10 "x"%string empty_manager) = Raise ValueError /\
  slots_of string_dec
    (state_of (CalendarManager.add_slot string_dec "k"%string "a"%string
                 10 10 "x"%string empty_manager))
    "k"%string "a"%string = Some [].
Proof.
  split; [lia |]. split; [reflexivity |].
  destruct (proj2 auto_creation_survives_invalid_range string string string_dec
              empty_manager "k"%string "a"%string 10 10 "x"%string)
    as (Hout & _ & _ & Hslots); [lia | reflexivity |].
  split; assumption.
Defined.
End AutoCreation.

(** * The behaviour the repository's tests pin down, evaluated on the model *)

Section TestedBehaviour.

(** Shift keeps the duration and lands right after the blocking slot. *)
Example shift_after_blocker :
  outcome_of (CalendarBase.add_slot_with_shift 2 12 14 "x"%string
                (CalendarBase.mk "alice" [(10, (15, "e"%string))]))
  = Ret (15, 17).
Proof. reflexivity. Qed.

(** Four passes are needed to get past the three slots: with three the
    loop has not returned yet. *)
Example three_passes_are_not_enough :
  outcome_of (CalendarBase.add_slot_with_shift 3 12 32 "x"%string three_slots)
  = OutOfFuel /\
  find_jumps 10 (32 - 12) 12 three_slots = [15; 25; 35].
Proof. split; reflexivity. Qed.

Example navigation_is_strict :
  outcome_of (CalendarBase.left_slot 20 three_slots)
  = Ret (Some (10, 15, "a"%string)) /\
  outcome_of (CalendarBase.left_slot 10 three_slots) = Ret None /\
  outcome_of (CalendarBase.right_slot 10 three_slots)
  = Ret (Some (20, 25, "b"%string)) /\
  outcome_of (CalendarBase.right_slot 30 three_slots) = Ret None.
Proof. repeat split. Qed.

Example remove_twice :
  CalendarBase.remove_slot 10 (@CalendarBase.init string "alice")
  = (CalendarBase.init "alice", Ret false) /\
  CalendarBase.remove_slot 10 one_slot = (CalendarBase.init "alice", Ret true) /\
  CalendarBase.remove_slot 10
    (state_of (CalendarBase.remove_slot 10 one_slot))
  = (CalendarBase.init "alice", Ret false).
Proof. repeat split. Qed.

(** Without [start < end] on the stored intervals the search need not
    advance: on a store holding the ill-formed [(10, 8)] a pass from the
    candidate [8] moves to [8] again. *)
Example ill_formed_store_stalls :
  CalendarBase.find_body 5 8 (CalendarBase.mk "alice" [(10, (8, "bad"%string))])
  = (CalendarBase.mk "alice" [(10, (8, "bad"%string))], Ret (inl 8)).
Proof. reflexivity. Qed.
End TestedBehaviour.

(** * Further properties of the interval store *)

Section StoreRoundTrips.
Context {D : Type}.
Implicit Types (self : CalendarBase.t D) (s : SortedDict.t (Z * D)).

Lemma set_slots_same self : CalendarBase.set_slots self (CalendarBase._slots self) = self.
Proof. now destruct self. Qed.

Lemma filter_other_keys s k :
  (forall x, In x s -> fst x <> k) ->
  filter (fun x => negb (fst x =? k)) s = s.
Proof.
  induction s as [| a s IH]; intros H; simpl; [reflexivity |].
  pose proof (H a (or_introl eq_refl)) as Ha.
  destruct (Z.eqb_spec (fst a) k); [contradiction |]. simpl.
  f_equal. apply IH. intros x Hx. apply H. now right.
Qed.

(** On sorted keys [del d[k]] removes the one item under [k] and nothing
    else. *)
Lemma delitem_sorted s k :
  keys_sorted s ->
  SortedDict.delitem s k =
  if existsb (fun x => fst x =? k) s
  then Ret (filter (fun x => negb (fst x =? k)) s)
  else Raise KeyError.
Proof.
  unfold keys_sorted. induction s as [| [k' v'] r IH]; intros Hs;
    [reflexivity |].
  simpl in Hs. apply StronglySorted_inv in Hs as [Hr Hall].
  cbn [SortedDict.delitem existsb filter fst].
  rewrite (Z.eqb_sym k' k). destruct (Z.eqb_spec k k') as [-> | Hne]; simpl.
  - rewrite filter_other_keys; [reflexivity |].
    intros x Hx. rewrite Forall_map, Forall_forall in Hall.
    specialize (Hall x Hx). lia.
  - rewrite (IH Hr). now destruct (existsb (fun x => fst x =? k) r).
Qed.

(** Removing the key that was just stored under a new key gives the dict
    back. *)
Lemma delitem_setitem_new s k (v : Z * D) :
  (forall x, In x s -> fst x <> k) ->
  SortedDict.delitem (SortedDict.setitem s k v) k = Ret s.
Proof.
  induction s as [| [k' v'] r IH]; intros H; simpl.
  - now rewrite Z.eqb_refl.
  - pose proof (H _ (or_introl eq_refl)) as Hk. simpl in Hk.
    destruct (Z.ltb_spec k k'); simpl.
    + now rewrite Z.eqb_refl.
    + destruct (Z.eqb_spec k k'); [congruence |]. simpl.
      destruct (Z.eqb_spec k k'); [congruence |].
      rewrite IH; [reflexivity |]. intros x Hx. apply H. now right.
Qed.

(** A range that overlaps nothing does not start where a stored interval
    starts. *)
Lemma free_range_new_key s a b :
  ordered s -> a < b ->
  (forall x, In x s -> ~ overlaps a b x) ->
  forall x, In x s -> fst x <> a.
Proof.
  intros Ho Hab Hfree x Hx Heq.
  pose proof (ordered_wf _ x Ho Hx) as Hw.
  apply (Hfree x Hx). unfold overlaps, slot_start in *. lia.
Qed.

Lemma get_slot_at_found self t :
  ordered (CalendarBase._slots self) ->
  exists r, CalendarBase.get_slot_at t self = (self, Ret r) /\
            found_at (CalendarBase._slots self) t r.
Proof. intros Ho. exact (get_slot_at_spec self t Ho). Qed.

(** Lookups at [t] in two stores that hold the same intervals around [t]
    give the same answer. *)
Lemma found_at_agree s s' t r r' :
  found_at s t r -> found_at s' t r' ->
  (forall x, In x s -> covers t x -> In x s') ->
  (forall x, In x s' -> covers t x -> In x s) ->
  r' = r.
Proof.
  intros Hr Hr' Hin Hin'.
  destruct r as [[[a b] d] |], r' as [[[a' b'] d'] |]; simpl in Hr, Hr'.
  - destruct Hr as (Hx & Hc & _). destruct Hr' as (_ & _ & Hu).
    assert (Hcov : covers t (a, (b, d)))
      by (unfold covers, slot_start, slot_end; simpl; lia).
    specialize (Hu _ (Hin _ Hx Hcov) Hcov). congruence.
  - destruct Hr as (Hx & Hc & _).
    assert (Hcov : covers t (a, (b, d)))
      by (unfold covers, slot_start, slot_end; simpl; lia).
    elim (Hr' _ (Hin _ Hx Hcov) Hcov).
  - destruct Hr' as (Hx & Hc & _).
    assert (Hcov : covers t (a', (b', d')))
      by (unfold covers, slot_start, slot_end; simpl; lia).
    elim (Hr _ (Hin' _ Hx Hcov) Hcov).
  - reflexivity.
Qed.

(** A lookup after an interval that overlaps nothing has been stored: the
    new interval inside its range, what was found before outside. *)
Lemma lookup_after_insert self k e (d : D) t :
  ordered (CalendarBase._slots self) -> k < e ->
  (forall x, In x (CalendarBase._slots self) -> ~ overlaps k e x) ->
  outcome_of
    (CalendarBase.get_slot_at t
       (CalendarBase.set_slots self
          (SortedDict.setitem (CalendarBase._slots self) k (e, d))))
  = if (k <=? t) && (t <? e) then Ret (Some (k, e, d))
    else outcome_of (CalendarBase.get_slot_at t self).
Proof.
  intros Ho Hke Hfree.
  destruct (setitem_fresh _ k e d Ho Hke Hfree) as [Ho' Hp].
  set (self' := CalendarBase.set_slots self
                  (SortedDict.setitem (CalendarBase._slots self) k (e, d))).
  destruct (get_slot_at_found self' t Ho') as (r' & -> & Hr').
  destruct (get_slot_at_found self t Ho) as (r & -> & Hr).
  unfold outcome_of. cbn [snd].
  assert (Hnew : In (k, (e, d)) (CalendarBase._slots self'))
    by (apply (Permutation_in _ Hp); now left).
  assert (Hold : forall x, In x (CalendarBase._slots self) ->
                           In x (CalendarBase._slots self'))
    by (intros x Hx; apply (Permutation_in _ Hp); now right).
  assert (Hback : forall x, In x (CalendarBase._slots self') ->
                            x = (k, (e, d)) \/ In x (CalendarBase._slots self)).
  { intros x Hx. apply (Permutation_in _ (Permutation_sym Hp)) in Hx.
    destruct Hx as [<- | Hx]; auto. }
  destruct ((k <=? t) && (t <? e)) eqn:Hin.
  - apply andb_prop in Hin as [Hkt Hte].
    apply Z.leb_le in Hkt. apply Z.ltb_lt in Hte.
    assert (Hcov : covers t (k, (e, d)))
      by (unfold covers, slot_start, slot_end; simpl; lia).
    destruct r' as [[[a b] d'] |]; simpl in Hr'.
    + destruct Hr' as (_ & _ & Huniq). specialize (Huniq _ Hnew Hcov). congruence.
    + elim (Hr' _ Hnew Hcov).
  - f_equal. apply (found_at_agree _ _ t r r' Hr Hr'); [auto |].
    intros x Hx Hc. destruct (Hback x Hx) as [-> | Hs]; [| assumption].
    unfold covers, slot_start, slot_end in Hc. simpl in Hc.
    apply andb_false_iff in Hin as [Hin | Hin];
      [apply Z.leb_gt in Hin | apply Z.ltb_ge in Hin]; lia.
Qed.
End StoreRoundTrips.

Section StoreFurtherTheorems.

Lemma sorted_key_unique {D : Type} (s : SortedDict.t (Z * D)) k v1 v2 :
  keys_sorted s -> In (k, v1) s -> In (k, v2) s -> v1 = v2.
Proof.
  unfold keys_sorted. induction s as [| [k' v'] r IH]; intros Hs H1 H2;
    [destruct H1 |].
  simpl in Hs. apply StronglySorted_inv in Hs as [Hr Hall].
  rewrite Forall_map, Forall_forall in Hall.
  destruct H1 as [H1 | H1], H2 as [H2 | H2].
  - congruence.
  - injection H1 as -> ->. specialize (Hall _ H2). simpl in Hall. lia.
  - injection H2 as -> ->. specialize (Hall _ H1). simpl in Hall. lia.
  - now apply IH.
Qed.

Lemma add_slot_returned_true {D : Type} (self : CalendarBase.t D)
  start end_ data :
  ordered (CalendarBase._slots self) -> start < end_ ->
  outcome_of (CalendarBase.add_slot start end_ data self) = Ret true ->
  conflictb (CalendarBase._slots self) start end_ = false /\
  CalendarBase.add_slot start end_ data self
  = (CalendarBase.set_slots self
       (SortedDict.setitem (CalendarBase._slots self) start (end_, data)),
     Ret true).
Proof.
  intros Ho Hlt. rewrite (add_slot_ordered self start end_ data Ho Hlt).
  destruct (conflictb (CalendarBase._slots self) start end_);
    [discriminate | auto].
Qed.

(** X1.  On a store [remove_slot(start)] returns [True] exactly when an
    interval with that start is stored; it then removes that interval and
    leaves every other interval, in order; otherwise it returns [False]
    and leaves the store as it was. *)
Theorem remove_slot_exact :
  forall (D : Type) (self : CalendarBase.t D) (start : Z),
    keys_sorted (CalendarBase._slots self) ->
    CalendarBase.remove_slot start self =
    if existsb (fun x => fst x =? start) (CalendarBase._slots self)
    then (CalendarBase.set_slots self
            (filter (fun x => negb (fst x =? start)) (CalendarBase._slots self)),
          Ret true)
    else (self, Ret false).
Proof.
  intros D self start Hk. unfold CalendarBase.remove_slot. run_m.
  rewrite (delitem_sorted _ start Hk).
  now destruct (existsb (fun x => fst x =? start) (CalendarBase._slots self)).
Qed.

Lemma remove_slot_exact_witness :
  keys_sorted (CalendarBase._slots three_slots) /\
  CalendarBase.remove_slot 20 three_slots
  = (CalendarBase.mk "alice" [(10, (15, "a"%string)); (30, (35, "c"%string))],
     Ret true).
Proof.
  split; [exact (proj1 three_slots_inv) |].
  exact (remove_slot_exact string three_slots 20 (proj1 three_slots_inv)).
Defined.

(** X2.  Adding an interval and removing it again gives the store back:
    when [add_slot(start, end, data)] returns [True] on a store that
    satisfies the invariant, [remove_slot(start)] on the result returns
    [True] and leaves the store that [add_slot] was called on. *)
Theorem add_then_remove_restores :
  forall (D : Type) (self : CalendarBase.t D) (start end_ : Z) (data : D),
    store_inv (CalendarBase._slots self) ->
    start < end_ ->
    outcome_of (CalendarBase.add_slot start end_ data self) = Ret true ->
    CalendarBase.remove_slot start
      (state_of (CalendarBase.add_slot start end_ data self))
    = (self, Ret true).
Proof.
  intros D self start end_ data Hinv Hlt Hout.
  apply store_inv_ordered in Hinv.
  destruct (add_slot_returned_true self start end_ data Hinv Hlt Hout)
    as [Hc ->].
  rewrite conflictb_false in Hc.
  unfold CalendarBase.remove_slot, state_of. run_m. cbn [fst CalendarBase._slots CalendarBase.set_slots].
  rewrite delitem_setitem_new
    by (now apply (free_range_new_key _ start end_ Hinv Hlt)).
  now destruct self.
Qed.

Lemma add_then_remove_restores_witness :
  store_inv (CalendarBase._slots three_slots) /\ 16 < 19 /\
  outcome_of (CalendarBase.add_slot 16 19 "n"%string three_slots) = Ret true /\
  CalendarBase.remove_slot 16
    (state_of (CalendarBase.add_slot 16 19 "n"%string three_slots))
  = (three_slots, Ret true).
Proof.
  split; [exact three_slots_inv |]. split; [lia |]. split; [reflexivity |].
  apply (add_then_remove_restores string three_slots 16 19 "n"%string
           three_slots_inv); [lia | reflexivity].
Defined.

(** X3.  After [add_slot(start, end, data)] has returned [True] on a store
    that satisfies the invariant, [get_slot_at(t)] gives
    [(start, end, data)] for every [t] with [start <= t < end], and for
    every other [t] what it gave before the call. *)
Theorem lookup_after_add_slot :
  forall (D : Type) (self : CalendarBase.t D) (start end_ : Z) (data : D)
         (t : Z),
    store_inv (CalendarBase._slots self) ->
    start < end_ ->
    outcome_of (CalendarBase.add_slot start end_ data self) = Ret true ->
    outcome_of
      (CalendarBase.get_slot_at t
         (state_of (CalendarBase.add_slot start end_ data self)))
    = if (start <=? t) && (t <? end_) then Ret (Some (start, end_, data))
      else outcome_of (CalendarBase.get_slot_at t self).
Proof.
  intros D self start end_ data t Hinv Hlt Hout.
  apply store_inv_ordered in Hinv.
  destruct (add_slot_returned_true self start end_ data Hinv Hlt Hout)
    as [Hc ->].
  rewrite conflictb_false in Hc. cbn [state_of fst].
  now apply lookup_after_insert.
Qed.

Lemma lookup_after_add_slot_witness :
  store_inv (CalendarBase._slots three_slots) /\ 16 < 19 /\
  outcome_of (CalendarBase.add_slot 16 19 "n"%string three_slots) = Ret true /\
  outcome_of
    (CalendarBase.get_slot_at 18
       (state_of (CalendarBase.add_slot 16 19 "n"%string three_slots)))
  = Ret (Some (16, 19, "n"%string)).
Proof.
  split; [exact three_slots_inv |]. split; [lia |]. split; [reflexivity |].
  exact (lookup_after_add_slot string three_slots 16 19 "n"%string 18
           three_slots_inv eq_refl eq_refl).
Defined.

(** X4.  After [add_slot_with_shift(start, end, data)] on a store that
    satisfies the invariant has returned [(a, b)] (the loop being given
    more fuel than there are stored intervals), [get_slot_at(t)] gives
    [(a, b, data)] for every [t] with [a <= t < b], and for every other [t]
    what it gave before the call. *)
Theorem lookup_after_add_slot_with_shift :
  forall (D : Type) (self : CalendarBase.t D) (fuel : nat) (start end_ : Z)
         (data : D),
    store_inv (CalendarBase._slots self) ->
    start < end_ ->
    (length (CalendarBase._slots self) < fuel)%nat ->
    exists a b,
      outcome_of (CalendarBase.add_slot_with_shift fuel start end_ data self)
      = Ret (a, b) /\
      forall t,
        outcome_of
          (CalendarBase.get_slot_at t
             (state_of
                (CalendarBase.add_slot_with_shift fuel start end_ data self)))
        = if (a <=? t) && (t <? b) then Ret (Some (a, b, data))
          else outcome_of (CalendarBase.get_slot_at t self).
Proof.
  intros D self fuel start end_ data Hinv Hlt Hfuel.
  apply store_inv_ordered in Hinv.
  pose proof (ends_after_le_length (CalendarBase._slots self) start).
  destruct (add_slot_with_shift_cases fuel self start end_ data Hinv Hlt)
    as [(a & -> & Hle & Hfree & _) | [_ Hout]]; [| lia].
  exists a, (a + (end_ - start)). split; [reflexivity |].
  intros t. cbn [state_of fst]. rewrite conflictb_false in Hfree.
  apply lookup_after_insert; [assumption | lia | assumption].
Qed.

Lemma lookup_after_add_slot_with_shift_witness :
  store_inv (CalendarBase._slots three_slots) /\ 12 < 32 /\
  (length (CalendarBase._slots three_slots) < 4)%nat /\
  exists a b,
    outcome_of (CalendarBase.add_slot_with_shift 4 12 32 "x"%string three_slots)
    = Ret (a, b).
Proof.
  split; [exact three_slots_inv |]. split; [lia |]. split; [simpl; lia |].
  destruct (lookup_after_add_slot_with_shift string three_slots 4 12 32
              "x"%string three_slots_inv) as (a & b & Hab & _);
    [lia | simpl; lia |].
  exists a, b. exact Hab.
Defined.
End StoreFurtherTheorems.

Section StoreFurtherTheorems2.

(** X5.  After [remove_slot(start)] has removed the interval
    [(start, end, data)] from a store that satisfies the invariant,
    [get_slot_at(t)] gives [None] for every [t] with [start <= t < end],
    and for every other [t] what it gave before the call. *)
Theorem lookup_after_remove_slot :
  forall (D : Type) (self : CalendarBase.t D) (start end_ : Z) (data : D)
         (t : Z),
    store_inv (CalendarBase._slots self) ->
    In (start, (end_, data)) (CalendarBase._slots self) ->
    outcome_of (CalendarBase.remove_slot start self) = Ret true /\
    outcome_of
      (CalendarBase.get_slot_at t (state_of (CalendarBase.remove_slot start self)))
    = if (start <=? t) && (t <? end_) then Ret None
      else outcome_of (CalendarBase.get_slot_at t self).
Proof.
  intros D self start end_ data t Hinv Hin.
  pose proof (proj1 Hinv) as Hk. apply store_inv_ordered in Hinv.
  pose proof (remove_slot_keeps self start Hinv) as (Ho' & _ & _).
  revert Ho'. rewrite (remove_slot_exact D self start Hk).
  assert (Hex : existsb (fun x => fst x =? start) (CalendarBase._slots self)
                = true).
  { apply existsb_exists. exists (start, (end_, data)).
    split; [assumption | apply Z.eqb_refl]. }
  rewrite Hex. cbn [state_of outcome_of fst snd]. intros Ho'.
  split; [reflexivity |].
  set (self' := CalendarBase.set_slots self _) in *.
  destruct (get_slot_at_found self' t Ho') as (r' & -> & Hr').
  destruct (get_slot_at_found self t Hinv) as (r & -> & Hr).
  unfold outcome_of. cbn [snd].
  assert (Hkept : forall x, In x (CalendarBase._slots self') <->
                            In x (CalendarBase._slots self) /\ fst x <> start).
  { intros x. unfold self'. cbn [CalendarBase._slots CalendarBase.set_slots].
    rewrite filter_In. split; intros [Hx Hne]; split; auto.
    - destruct (Z.eqb_spec (fst x) start); [discriminate | assumption].
    - now destruct (Z.eqb_spec (fst x) start). }
  destruct ((start <=? t) && (t <? end_)) eqn:Hrange.
  - apply andb_prop in Hrange as [Hst Hte].
    apply Z.leb_le in Hst. apply Z.ltb_lt in Hte.
    assert (Hcov : covers t (start, (end_, data)))
      by (unfold covers, slot_start, slot_end; simpl; lia).
    destruct r' as [[[a b] d] |]; [| reflexivity]. exfalso.
    destruct Hr' as (Hx & Hc & _). apply Hkept in Hx as [Hx Hne].
    destruct r as [[[a0 b0] d0] |]; simpl in Hr.
    + destruct Hr as (_ & _ & Hu).
      assert (Hcov' : covers t (a, (b, d)))
        by (unfold covers, slot_start, slot_end; simpl; lia).
      pose proof (Hu _ Hx Hcov') as E1. pose proof (Hu _ Hin Hcov) as E2.
      rewrite <- E2 in E1. injection E1 as -> _ _. now apply Hne.
    + elim (Hr _ Hin Hcov).
  - f_equal. apply (found_at_agree _ _ t r r' Hr Hr').
    + intros x Hx Hc. apply Hkept. split; [assumption |]. intros Heq.
      destruct x as [kx vx]. simpl in Heq. subst kx.
      pose proof (sorted_key_unique _ _ _ _ Hk Hx Hin) as ->.
      unfold covers, slot_start, slot_end in Hc. simpl in Hc.
      apply andb_false_iff in Hrange as [Hr1 | Hr1];
        [apply Z.leb_gt in Hr1 | apply Z.ltb_ge in Hr1]; lia.
    + intros x Hx _. now apply Hkept in Hx.
Qed.

Lemma lookup_after_remove_slot_witness :
  store_inv (CalendarBase._slots three_slots) /\
  In (20, (25, "b"%string)) (CalendarBase._slots three_slots) /\
  outcome_of
    (CalendarBase.get_slot_at 22
       (state_of (CalendarBase.remove_slot 20 three_slots)))
  = Ret None.
Proof.
  split; [exact three_slots_inv |].
  assert (Hin : In (20, (25, "b"%string)) (CalendarBase._slots three_slots))
    by (simpl; auto).
  split; [exact Hin |].
  exact (proj2 (lookup_after_remove_slot string three_slots 20 25 "b"%string 22
                  three_slots_inv Hin)).
Defined.

(** X6.  When the requested range is free, shifting does nothing: if
    [add_slot(start, end, data)] returns [True] on a store that satisfies
    the invariant, then [add_slot_with_shift(start, end, data)] on the same
    store returns [(start, end)] after one pass of its loop and leaves the
    store [add_slot] leaves. *)
Theorem shift_of_free_range_is_add :
  forall (D : Type) (self : CalendarBase.t D) (fuel : nat) (start end_ : Z)
         (data : D),
    store_inv (CalendarBase._slots self) ->
    start < end_ ->
    outcome_of (CalendarBase.add_slot start end_ data self) = Ret true ->
    CalendarBase.add_slot_with_shift (S fuel) start end_ data self
    = (state_of (CalendarBase.add_slot start end_ data self),
       Ret (start, end_)).
Proof.
  intros D self fuel start end_ data Hinv Hlt Hout.
  apply store_inv_ordered in Hinv.
  destruct (add_slot_returned_true self start end_ data Hinv Hlt Hout)
    as [Hc ->].
  cbn [state_of fst].
  unfold CalendarBase.add_slot_with_shift.
  rewrite Z.geb_leb. destruct (Z.leb_spec end_ start); [lia |].
  cbv zeta. unfold CalendarBase._find_available_slot.
  cbn [CalendarBase.find_loop]. unfold bind at 1. unfold bind at 1.
  assert (Hd : 0 < end_ - start) by lia.
  destruct (find_body_spec self (end_ - start) start Hinv Hd)
    as [[_ ->] | (t' & _ & Hadv & _ & Hskip)].
  - run_m. replace (start + (end_ - start)) with end_ by lia. reflexivity.
  - specialize (Hskip start).
    replace (start + (end_ - start)) with end_ in Hskip by lia.
    rewrite Hc in Hskip. discriminate Hskip. lia.
Qed.

Lemma shift_of_free_range_is_add_witness :
  store_inv (CalendarBase._slots three_slots) /\ 16 < 19 /\
  outcome_of (CalendarBase.add_slot 16 19 "n"%string three_slots) = Ret true /\
  outcome_of (CalendarBase.add_slot_with_shift 1 16 19 "n"%string three_slots)
  = Ret (16, 19).
Proof.
  split; [exact three_slots_inv |]. split; [lia |]. split; [reflexivity |].
  rewrite (shift_of_free_range_is_add string three_slots 0 16 19 "n"%string
             three_slots_inv); [reflexivity | lia | reflexivity].
Defined.

(** X7.  On a store that satisfies the invariant, and for [start < end],
    [add_slot(start, end, data)] returns [True] exactly when
    [get_slot_at(t)] is [None] for every [t] with [start <= t < end]. *)
Theorem add_slot_succeeds_iff_no_time_taken :
  forall (D : Type) (self : CalendarBase.t D) (start end_ : Z) (data : D),
    store_inv (CalendarBase._slots self) ->
    start < end_ ->
    (outcome_of (CalendarBase.add_slot start end_ data self) = Ret true <->
     forall t, start <= t < end_ ->
               outcome_of (CalendarBase.get_slot_at t self) = Ret None).
Proof.
  intros D self start end_ data Hinv Hlt.
  apply store_inv_ordered in Hinv.
  rewrite (add_slot_ordered self start end_ data Hinv Hlt).
  destruct (conflictb (CalendarBase._slots self) start end_) eqn:Hc;
    cbn [outcome_of snd].
  - split; [discriminate |]. intros Hfree. exfalso.
    apply conflictb_true in Hc as (x & Hx & Hs & He).
    pose proof (ordered_wf _ x Hinv Hx) as Hw.
    specialize (Hfree (Z.max start (slot_start x))).
    destruct (get_slot_at_found self (Z.max start (slot_start x)) Hinv)
      as (r & Hrun & Hr).
    rewrite Hrun in Hfree. cbn [snd] in Hfree.
    assert (Hnone : Ret r = Ret None) by (apply Hfree; lia).
    injection Hnone as ->. apply (Hr x Hx). unfold covers. lia.
  - split; [| reflexivity]. intros _ t Ht.
    rewrite conflictb_false in Hc.
    destruct (get_slot_at_found self t Hinv) as (r & -> & Hr). cbn [snd].
    destruct r as [[[a b] d] |]; [| reflexivity]. exfalso.
    destruct Hr as (Hx & Hab & _). apply (Hc _ Hx).
    unfold overlaps, slot_start, slot_end. simpl. lia.
Qed.

Lemma add_slot_succeeds_iff_no_time_taken_witness :
  store_inv (CalendarBase._slots three_slots) /\ 16 < 19 /\
  (outcome_of (CalendarBase.add_slot 16 19 "n"%string three_slots) = Ret true <->
   forall t, 16 <= t < 19 ->
             outcome_of (CalendarBase.get_slot_at t three_slots) = Ret None).
Proof.
  split; [exact three_slots_inv |]. split; [lia |].
  apply (add_slot_succeeds_iff_no_time_taken string three_slots 16 19
           "n"%string three_slots_inv).
  lia.
Defined.
End StoreFurtherTheorems2.

(** * Further properties of dicts and resource groups *)

Section PyDictFurther.
Context {K V : Type} (K_eq_dec : forall a b : K, {a = b} + {a <> b}).
Implicit Types (d : PyDict.t K V) (k : K) (v : V).

Lemma get_none_keys d k :
  PyDict.get_ K_eq_dec d k = None <-> ~ In k (PyDict.keys d).
Proof.
  unfold PyDict.keys. induction d as [| [k' v'] r IH]; simpl; [tauto |].
  destruct (K_eq_dec k k') as [E | Hne].
  - split; [discriminate | intros H; elim H; auto].
  - rewrite IH. split; intros H; [intros [E | Hin]; [congruence | auto] | auto].
Qed.

Lemma setitem_new d k v :
  PyDict.get_ K_eq_dec d k = None ->
  PyDict.setitem K_eq_dec d k v = d ++ [(k, v)].
Proof.
  induction d as [| [k' v'] r IH]; simpl; [reflexivity |].
  destruct (K_eq_dec k k'); [discriminate |]. intros H. now rewrite IH.
Qed.

Lemma keys_setitem_present d k v v0 :
  PyDict.get_ K_eq_dec d k = Some v0 ->
  PyDict.keys (PyDict.setitem K_eq_dec d k v) = PyDict.keys d.
Proof.
  unfold PyDict.keys. induction d as [| [k' v'] r IH]; simpl; [discriminate |].
  destruct (K_eq_dec k k') as [E | Hne]; simpl; intros H.
  - now subst.
  - now rewrite IH.
Qed.

Lemma keys_setitem d k v :
  PyDict.keys (PyDict.setitem K_eq_dec d k v)
  = if PyDict.contains K_eq_dec d k then PyDict.keys d
    else PyDict.keys d ++ [k].
Proof.
  unfold PyDict.contains.
  destruct (PyDict.get_ K_eq_dec d k) as [v0 |] eqn:Hg.
  - now apply keys_setitem_present with (v0 := v0).
  - rewrite setitem_new by assumption. unfold PyDict.keys.
    now rewrite map_app.
Qed.

Lemma one_item_per_key_setitem d k v :
  one_item_per_key d -> one_item_per_key (PyDict.setitem K_eq_dec d k v).
Proof.
  unfold one_item_per_key. intros Hn. rewrite keys_setitem.
  unfold PyDict.contains.
  destruct (PyDict.get_ K_eq_dec d k) eqn:Hg; [assumption |].
  apply get_none_keys in Hg.
  apply NoDup_app; [assumption | repeat constructor; intros [] | ].
  intros x Hx [<- | []]. contradiction.
Qed.

(** In a dict with one item per key the item found under a key is the item
    listed under it. *)
Lemma get_of_item d k v :
  one_item_per_key d -> In (k, v) d -> PyDict.get_ K_eq_dec d k = Some v.
Proof.
  unfold one_item_per_key, PyDict.keys.
  induction d as [| [k' v'] r IH]; simpl; intros Hn Hin; [destruct Hin |].
  inversion Hn as [| ? ? Hnot Hn']; subst.
  destruct Hin as [E | Hin].
  - injection E as -> ->. destruct (K_eq_dec k k); congruence.
  - destruct (K_eq_dec k k') as [-> | Hne]; [| now apply IH].
    elim Hnot. apply in_map_iff. exists (k', v). split; [reflexivity | assumption].
Qed.

Lemma get_in d k v : PyDict.get_ K_eq_dec d k = Some v -> In (k, v) d.
Proof.
  induction d as [| [k' v'] r IH]; simpl; [discriminate |].
  destruct (K_eq_dec k k') as [-> | Hne]; intros H.
  - left. congruence.
  - right. now apply IH.
Qed.

(** [del d[k]] in a dict with one item per key. *)
Lemma delitem_cases_dict d k :
  one_item_per_key d ->
  match PyDict.get_ K_eq_dec d k with
  | Some _ =>
      exists d',
        PyDict.delitem K_eq_dec d k = Ret d' /\
        PyDict.get_ K_eq_dec d' k = None /\
        (forall k', k' <> k ->
                    PyDict.get_ K_eq_dec d' k' = PyDict.get_ K_eq_dec d k') /\
        one_item_per_key d' /\
        PyDict.keys d' = filter (fun x => if K_eq_dec x k then false else true)
                           (PyDict.keys d)
  | None => PyDict.delitem K_eq_dec d k = Raise KeyError
  end.
Proof.
  unfold one_item_per_key, PyDict.keys.
  induction d as [| [k0 v0] r IH]; simpl; intros Hn; [reflexivity |].
  inversion Hn as [| ? ? Hnot Hn']; subst.
  destruct (K_eq_dec k k0) as [E | Hne].
  - subst k0. exists r. split; [reflexivity |].
    split; [now apply get_none_keys |].
    split; [intros k' Hk'; now destruct (K_eq_dec k' k) |].
    split; [assumption |].
    destruct (K_eq_dec k k); [| congruence].
    symmetry. apply forallb_filter_id. apply forallb_forall.
    intros x Hx. destruct (K_eq_dec x k); [subst; contradiction | reflexivity].
  - specialize (IH Hn').
    destruct (PyDict.get_ K_eq_dec r k) as [v |] eqn:Hg.
    + destruct IH as (d' & -> & Hnone & Hother & Hnd & Hkeys).
      exists ((k0, v0) :: d'). split; [reflexivity |]. simpl.
      split; [destruct (K_eq_dec k k0); congruence |].
      split; [intros k' Hk'; destruct (K_eq_dec k' k0); auto |].
      destruct (K_eq_dec k0 k); [congruence |].
      split; [| now rewrite Hkeys].
      constructor; [| assumption]. rewrite Hkeys.
      intros Hin. apply filter_In in Hin as [Hin _]. contradiction.
    + now rewrite IH.
Qed.
End PyDictFurther.

Section CalendarFurther.
Context {D : Type}.
Implicit Types (g : Calendar.t D) (c : CalendarBase.t D).

Lemma init_loop_run (l : list string) : forall d,
  Calendar.init_loop l (@Calendar.mk D d)
  = (Calendar.mk
       (fold_left (fun d r => PyDict.setitem string_dec d r (CalendarBase.init r))
          l d),
     Ret tt).
Proof.
  induction l as [| r l IH]; intros d; [reflexivity |].
  cbn [Calendar.init_loop fold_left]. run_m. cbn [Calendar._calendars].
  apply IH.
Qed.

Lemma init_fold_props (l : list string) : forall d : PyDict.t string (CalendarBase.t D),
  one_item_per_key d ->
  (forall rid c, PyDict.get_ string_dec d rid = Some c ->
                 c = CalendarBase.init rid) ->
  let d' := fold_left
              (fun d r => PyDict.setitem string_dec d r (CalendarBase.init r))
              l d in
  one_item_per_key d' /\
  (forall rid c, PyDict.get_ string_dec d' rid = Some c ->
                 c = CalendarBase.init rid) /\
  (forall rid, In rid (PyDict.keys d') <-> In rid (PyDict.keys d) \/ In rid l).
Proof.
  induction l as [| r l IH]; intros d Hn Hv; cbv zeta; cbn [fold_left].
  - split; [assumption |]. split; [assumption |]. intros rid. simpl. tauto.
  - destruct (IH (PyDict.setitem string_dec d r (CalendarBase.init r)))
      as (H1 & H2 & H3).
    + now apply one_item_per_key_setitem.
    + intros rid c. destruct (string_dec rid r) as [-> | Hne].
      * rewrite get_setitem_same. congruence.
      * rewrite get_setitem_other by assumption. apply Hv.
    + split; [assumption |]. split; [assumption |].
      intros rid. rewrite H3, keys_setitem.
      destruct (PyDict.contains string_dec d r) eqn:Hc; simpl.
      * apply contains_get in Hc.
        assert (In r (PyDict.keys d)).
        { destruct (in_dec string_dec r (PyDict.keys d)) as [Hin | Hnin];
            [assumption |].
          apply (get_none_keys string_dec) in Hnin. congruence. }
        intuition (subst; auto).
      * rewrite in_app_iff. simpl. intuition (subst; auto).
Qed.

(** The loop of [Calendar.get_slots_at], resource id by resource id. *)
Lemma get_slots_at_loop_hits time (ids : list string) : forall g acc,
  (forall id, In id ids -> In id (PyDict.keys (Calendar._calendars g))) ->
  Calendar.get_slots_at_loop time ids acc g
  = (g, Ret (acc ++ flat_map (fun id => hit_at time id (store_for g id)) ids)).
Proof.
  induction ids as [| id ids IH]; intros g acc Hin.
  - simpl. now rewrite app_nil_r.
  - destruct (keys_get string_dec _ id (Hin id (or_introl eq_refl))) as [c Hc].
    destruct (get_slot_at_total c time) as [r Hr].
    cbn [Calendar.get_slots_at_loop flat_map].
    unfold bind at 1. unfold Calendar.on_calendars.
    rewrite (on_item_pure string_dec _ id c _ _ Hc Hr), calendar_eta.
    unfold store_for at 1. rewrite Hc. unfold hit_at at 1. rewrite Hr.
    cbn [outcome_of snd].
    destruct r as [[[s e] d] |].
    + rewrite IH by (intros; apply Hin; now right).
      now rewrite <- app_assoc.
    + rewrite IH by (intros; apply Hin; now right). reflexivity.
Qed.

Lemma flat_map_keys_items {B : Type} (d : PyDict.t string (CalendarBase.t D))
  (f : string -> list B) (h : string * CalendarBase.t D -> list B) :
  (forall item, In item d -> f (fst item) = h item) ->
  flat_map f (PyDict.keys d) = flat_map h d.
Proof.
  unfold PyDict.keys. induction d as [| a d IH]; intros H; simpl;
    [reflexivity |].
  rewrite (H a (or_introl eq_refl)). f_equal.
  apply IH. intros item Hi. apply H. now right.
Qed.

(** [get_slot_at] returns only stored intervals that contain the time,
    whatever the store. *)
Lemma get_slot_at_sound c time s e (d : D) :
  outcome_of (CalendarBase.get_slot_at time c) = Ret (Some (s, e, d)) ->
  In (s, (e, d)) (CalendarBase._slots c) /\ s <= time < e.
Proof.
  unfold CalendarBase.get_slot_at, outcome_of. run_m.
  pose proof (bisect_right_bounds (CalendarBase._slots c) time) as Hb.
  set (i := SortedDict.bisect_right (CalendarBase._slots c) time) in *.
  rewrite Z.geb_leb. destruct (Z.leb_spec 0 (i - 1)); [| discriminate].
  destruct (peekitem_in_range (CalendarBase._slots c) (i - 1))
    as ([kp [ep dp]] & -> & Hin); [lia |].
  destruct (Z.leb_spec kp time); [| discriminate].
  destruct (Z.ltb_spec time ep); [| discriminate].
  simpl. intros Heq. injection Heq as <- <- <-. split; [assumption | lia].
Qed.
End CalendarFurther.

Section CalendarFurtherTheorems.

Lemma two_resources_keys : one_item_per_key (Calendar._calendars two_resources).
Proof.
  unfold one_item_per_key. simpl.
  repeat constructor; simpl; intuition discriminate.
Qed.

(** X8.  [Calendar(resources)] holds exactly the listed resources, each
    once and each with an empty store: [get_all_resources()] has no
    duplicates and the same members as the list, and [get_calendar(id)] of
    a listed id is a fresh [CalendarBase(id)].  With [None] or an empty
    list there is no resource. *)
Theorem calendar_init_resources :
  forall (D : Type) (resources : option (list string)),
    let g := @Calendar.init D resources in
    let listed := match resources with Some l => l | None => [] end in
    exists ids,
      Calendar.get_all_resources g = (g, Ret ids) /\
      NoDup ids /\
      (forall rid, In rid ids <-> In rid listed) /\
      (forall rid, In rid listed ->
         Calendar.get_calendar rid g = (g, Ret (Some (CalendarBase.init rid)))).
Proof.
  intros D resources g listed.
  exists (PyDict.keys (Calendar._calendars g)). split; [reflexivity |].
  assert (Hg : Calendar._calendars g
               = fold_left
                   (fun d r => PyDict.setitem string_dec d r (CalendarBase.init r))
                   listed PyDict.empty).
  { subst g listed. destruct resources as [[| r l] |]; try reflexivity.
    unfold Calendar.init. now rewrite init_loop_run. }
  destruct (init_fold_props (D := D) listed PyDict.empty)
    as (Hn & Hv & Hk); [constructor | intros ? ? H; discriminate H |].
  rewrite <- Hg in Hn, Hv, Hk.
  split; [exact Hn |]. split.
  - intros rid. rewrite Hk. simpl. tauto.
  - intros rid Hin. unfold Calendar.get_calendar. run_m.
    destruct (PyDict.get_ string_dec (Calendar._calendars g) rid) as [c |] eqn:Hc.
    + now rewrite (Hv rid c Hc).
    + apply get_none_keys in Hc. elim Hc. apply Hk. now right.
Qed.

Lemma add_resource_run {D : Type} (g : Calendar.t D) (rid : string) :
  Calendar.add_resource rid g =
  match PyDict.get_ string_dec (Calendar._calendars g) rid with
  | Some _ => (g, Ret tt)
  | None =>
      (Calendar.mk (Calendar._calendars g ++ [(rid, CalendarBase.init rid)]),
       Ret tt)
  end.
Proof.
  unfold Calendar.add_resource. run_m. unfold PyDict.contains.
  destruct (PyDict.get_ string_dec (Calendar._calendars g) rid) eqn:Hg;
    cbn [negb]; [reflexivity |].
  now rewrite setitem_new.
Qed.

(** X9.  [add_resource(id)] never resets a store: every resource the
    group has keeps its store, the resource [id] is there afterwards (with
    an empty store when it is new, and then last in
    [get_all_resources()]), and a second [add_resource(id)] changes
    nothing. *)
Theorem add_resource_keeps_existing :
  forall (D : Type) (g : Calendar.t D) (rid : string),
    let g' := state_of (Calendar.add_resource rid g) in
    (forall other c,
        PyDict.get_ string_dec (Calendar._calendars g) other = Some c ->
        Calendar.get_calendar other g' = (g', Ret (Some c))) /\
    (PyDict.get_ string_dec (Calendar._calendars g) rid = None ->
     Calendar.get_calendar rid g' = (g', Ret (Some (CalendarBase.init rid))) /\
     Calendar.get_all_resources g'
     = (g', Ret (PyDict.keys (Calendar._calendars g) ++ [rid]))) /\
    Calendar.add_resource rid g' = (g', Ret tt).
Proof.
  intros D g rid g'. subst g'. rewrite add_resource_run.
  destruct (PyDict.get_ string_dec (Calendar._calendars g) rid) as [c0 |] eqn:Hg;
    cbn [state_of fst].
  - split; [| split; [discriminate |]].
    + intros other c Hc. unfold Calendar.get_calendar. run_m. now rewrite Hc.
    + rewrite add_resource_run. now rewrite Hg.
  - rewrite <- (setitem_new string_dec _ _ (CalendarBase.init rid) Hg).
    split; [| split].
    + intros other c Hc. unfold Calendar.get_calendar. run_m.
      cbn [Calendar._calendars].
      rewrite get_setitem_other by congruence. now rewrite Hc.
    + intros _. unfold Calendar.get_calendar, Calendar.get_all_resources.
      run_m. cbn [Calendar._calendars].
      rewrite get_setitem_same. split; [reflexivity |].
      rewrite keys_setitem. unfold PyDict.contains. now rewrite Hg.
    + rewrite add_resource_run. cbn [Calendar._calendars].
      now rewrite get_setitem_same.
Qed.

(** X10.  In a group [remove_resource(id)] returns [True] exactly when the
    resource is there; the resource is then gone, with its store, while
    every other resource keeps its store and its place; otherwise it
    returns [False] and the group is left as it was. *)
Theorem remove_resource_exact :
  forall (D : Type) (g : Calendar.t D) (rid : string),
    one_item_per_key (Calendar._calendars g) ->
    match PyDict.get_ string_dec (Calendar._calendars g) rid with
    | Some _ =>
        exists g',
          Calendar.remove_resource rid g = (g', Ret true) /\
          Calendar.get_calendar rid g' = (g', Ret None) /\
          (forall other, other <> rid ->
             outcome_of (Calendar.get_calendar other g')
             = outcome_of (Calendar.get_calendar other g)) /\
          outcome_of (Calendar.get_all_resources g')
          = Ret (filter (fun x => if string_dec x rid then false else true)
                   (PyDict.keys (Calendar._calendars g)))
    | None => Calendar.remove_resource rid g = (g, Ret false)
    end.
Proof.
  intros D g rid Hn.
  pose proof (delitem_cases_dict string_dec (Calendar._calendars g) rid Hn) as Hd.
  unfold Calendar.remove_resource. run_m.
  destruct (PyDict.get_ string_dec (Calendar._calendars g) rid) eqn:Hg.
  - destruct Hd as (d' & -> & Hnone & Hother & _ & Hkeys).
    exists (Calendar.mk d'). split; [reflexivity |].
    unfold Calendar.get_calendar, Calendar.get_all_resources, outcome_of.
    run_m. cbn [Calendar._calendars snd].
    split; [now rewrite Hnone |].
    split; [intros other Hne; now rewrite Hother | now rewrite Hkeys].
  - now rewrite Hd.
Qed.

Lemma remove_resource_exact_witness :
  one_item_per_key (Calendar._calendars two_resources) /\
  exists g',
    Calendar.remove_resource "alice" two_resources = (g', Ret true) /\
    Calendar.get_calendar "alice" g' = (g', Ret None).
Proof.
  split; [exact two_resources_keys |].
  destruct (remove_resource_exact string two_resources "alice"
              two_resources_keys) as (g' & H1 & H2 & _).
  exists g'. split; assumption.
Defined.

(** X11.  In a group [get_slots_at(time)] leaves the group as it was and
    returns, resource by resource in the order the resources were added,
    the slot [get_slot_at(time)] finds in the resource's store, tagged with
    the resource id; a resource with no slot at [time] contributes
    nothing. *)
Theorem calendar_get_slots_at_in_resource_order :
  forall (D : Type) (g : Calendar.t D) (time : Z),
    one_item_per_key (Calendar._calendars g) ->
    Calendar.get_slots_at time g = (g, Ret (hits_of time g)).
Proof.
  intros D g time Hn. unfold Calendar.get_slots_at. unfold bind, get.
  rewrite get_slots_at_loop_hits by auto. cbn [app].
  unfold hits_of. f_equal. f_equal.
  apply flat_map_keys_items. intros [rid c] Hin. cbn [fst snd].
  unfold store_for. now rewrite (get_of_item string_dec _ rid c Hn Hin).
Qed.

Lemma calendar_get_slots_at_in_resource_order_witness :
  one_item_per_key (Calendar._calendars two_resources) /\
  Calendar.get_slots_at 13 two_resources
  = (two_resources,
     Ret [("alice"%string, 10, 15, "a"%string);
          ("bob"%string, 12, 14, "m"%string)]).
Proof.
  split; [exact two_resources_keys |].
  exact (calendar_get_slots_at_in_resource_order string two_resources 13
           two_resources_keys).
Defined.
End CalendarFurtherTheorems.

(** * Further properties of the registry *)

Section Delegation.
Context {K D : Type} (K_eq_dec : forall a b : K, {a = b} + {a <> b}).
Implicit Types (m : CalendarManager.t K D) (g : Calendar.t D).

Lemma get_with_resource g rid :
  PyDict.get_ string_dec (with_resource g rid) rid = Some (store_for g rid).
Proof.
  unfold with_resource, store_for, PyDict.contains.
  destruct (PyDict.get_ string_dec (Calendar._calendars g) rid) eqn:Hg.
  - exact Hg.
  - apply get_setitem_same.
Qed.

Lemma get_with_resource_other g rid other :
  other <> rid ->
  PyDict.get_ string_dec (with_resource g rid) other
  = PyDict.get_ string_dec (Calendar._calendars g) other.
Proof.
  intros Hne. unfold with_resource.
  destruct (PyDict.contains string_dec (Calendar._calendars g) rid);
    [reflexivity | now apply get_setitem_other].
Qed.

Lemma get_with_calendar m key :
  PyDict.get_ K_eq_dec (with_calendar K_eq_dec m key) key
  = Some (group_for K_eq_dec m key).
Proof.
  unfold with_calendar, group_for, PyDict.contains.
  destruct (PyDict.get_ K_eq_dec (CalendarManager._calendars m) key) eqn:Hg.
  - exact Hg.
  - apply get_setitem_same.
Qed.

Lemma get_with_calendar_other m key other :
  other <> key ->
  PyDict.get_ K_eq_dec (with_calendar K_eq_dec m key) other
  = PyDict.get_ K_eq_dec (CalendarManager._calendars m) other.
Proof.
  intros Hne. unfold with_calendar.
  destruct (PyDict.contains K_eq_dec (CalendarManager._calendars m) key);
    [reflexivity | now apply get_setitem_other].
Qed.

(** A method of a store, called through the group: it runs on the store of
    the resource, which is created empty when it is missing. *)
Lemma calendar_run_on_store {A : Type} g rid (m0 : M (CalendarBase.t D) A) :
  (self <- get ;;
   (if negb (PyDict.contains string_dec (Calendar._calendars self) rid)
    then Calendar.add_resource rid else ret tt) ;;;
   Calendar.on_calendars (PyDict.on_item string_dec rid m0)) g
  = (Calendar.mk
       (PyDict.setitem string_dec (with_resource g rid) rid
          (state_of (m0 (store_for g rid)))),
     outcome_of (m0 (store_for g rid))).
Proof.
  destruct (calendar_ensure_resource g rid m0)
    as (c & c' & r & Hget & _ & Hrun & ->).
  change (if PyDict.contains string_dec (Calendar._calendars g) rid
          then Calendar._calendars g
          else PyDict.setitem string_dec (Calendar._calendars g) rid
                 (CalendarBase.init rid)) with (with_resource g rid) in *.
  rewrite get_with_resource in Hget. injection Hget as <-.
  now rewrite Hrun.
Qed.

(** A method of a group, called through the registry: it runs on the group
    under the key, which is created empty when it is missing. *)
Lemma manager_run_on_group {A : Type} m key (f : M (Calendar.t D) A) :
  (self <- get ;;
   (if negb (PyDict.contains K_eq_dec (CalendarManager._calendars self) key)
    then CalendarManager.add_calendar K_eq_dec key None else ret tt) ;;;
   CalendarManager.on_calendars (PyDict.on_item K_eq_dec key f)) m
  = (CalendarManager.mk
       (PyDict.setitem K_eq_dec (with_calendar K_eq_dec m key) key
          (state_of (f (group_for K_eq_dec m key)))),
     outcome_of (f (group_for K_eq_dec m key))).
Proof.
  destruct (manager_ensure_calendar K_eq_dec m key f)
    as (g & g' & r & Hget & _ & Hrun & ->).
  rewrite get_with_calendar in Hget. injection Hget as <-.
  now rewrite Hrun.
Qed.

(** The store a registry operation on [(key, rid)] works on. *)
Lemma slots_of_store_for m key rid :
  CalendarBase._slots (store_for (group_for K_eq_dec m key) rid)
  = match slots_of K_eq_dec m key rid with
    | Some s => s
    | None => []
    end.
Proof.
  unfold slots_of, store_for, group_for.
  destruct (PyDict.get_ K_eq_dec (CalendarManager._calendars m) key) as [g |];
    [| reflexivity].
  now destruct (PyDict.get_ string_dec (Calendar._calendars g) rid).
Qed.

(** A store method called through the registry on [(key, rid)]: its
    outcome is the outcome of the call, the store under [(key, rid)] is the
    store the call leaves, and every other store of the registry is as it
    was. *)
Lemma manager_run_on_store {A : Type} m key rid (m0 : M (CalendarBase.t D) A) :
  let c0 := store_for (group_for K_eq_dec m key) rid in
  let r :=
    (self <- get ;;
     (if negb (PyDict.contains K_eq_dec (CalendarManager._calendars self) key)
      then CalendarManager.add_calendar K_eq_dec key None else ret tt) ;;;
     CalendarManager.on_calendars
       (PyDict.on_item K_eq_dec key
          (self <- get ;;
           (if negb (PyDict.contains string_dec (Calendar._calendars self) rid)
            then Calendar.add_resource rid else ret tt) ;;;
           Calendar.on_calendars (PyDict.on_item string_dec rid m0)))) m in
  outcome_of r = outcome_of (m0 c0) /\
  slots_of K_eq_dec (state_of r) key rid
  = Some (CalendarBase._slots (state_of (m0 c0))) /\
  (forall key' rid', key' <> key \/ rid' <> rid ->
     slots_of K_eq_dec (state_of r) key' rid' = slots_of K_eq_dec m key' rid').
Proof.
  intros c0 r. subst r c0.
  rewrite manager_run_on_group, calendar_run_on_store.
  cbn [outcome_of state_of fst snd].
  split; [reflexivity |]. split; [apply slots_of_created |].
  intros key' rid' Hne. unfold slots_of. cbn [CalendarManager._calendars].
  destruct (K_eq_dec key' key) as [-> | Hk].
  - destruct Hne as [Hne | Hne]; [congruence |].
    rewrite get_setitem_same. cbn [Calendar._calendars].
    rewrite get_setitem_other, get_with_resource_other by assumption.
    unfold group_for.
    now destruct (PyDict.get_ K_eq_dec (CalendarManager._calendars m) key).
  - rewrite get_setitem_other, get_with_calendar_other by assumption.
    reflexivity.
Qed.
End Delegation.

Section RegistryInvariant.
Context {K D : Type} (K_eq_dec : forall a b : K, {a = b} + {a <> b}).
Implicit Types (m : CalendarManager.t K D) (g : Calendar.t D).

Lemma store_for_ordered m key rid :
  registry_inv K_eq_dec m ->
  ordered (CalendarBase._slots (store_for (group_for K_eq_dec m key) rid)).
Proof.
  intros Hinv. rewrite slots_of_store_for.
  destruct (slots_of K_eq_dec m key rid) as [s |] eqn:Hs.
  - apply store_inv_ordered. exact (Hinv key rid s Hs).
  - apply ordered_nil.
Qed.

(** A store method that keeps the store invariant keeps the invariant of
    the registry when it is called through the registry. *)
Lemma registry_inv_run_on_store {A : Type} m key rid
  (m0 : M (CalendarBase.t D) A) m' :
  registry_inv K_eq_dec m ->
  (forall c, ordered (CalendarBase._slots c) ->
             ordered (CalendarBase._slots (state_of (m0 c)))) ->
  slots_of K_eq_dec m' key rid
  = Some (CalendarBase._slots
            (state_of (m0 (store_for (group_for K_eq_dec m key) rid)))) ->
  (forall key' rid', key' <> key \/ rid' <> rid ->
     slots_of K_eq_dec m' key' rid' = slots_of K_eq_dec m key' rid') ->
  registry_inv K_eq_dec m'.
Proof.
  intros Hinv Hkeep Hhere Hframe key' rid' s Hs.
  destruct (K_eq_dec key' key) as [-> | Hk].
  - destruct (string_dec rid' rid) as [-> | Hr].
    + rewrite Hhere in Hs. injection Hs as <-.
      apply store_inv_ordered, Hkeep. now apply store_for_ordered.
    + rewrite Hframe in Hs by auto. exact (Hinv _ _ _ Hs).
  - rewrite Hframe in Hs by auto. exact (Hinv _ _ _ Hs).
Qed.
End RegistryInvariant.

Section RegistryFurtherTheorems.

Lemma one_team_inv : registry_inv string_dec one_team.
Proof.
  intros key rid s. unfold slots_of, one_team. cbn [CalendarManager._calendars].
  simpl PyDict.get_.
  destruct (string_dec key "eng"); [| discriminate].
  unfold two_resources. cbn [Calendar._calendars]. simpl PyDict.get_.
  destruct (string_dec rid "alice").
  - intros H. injection H as <-. exact three_slots_inv.
  - destruct (string_dec rid "bob"); [| discriminate].
    intros H. injection H as <-.
    apply store_inv_ordered. unfold ordered, well_formed. simpl.
    split; repeat constructor; unfold precedes, slot_start, slot_end; simpl; lia.
Qed.


(** X13.  The registry keeps the store invariant in every store: it holds
    in the empty registry, and [add_slot], [add_slot_with_shift],
    [add_resource_to_calendar] and [add_calendar(key)] keep it, whatever
    their arguments and their outcome. *)
Theorem registry_keeps_store_invariant :
  forall (K D : Type) (K_eq_dec : forall a b : K, {a = b} + {a <> b}),
    registry_inv K_eq_dec (@CalendarManager.init K D None) /\
    forall m : CalendarManager.t K D,
      registry_inv K_eq_dec m ->
      (forall key rid start end_ data,
          registry_inv K_eq_dec
            (state_of (CalendarManager.add_slot K_eq_dec key rid start end_
                         data m))) /\
      (forall fuel key rid start end_ data,
          registry_inv K_eq_dec
            (state_of (CalendarManager.add_slot_with_shift K_eq_dec fuel key
                         rid start end_ data m))) /\
      (forall key rid,
          registry_inv K_eq_dec
            (state_of (CalendarManager.add_resource_to_calendar K_eq_dec key
                         rid m))) /\
      (forall key,
          registry_inv K_eq_dec
            (state_of (CalendarManager.add_calendar K_eq_dec key None m))).
Proof.
  intros K D K_eq_dec. split; [intros key rid s H; discriminate H |].
  intros m Hinv. split; [| split; [| split]].
  - intros key rid start end_ data.
    destruct (manager_run_on_store K_eq_dec m key rid
                (CalendarBase.add_slot start end_ data)) as (_ & Hhere & Hframe).
    eapply (registry_inv_run_on_store K_eq_dec m key rid
              (CalendarBase.add_slot start end_ data));
      [exact Hinv | | exact Hhere | exact Hframe].
    intros c Hc. exact (proj1 (add_slot_keeps c start end_ data Hc)).
  - intros fuel key rid start end_ data.
    destruct (manager_run_on_store K_eq_dec m key rid
                (CalendarBase.add_slot_with_shift fuel start end_ data))
      as (_ & Hhere & Hframe).
    eapply (registry_inv_run_on_store K_eq_dec m key rid
              (CalendarBase.add_slot_with_shift fuel start end_ data));
      [exact Hinv | | exact Hhere | exact Hframe].
    intros c Hc. exact (proj1 (add_slot_with_shift_keeps fuel c start end_ data Hc)).
  - intros key rid key' rid' s.
    unfold CalendarManager.add_resource_to_calendar.
    rewrite manager_run_on_group. cbn [state_of fst].
    unfold slots_of. cbn [CalendarManager._calendars].
    destruct (K_eq_dec key' key) as [-> | Hk].
    + rewrite get_setitem_same, add_resource_run.
      pose proof (Hinv key rid') as Hold. unfold slots_of in Hold.
      unfold group_for in *.
      destruct (PyDict.get_ K_eq_dec (CalendarManager._calendars m) key)
        as [g |] eqn:Hg.
      * destruct (PyDict.get_ string_dec (Calendar._calendars g) rid) eqn:Hr;
          cbn [state_of fst Calendar._calendars]; [exact (Hold s) |].
        rewrite <- (setitem_new string_dec _ _ (CalendarBase.init rid) Hr).
        destruct (string_dec rid' rid) as [-> | Hne].
        -- rewrite get_setitem_same. intros H. injection H as <-.
           apply store_inv_ordered, ordered_nil.
        -- rewrite get_setitem_other by assumption. exact (Hold s).
      * simpl. destruct (string_dec rid' rid); [| discriminate].
        intros H. injection H as <-. apply store_inv_ordered, ordered_nil.
    + rewrite get_setitem_other, get_with_calendar_other by assumption.
      exact (Hinv key' rid' s).
  - intros key key' rid' s. unfold CalendarManager.add_calendar. run_m.
    cbn [state_of fst]. unfold slots_of. cbn [CalendarManager._calendars].
    destruct (K_eq_dec key' key) as [-> | Hk].
    + rewrite get_setitem_same. discriminate.
    + rewrite get_setitem_other by assumption. exact (Hinv key' rid' s).
Qed.

Lemma registry_keeps_store_invariant_witness :
  registry_inv string_dec one_team /\
  registry_inv string_dec
    (state_of (CalendarManager.add_slot string_dec "eng"%string "alice"%string
                 16 19 "n"%string one_team)).
Proof.
  split; [exact one_team_inv |].
  exact (proj1 (proj2 (registry_keeps_store_invariant string string string_dec)
                  one_team one_team_inv)
           "eng"%string "alice"%string 16 19 "n"%string).
Defined.
End RegistryFurtherTheorems.

Section BulkFurther.
Context {K D : Type} (K_eq_dec : forall a b : K, {a = b} + {a <> b}).
Implicit Types (m : CalendarManager.t K D).

Lemma manager_add_slot_on_store m key rid start end_ (data : D) :
  let c0 := store_for (group_for K_eq_dec m key) rid in
  let r := CalendarManager.add_slot K_eq_dec key rid start end_ data m in
  outcome_of r = outcome_of (CalendarBase.add_slot start end_ data c0) /\
  slots_of K_eq_dec (state_of r) key rid
  = Some (CalendarBase._slots
            (state_of (CalendarBase.add_slot start end_ data c0))) /\
  (forall key' rid', key' <> key \/ rid' <> rid ->
     slots_of K_eq_dec (state_of r) key' rid' = slots_of K_eq_dec m key' rid').
Proof.
  exact (manager_run_on_store K_eq_dec m key rid
           (CalendarBase.add_slot start end_ data)).
Qed.

Lemma manager_add_slot_with_shift_on_store fuel m key rid start end_ (data : D) :
  let c0 := store_for (group_for K_eq_dec m key) rid in
  let r := CalendarManager.add_slot_with_shift K_eq_dec fuel key rid start end_
             data m in
  outcome_of r
  = outcome_of (CalendarBase.add_slot_with_shift fuel start end_ data c0) /\
  slots_of K_eq_dec (state_of r) key rid
  = Some (CalendarBase._slots
            (state_of (CalendarBase.add_slot_with_shift fuel start end_ data c0))) /\
  (forall key' rid', key' <> key \/ rid' <> rid ->
     slots_of K_eq_dec (state_of r) key' rid' = slots_of K_eq_dec m key' rid').
Proof.
  exact (manager_run_on_store K_eq_dec m key rid
           (CalendarBase.add_slot_with_shift fuel start end_ data)).
Qed.

Lemma pair_of_run {S A : Type} (r : S * result A) :
  r = (state_of r, outcome_of r).
Proof. now destruct r. Qed.

(** One shifting assignment on a registry whose stores satisfy the
    invariant and hold at most [n] intervals, with fuel above [n]. *)
Lemma assign_with_shift_step fuel n m a :
  registry_inv K_eq_dec m -> stores_within K_eq_dec n m ->
  valid_range a -> (n < fuel)%nat ->
  exists m' r,
    assign_with_shift K_eq_dec fuel a m = (m', Ret r) /\
    shifted_from a r /\
    registry_inv K_eq_dec m' /\ stores_within K_eq_dec (S n) m'.
Proof.
  destruct a as [[[[key rid] start] end_] data].
  intros Hinv Hsize Hvalid Hfuel. simpl in Hvalid.
  unfold assign_with_shift.
  destruct (manager_add_slot_with_shift_on_store fuel m key rid start end_ data)
    as (Hout & Hhere & Hframe).
  set (call := CalendarManager.add_slot_with_shift K_eq_dec fuel key rid
                 start end_ data m) in *.
  set (c0 := store_for (group_for K_eq_dec m key) rid) in *.
  pose proof (store_for_ordered K_eq_dec m key rid Hinv) as Ho. fold c0 in Ho.
  assert (Hlen : (length (CalendarBase._slots c0) <= n)%nat).
  { unfold c0. rewrite slots_of_store_for.
    destruct (slots_of K_eq_dec m key rid) as [s |] eqn:Hs;
      [exact (Hsize _ _ _ Hs) | simpl; lia]. }
  pose proof (ends_after_le_length (CalendarBase._slots c0) start) as Hea.
  destruct (add_slot_with_shift_cases fuel c0 start end_ data Ho Hvalid)
    as [(t & Hrun & Hle & Hfree & _) | [_ Hstuck]]; [| lia].
  rewrite Hrun in Hout, Hhere. cbn [outcome_of state_of fst snd] in Hout, Hhere.
  exists (state_of call), (t, t + (end_ - start)).
  split; [rewrite (pair_of_run call); now rewrite Hout |].
  split; [simpl; lia |].
  rewrite conflictb_false in Hfree.
  destruct (setitem_fresh _ t (t + (end_ - start)) data Ho) as [Ho' Hp];
    [lia | exact Hfree |].
  split.
  - intros key' rid' s Hs.
    destruct (K_eq_dec key' key) as [-> | Hk];
      [destruct (string_dec rid' rid) as [-> | Hr] |].
    + rewrite Hhere in Hs. injection Hs as <-. now apply store_inv_ordered.
    + rewrite Hframe in Hs by auto. exact (Hinv _ _ _ Hs).
    + rewrite Hframe in Hs by auto. exact (Hinv _ _ _ Hs).
  - intros key' rid' s Hs.
    destruct (K_eq_dec key' key) as [-> | Hk];
      [destruct (string_dec rid' rid) as [-> | Hr] |].
    + rewrite Hhere in Hs. injection Hs as <-.
      apply Permutation_length in Hp. simpl in Hp.
      cbn [CalendarBase._slots CalendarBase.set_slots]. lia.
    + rewrite Hframe in Hs by auto. pose proof (Hsize _ _ _ Hs). lia.
    + rewrite Hframe in Hs by auto. pose proof (Hsize _ _ _ Hs). lia.
Qed.

Lemma bulk_shift_loop_spec fuel l : forall n m acc,
  registry_inv K_eq_dec m -> stores_within K_eq_dec n m ->
  Forall valid_range l -> (n + length l <= fuel)%nat ->
  exists m' rs,
    CalendarManager.bulk_assign_slots_with_shift_loop K_eq_dec fuel l acc m
    = (m', Ret (acc ++ rs)) /\
    Forall2 shifted_from l rs /\
    registry_inv K_eq_dec m'.
Proof.
  induction l as [| a l IH]; intros n m acc Hinv Hsize Hv Hfuel.
  - exists m, []. simpl. rewrite app_nil_r. auto.
  - inversion Hv as [| ? ? Ha Hl]; subst. simpl in Hfuel.
    destruct (assign_with_shift_step fuel n m a Hinv Hsize Ha)
      as (m1 & r & Hrun & Hr & Hinv1 & Hsize1); [lia |].
    destruct (IH (S n) m1 (acc ++ [r]) Hinv1 Hsize1 Hl)
      as (m' & rs & Hloop & Hrs & Hinv'); [lia |].
    exists m', (r :: rs).
    split; [| split; [constructor; assumption | assumption]].
    destruct a as [[[[key rid] start] end_] data].
    cbn [CalendarManager.bulk_assign_slots_with_shift_loop].
    unfold bind at 1. simpl in Hrun. rewrite Hrun.
    rewrite Hloop, <- app_assoc. reflexivity.
Qed.

(** [add_slot] of the registry raises [ValueError] for [start >= end], and
    the stores that exist keep what they hold. *)
Lemma assign_invalid m a :
  ~ valid_range a ->
  outcome_of (assign K_eq_dec a m) = Raise ValueError /\
  forall key rid s,
    slots_of K_eq_dec m key rid = Some s ->
    slots_of K_eq_dec (state_of (assign K_eq_dec a m)) key rid = Some s.
Proof.
  destruct a as [[[[key rid] start] end_] data]. simpl. intros Hnv.
  destruct (manager_add_slot_on_store m key rid start end_ data)
    as (Hout & Hhere & Hframe).
  rewrite add_slot_invalid in Hout, Hhere by lia.
  cbn [outcome_of state_of fst snd] in Hout, Hhere.
  split; [exact Hout |].
  intros key' rid' s Hs.
  destruct (K_eq_dec key' key) as [-> | Hk];
    [destruct (string_dec rid' rid) as [-> | Hr] |].
  - rewrite Hhere, slots_of_store_for, Hs. reflexivity.
  - rewrite Hframe by auto. exact Hs.
  - rewrite Hframe by auto. exact Hs.
Qed.

Lemma bulk_loop_abort l1 : forall m acc a l2,
  Forall valid_range l1 -> ~ valid_range a ->
  CalendarManager.bulk_assign_slots_loop K_eq_dec (l1 ++ a :: l2) acc m
  = (state_of (assign K_eq_dec a (after_all K_eq_dec m l1)), Raise ValueError).
Proof.
  induction l1 as [| b l1 IH]; intros m acc a l2 Hv Hnv.
  - destruct (assign_invalid m a Hnv) as [Hout _].
    destruct a as [[[[key rid] start] end_] data].
    cbn [app CalendarManager.bulk_assign_slots_loop]. unfold bind at 1.
    simpl in Hout |- *.
    rewrite (pair_of_run (CalendarManager.add_slot K_eq_dec key rid start end_
                            data m)), Hout.
    reflexivity.
  - inversion Hv as [| ? ? Hb Hl]; subst.
    destruct (assign_total K_eq_dec m b Hb) as (m1 & ok & Hrun).
    rewrite <- app_comm_cons, after_all_cons, Hrun. cbn [state_of fst].
    destruct b as [[[[key rid] start] end_] data].
    cbn [CalendarManager.bulk_assign_slots_loop]. unfold bind at 1.
    simpl in Hrun. rewrite Hrun. now apply IH.
Qed.
End BulkFurther.

Section BulkFurtherTheorems.

(** X14.  [bulk_assign_slots_with_shift] on a registry whose stores
    satisfy the invariant, for assignments that all have [start < end] and
    with fuel for the largest store plus one pass per assignment: every
    assignment is placed, the call returns one pair per assignment in input
    order, each pair has the duration of its assignment and does not start
    before the requested start, and the stores still satisfy the
    invariant. *)
Theorem bulk_assign_slots_with_shift_places_all :
  forall (K D : Type) (K_eq_dec : forall a b : K, {a = b} + {a <> b})
         (m : CalendarManager.t K D) (l : list (K * string * Z * Z * D))
         (n fuel : nat),
    registry_inv K_eq_dec m ->
    stores_within K_eq_dec n m ->
    Forall valid_range l ->
    (n + length l <= fuel)%nat ->
    exists m' rs,
      CalendarManager.bulk_assign_slots_with_shift K_eq_dec fuel l m
      = (m', Ret rs) /\
      Forall2 shifted_from l rs /\
      registry_inv K_eq_dec m'.
Proof.
  intros K D K_eq_dec m l n fuel Hinv Hsize Hv Hfuel.
  exact (bulk_shift_loop_spec K_eq_dec fuel l n m [] Hinv Hsize Hv Hfuel).
Qed.

Lemma bulk_assign_slots_with_shift_places_all_witness :
  registry_inv string_dec empty_manager /\
  stores_within string_dec 0 empty_manager /\
  Forall valid_range two_assignments /\
  (0 + length two_assignments <= 2)%nat /\
  exists m' rs,
    CalendarManager.bulk_assign_slots_with_shift string_dec 2 two_assignments
      empty_manager = (m', Ret rs) /\
    Forall2 shifted_from two_assignments rs.
Proof.
  assert (Hinv : registry_inv string_dec empty_manager)
    by (intros key rid s H; discriminate H).
  assert (Hsize : stores_within string_dec 0 empty_manager)
    by (intros key rid s H; discriminate H).
  assert (Hv : Forall valid_range two_assignments)
    by (repeat constructor; simpl; lia).
  split; [exact Hinv |]. split; [exact Hsize |]. split; [exact Hv |].
  split; [simpl; lia |].
  destruct (bulk_assign_slots_with_shift_places_all string string string_dec
              empty_manager two_assignments 0 2 Hinv Hsize Hv)
    as (m' & rs & Hrun & Hrs & _); [simpl; lia |].
  exists m', rs. split; assumption.
Defined.

(** X15.  [bulk_assign_slots] stops at the first assignment with
    [start >= end]: the call raises [ValueError], the assignments before it
    have been made and stay (every store holds what it held after them),
    and the assignments after it are not looked at. *)
Theorem bulk_assign_slots_stops_at_invalid_item :
  forall (K D : Type) (K_eq_dec : forall a b : K, {a = b} + {a <> b})
         (m : CalendarManager.t K D)
         (before : list (K * string * Z * Z * D)) (a : K * string * Z * Z * D)
         (rest : list (K * string * Z * Z * D)),
    Forall valid_range before ->
    ~ valid_range a ->
    let r := CalendarManager.bulk_assign_slots K_eq_dec (before ++ a :: rest) m in
    outcome_of r = Raise ValueError /\
    state_of r = state_of (assign K_eq_dec a (after_all K_eq_dec m before)) /\
    forall key rid s,
      slots_of K_eq_dec (after_all K_eq_dec m before) key rid = Some s ->
      slots_of K_eq_dec (state_of r) key rid = Some s.
Proof.
  intros K D K_eq_dec m before a rest Hv Hnv r. subst r.
  unfold CalendarManager.bulk_assign_slots.
  rewrite (bulk_loop_abort K_eq_dec before m [] a rest Hv Hnv).
  cbn [outcome_of state_of fst snd].
  split; [reflexivity |]. split; [reflexivity |].
  exact (proj2 (assign_invalid K_eq_dec (after_all K_eq_dec m before) a Hnv)).
Qed.

Lemma bulk_assign_slots_stops_at_invalid_item_witness :
  Forall valid_range (@nil (string * string * Z * Z * string)) /\
  ~ valid_range ("k"%string, "a"%string, 10, 10, "x"%string) /\
  outcome_of (CalendarManager.bulk_assign_slots string_dec invalid_then_valid
                empty_manager) = Raise ValueError.
Proof.
  assert (Hnv : ~ valid_range ("k"%string, "a"%string, 10, 10, "x"%string))
    by (simpl; lia).
  split; [constructor |]. split; [exact Hnv |].
  exact (proj1 (bulk_assign_slots_stops_at_invalid_item string string string_dec
                  empty_manager [] _
                  [("k"%string, "a"%string, 10, 12, "y"%string)]
                  (Forall_nil _) Hnv)).
Defined.
End BulkFurtherTheorems.

Section AggregateQueries.
Context {K D : Type} (K_eq_dec : forall a b : K, {a = b} + {a <> b}).
Implicit Types (m : CalendarManager.t K D) (g : Calendar.t D).

Lemma calendar_get_slots_at_by_id g time :
  Calendar.get_slots_at time g = (g, Ret (hits_by_id time g)).
Proof.
  unfold Calendar.get_slots_at. unfold bind, get.
  now rewrite get_slots_at_loop_hits by auto.
Qed.

Lemma hit_at_cases time rid (c : CalendarBase.t D) :
  hit_at time rid c = [] \/
  exists s e d,
    hit_at time rid c = [(rid, s, e, d)] /\
    outcome_of (CalendarBase.get_slot_at time c) = Ret (Some (s, e, d)).
Proof.
  unfold hit_at.
  destruct (outcome_of (CalendarBase.get_slot_at time c))
    as [[[[s e] d] |] | |]; eauto 6.
Qed.

(** Every hit of a group is a stored interval of the resource it names,
    and contains the time. *)
Lemma hits_by_id_sound g time rid s e (d : D) :
  In (rid, s, e, d) (hits_by_id time g) ->
  exists c,
    PyDict.get_ string_dec (Calendar._calendars g) rid = Some c /\
    In (s, (e, d)) (CalendarBase._slots c) /\ s <= time < e.
Proof.
  unfold hits_by_id. rewrite in_flat_map. intros (id & Hid & Hin).
  destruct (keys_get string_dec _ id Hid) as [c Hc].
  unfold store_for in Hin. rewrite Hc in Hin.
  destruct (hit_at_cases time id c) as [E | (s' & e' & d' & E & Hout)];
    rewrite E in Hin; [destruct Hin |].
  destruct Hin as [Heq | []]. injection Heq as -> -> -> ->.
  exists c. split; [assumption |]. now apply get_slot_at_sound.
Qed.

(** In a store that satisfies the invariant, an interval that contains the
    time is a hit. *)
Lemma hits_by_id_complete g time rid c s e (d : D) :
  PyDict.get_ string_dec (Calendar._calendars g) rid = Some c ->
  ordered (CalendarBase._slots c) ->
  In (s, (e, d)) (CalendarBase._slots c) -> s <= time < e ->
  In (rid, s, e, d) (hits_by_id time g).
Proof.
  intros Hc Ho Hin Hcov. unfold hits_by_id. apply in_flat_map.
  exists rid. split.
  - apply get_in in Hc. unfold PyDict.keys.
    apply in_map_iff. exists (rid, c). split; [reflexivity | assumption].
  - unfold store_for. rewrite Hc. unfold hit_at.
    destruct (get_slot_at_found c time Ho) as (r & -> & Hr).
    cbn [outcome_of snd].
    assert (Hcovers : covers time (s, (e, d)))
      by (unfold covers, slot_start, slot_end; simpl; lia).
    destruct r as [[[a b] d'] |]; simpl in Hr.
    + destruct Hr as (_ & _ & Hu). specialize (Hu _ Hin Hcovers).
      injection Hu as -> -> ->. now left.
    + elim (Hr _ Hin Hcovers).
Qed.

(** The loop of [get_slots_at] over all calendars: what the dict it builds
    holds under each key. *)
Lemma manager_get_slots_at_loop_full time (ks : list K) : forall m acc,
  (forall k, In k ks -> In k (PyDict.keys (CalendarManager._calendars m))) ->
  one_item_per_key acc ->
  exists res,
    CalendarManager.get_slots_at_loop K_eq_dec time ks acc m = (m, Ret res) /\
    one_item_per_key res /\
    (forall k, ~ In k ks ->
       PyDict.get_ K_eq_dec res k = PyDict.get_ K_eq_dec acc k) /\
    (forall k, In k ks ->
       PyDict.get_ K_eq_dec res k
       = match hits_by_id time (group_for K_eq_dec m k) with
         | [] => PyDict.get_ K_eq_dec acc k
         | l => Some l
         end).
Proof.
  induction ks as [| key ks IH]; intros m acc Hin Hacc.
  - exists acc. split; [reflexivity |]. split; [assumption |].
    split; [reflexivity | intros k []].
  - destruct (keys_get K_eq_dec _ key (Hin key (or_introl eq_refl))) as [g Hg].
    cbn [CalendarManager.get_slots_at_loop].
    unfold bind at 1. unfold CalendarManager.on_calendars.
    rewrite (on_item_pure K_eq_dec _ key g _ _ Hg
               (calendar_get_slots_at_by_id g time)), manager_eta.
    assert (Hgroup : group_for K_eq_dec m key = g)
      by (unfold group_for; now rewrite Hg).
    set (acc' := match hits_by_id time g with
                 | [] => acc
                 | x :: l => PyDict.setitem K_eq_dec acc key (x :: l)
                 end).
    assert (Hacc' : one_item_per_key acc').
    { unfold acc'. destruct (hits_by_id time g);
        [assumption | now apply one_item_per_key_setitem]. }
    assert (Hother : forall k, k <> key ->
              PyDict.get_ K_eq_dec acc' k = PyDict.get_ K_eq_dec acc k).
    { intros k Hk. unfold acc'. destruct (hits_by_id time g);
        [reflexivity | now apply get_setitem_other]. }
    destruct (IH m acc') as (res & Hrun & Hres & Hout & Hinks);
      [intros; apply Hin; now right | assumption |].
    exists res. split.
    { unfold acc' in Hrun. destruct (hits_by_id time g); exact Hrun. }
    split; [assumption |]. split.
    + intros k Hk. rewrite Hout by (intros H; apply Hk; now right).
      apply Hother. intros ->. apply Hk. now left.
    + intros k Hk. destruct (in_dec K_eq_dec k ks) as [Hks | Hks].
      * rewrite (Hinks k Hks).
        destruct (hits_by_id time (group_for K_eq_dec m k)) eqn:Hh;
          [| reflexivity].
        destruct (K_eq_dec k key) as [-> | Hne]; [| now apply Hother].
        unfold acc'. rewrite Hgroup in Hh. now rewrite Hh.
      * destruct Hk as [<- | Hk]; [| contradiction].
        rewrite (Hout key Hks), Hgroup. unfold acc'.
        destruct (hits_by_id time g); [reflexivity | apply get_setitem_same].
Qed.

Lemma get_all_slots_at_inner_app (key : K)
  (slots : list (string * Z * Z * D)) : forall acc,
  CalendarManager.get_all_slots_at_inner key slots acc
  = acc ++ map (tagged key) slots.
Proof.
  induction slots as [| [[[rid s] e] d] slots IH]; intros acc; simpl.
  - now rewrite app_nil_r.
  - rewrite IH, <- app_assoc. reflexivity.
Qed.

Lemma get_all_slots_at_outer_app
  (items : list (K * list (string * Z * Z * D))) : forall acc,
  CalendarManager.get_all_slots_at_outer items acc
  = acc ++ flat_map (fun item => map (tagged (fst item)) (snd item)) items.
Proof.
  induction items as [| [key slots] items IH]; intros acc; simpl.
  - now rewrite app_nil_r.
  - rewrite IH, get_all_slots_at_inner_app, <- app_assoc. reflexivity.
Qed.

(** What [get_slots_at(time)] over all calendars returns: under each key
    whose calendar has hits, those hits; no entry for any other key. *)
Lemma manager_get_slots_at_all m time :
  exists res,
    CalendarManager.get_slots_at K_eq_dec time None m = (m, Ret res) /\
    one_item_per_key res /\
    forall k l,
      PyDict.get_ K_eq_dec res k = Some l <->
      (exists g, PyDict.get_ K_eq_dec (CalendarManager._calendars m) k = Some g /\
                 l = hits_by_id time g /\ l <> []).
Proof.
  destruct (manager_get_slots_at_loop_full time
              (PyDict.keys (CalendarManager._calendars m)) m PyDict.empty)
    as (res & Hrun & Hres & Hout & Hin); [auto | constructor |].
  exists res. split; [exact Hrun |]. split; [assumption |].
  intros k l.
  destruct (PyDict.get_ K_eq_dec (CalendarManager._calendars m) k) as [g |] eqn:Hg.
  - assert (Hk : In k (PyDict.keys (CalendarManager._calendars m))).
    { apply get_in in Hg. unfold PyDict.keys. apply in_map_iff.
      exists (k, g). split; [reflexivity | assumption]. }
    rewrite (Hin k Hk). unfold group_for. rewrite Hg.
    destruct (hits_by_id time g) as [| x h] eqn:Hh; simpl.
    + split; [discriminate |]. intros (g' & E & -> & Hne). injection E as <-.
      now elim Hne.
    + split.
      * intros E. injection E as <-. exists g. rewrite Hh.
        split; [reflexivity |]. split; [reflexivity | discriminate].
      * intros (g' & E & -> & _). injection E as <-. now rewrite Hh.
  - assert (Hk : ~ In k (PyDict.keys (CalendarManager._calendars m)))
      by (now apply get_none_keys in Hg).
    rewrite (Hout k Hk). simpl.
    split; [discriminate | intros (g' & E & _); discriminate E].
Qed.
End AggregateQueries.

Section AggregateTheorems.

(** X16.  [get_all_slots_at(time)] leaves the registry as it was.  Every
    tuple [(key, resource, start, end, data)] it returns is an interval
    stored for that resource of that calendar, and contains [time]; and
    when the stores satisfy the invariant, every stored interval that
    contains [time] is returned. *)
Theorem get_all_slots_at_sound_and_complete :
  forall (K D : Type) (K_eq_dec : forall a b : K, {a = b} + {a <> b})
         (m : CalendarManager.t K D) (time : Z),
    exists l,
      CalendarManager.get_all_slots_at K_eq_dec time m = (m, Ret l) /\
      (forall key rid s e d,
          In (key, rid, s, e, d) l ->
          exists sl, slots_of K_eq_dec m key rid = Some sl /\
                     In (s, (e, d)) sl /\ s <= time < e) /\
      (registry_inv K_eq_dec m ->
       forall key rid sl s e d,
         slots_of K_eq_dec m key rid = Some sl ->
         In (s, (e, d)) sl -> s <= time < e ->
         In (key, rid, s, e, d) l).
Proof.
  intros K D K_eq_dec m time.
  destruct (manager_get_slots_at_all K_eq_dec m time) as (res & Hrun & Hres & Hget).
  exists (flat_map (fun item => map (tagged (fst item)) (snd item)) res).
  split; [| split].
  - unfold CalendarManager.get_all_slots_at. unfold bind at 1. rewrite Hrun.
    unfold ret. now rewrite get_all_slots_at_outer_app.
  - intros key rid s e d Hin.
    apply in_flat_map in Hin as ([k slots] & Hitem & Hx). cbn [fst snd] in Hx.
    apply in_map_iff in Hx as ([[[rid' s'] e'] d'] & Heq & Hy).
    simpl in Heq. injection Heq as -> -> -> -> ->.
    apply (get_of_item K_eq_dec _ _ _ Hres) in Hitem.
    apply Hget in Hitem as (g & Hg & -> & _).
    destruct (hits_by_id_sound g time rid s e d Hy) as (c & Hc & Hsl & Hcov).
    exists (CalendarBase._slots c). unfold slots_of. rewrite Hg, Hc. auto.
  - intros Hinv key rid sl s e d Hsl Hin Hcov.
    pose proof (Hinv key rid sl Hsl) as Hstore.
    unfold slots_of in Hsl.
    destruct (PyDict.get_ K_eq_dec (CalendarManager._calendars m) key)
      as [g |] eqn:Hg; [| discriminate].
    destruct (PyDict.get_ string_dec (Calendar._calendars g) rid)
      as [c |] eqn:Hc; [| discriminate].
    injection Hsl as <-. apply store_inv_ordered in Hstore.
    pose proof (hits_by_id_complete g time rid c s e d Hc Hstore Hin Hcov) as Hhit.
    assert (Hitem : PyDict.get_ K_eq_dec res key = Some (hits_by_id time g)).
    { apply Hget. exists g. split; [assumption |]. split; [reflexivity |].
      intros E. rewrite E in Hhit. destruct Hhit. }
    apply get_in in Hitem. apply in_flat_map.
    exists (key, hits_by_id time g). split; [assumption |]. cbn [fst snd].
    apply in_map_iff. exists (rid, s, e, d). split; [reflexivity | assumption].
Qed.

Lemma get_all_slots_at_sound_and_complete_witness :
  registry_inv string_dec one_team /\
  exists l,
    CalendarManager.get_all_slots_at string_dec 13 one_team = (one_team, Ret l) /\
    In ("eng"%string, "bob"%string, 12, 14, "m"%string) l.
Proof.
  split; [exact one_team_inv |].
  destruct (get_all_slots_at_sound_and_complete string string string_dec
              one_team 13) as (l & Hrun & _ & Hall).
  exists l. split; [exact Hrun |].
  apply (Hall one_team_inv "eng"%string "bob"%string
           [(12, (14, "m"%string))]); [reflexivity | now left | lia].
Defined.

(** X17.  [get_slots_at(time, calendar_key)] of the registry is the query
    of the groups, calendar by calendar: the dict it returns has under a
    key exactly what [Calendar.get_slots_at(time)] returns for the calendar
    under that key, provided the calendar is there, is asked for (it is
    [calendar_key], or no key was given) and has a slot at [time]; it has
    no other entry. *)
Theorem registry_get_slots_at_by_calendar :
  forall (K D : Type) (K_eq_dec : forall a b : K, {a = b} + {a <> b})
         (m : CalendarManager.t K D) (time : Z) (calendar_key : option K),
    exists res,
      CalendarManager.get_slots_at K_eq_dec time calendar_key m = (m, Ret res) /\
      forall k l,
        PyDict.get_ K_eq_dec res k = Some l <->
        (match calendar_key with Some key => k = key | None => True end /\
         l <> [] /\
         exists g,
           PyDict.get_ K_eq_dec (CalendarManager._calendars m) k = Some g /\
           Calendar.get_slots_at time g = (g, Ret l)).
Proof.
  intros K D K_eq_dec m time [key |].
  - unfold CalendarManager.get_slots_at. cbv zeta.
    unfold bind at 1, get at 1. unfold PyDict.contains.
    destruct (PyDict.get_ K_eq_dec (CalendarManager._calendars m) key)
      as [g |] eqn:Hg.
    + unfold bind at 1. unfold CalendarManager.on_calendars.
      rewrite (on_item_pure K_eq_dec _ key g _ _ Hg
                 (calendar_get_slots_at_by_id g time)), manager_eta.
      destruct (hits_by_id time g) as [| x h] eqn:Hh.
      * exists PyDict.empty. split; [reflexivity |]. intros k l. simpl.
        split; [discriminate |]. intros (-> & Hne & g' & E & Hrun).
        rewrite Hg in E. injection E as <-.
        rewrite calendar_get_slots_at_by_id, Hh in Hrun. congruence.
      * eexists. split; [reflexivity |]. intros k l. simpl.
        destruct (K_eq_dec k key) as [-> | Hne].
        -- split.
           ++ intros E. injection E as <-. split; [reflexivity |].
              split; [discriminate |]. exists g. split; [assumption |].
              now rewrite calendar_get_slots_at_by_id, Hh.
           ++ intros (_ & _ & g' & E & Hrun). rewrite Hg in E. injection E as <-.
              rewrite calendar_get_slots_at_by_id, Hh in Hrun. congruence.
        -- split; [discriminate | intros (E & _); contradiction].
    + exists PyDict.empty. split; [reflexivity |]. intros k l. simpl.
      split; [discriminate |]. intros (-> & _ & g' & E & _). congruence.
  - destruct (manager_get_slots_at_all K_eq_dec m time) as (res & Hrun & _ & Hget).
    exists res. split; [exact Hrun |]. intros k l. rewrite Hget. split.
    + intros (g & Hg & -> & Hne). split; [exact I |]. split; [assumption |].
      exists g. split; [assumption | apply calendar_get_slots_at_by_id].
    + intros (_ & Hne & g & Hg & Hgrp). exists g. split; [assumption |].
      rewrite calendar_get_slots_at_by_id in Hgrp.
      split; [congruence | assumption].
Qed.
End AggregateTheorems.

Section RegistryMaintenance.
Context {K D : Type} (K_eq_dec : forall a b : K, {a = b} + {a <> b}).
Implicit Types (m : CalendarManager.t K D) (g : Calendar.t D).

Lemma in_keys_of_get {A B : Type} (eq_dec : forall a b : A, {a = b} + {a <> b})
  (d : PyDict.t A B) k v :
  PyDict.get_ eq_dec d k = Some v -> In k (PyDict.keys d).
Proof.
  intros H. apply get_in in H. unfold PyDict.keys.
  apply in_map_iff. exists (k, v). split; [reflexivity | assumption].
Qed.

(** The loop of [get_all_resources]: what the dict it builds holds under
    each key. *)
Lemma get_all_resources_loop_spec (ks : list K) : forall m acc,
  (forall k, In k ks -> In k (PyDict.keys (CalendarManager._calendars m))) ->
  exists res,
    CalendarManager.get_all_resources_loop K_eq_dec ks acc m = (m, Ret res) /\
    (forall k, ~ In k ks ->
       PyDict.get_ K_eq_dec res k = PyDict.get_ K_eq_dec acc k) /\
    (forall k, In k ks ->
       PyDict.get_ K_eq_dec res k
       = Some (PyDict.keys (Calendar._calendars (group_for K_eq_dec m k)))).
Proof.
  induction ks as [| key ks IH]; intros m acc Hin.
  - exists acc. split; [reflexivity |]. split; [reflexivity | intros k []].
  - destruct (keys_get K_eq_dec _ key (Hin key (or_introl eq_refl))) as [g Hg].
    cbn [CalendarManager.get_all_resources_loop].
    unfold bind at 1. unfold CalendarManager.on_calendars.
    rewrite (on_item_pure K_eq_dec _ key g Calendar.get_all_resources
               (Ret (PyDict.keys (Calendar._calendars g))) Hg eq_refl),
      manager_eta.
    destruct (IH m (PyDict.setitem K_eq_dec acc key
                      (PyDict.keys (Calendar._calendars g))))
      as (res & Hrun & Hout & Hinks); [intros; apply Hin; now right |].
    exists res. split; [exact Hrun |]. split.
    + intros k Hk. rewrite Hout by (intros H; apply Hk; now right).
      apply get_setitem_other. intros ->. apply Hk. now left.
    + intros k Hk. destruct (in_dec K_eq_dec k ks) as [Hks | Hks];
        [now apply Hinks |].
      destruct Hk as [<- | Hk]; [| contradiction].
      rewrite (Hout key Hks), get_setitem_same. unfold group_for.
      now rewrite Hg.
Qed.

(** [get_slots_at(time, key)] for a calendar that is there. *)
Lemma manager_get_slots_at_one m time key g :
  PyDict.get_ K_eq_dec (CalendarManager._calendars m) key = Some g ->
  CalendarManager.get_slots_at K_eq_dec time (Some key) m
  = (m, Ret (match hits_by_id time g with
             | [] => PyDict.empty
             | l => [(key, l)]
             end)).
Proof.
  intros Hg. unfold CalendarManager.get_slots_at. cbv zeta.
  unfold bind at 1, get at 1. unfold PyDict.contains. rewrite Hg.
  unfold bind at 1. unfold CalendarManager.on_calendars.
  rewrite (on_item_pure K_eq_dec _ key g _ _ Hg
             (calendar_get_slots_at_by_id g time)), manager_eta.
  now destruct (hits_by_id time g).
Qed.
End RegistryMaintenance.

Section RegistryMaintenanceTheorems.

Lemma one_team_keys :
  one_item_per_key (CalendarManager._calendars one_team).
Proof.
  unfold one_item_per_key. simpl. repeat constructor. intros [].
Qed.

(** X18.  [get_all_resources()] of the registry leaves the registry as it
    was and returns a dict with one entry for each calendar key and no
    other: the resource ids of that calendar, which is what
    [get_calendar_resources(key)] returns. *)
Theorem get_all_resources_by_calendar :
  forall (K D : Type) (K_eq_dec : forall a b : K, {a = b} + {a <> b})
         (m : CalendarManager.t K D),
    exists res,
      CalendarManager.get_all_resources K_eq_dec m = (m, Ret res) /\
      forall key,
        PyDict.get_ K_eq_dec res key
        = match PyDict.get_ K_eq_dec (CalendarManager._calendars m) key with
          | Some g => Some (PyDict.keys (Calendar._calendars g))
          | None => None
          end /\
        outcome_of (CalendarManager.get_calendar_resources K_eq_dec key m)
        = Ret (match PyDict.get_ K_eq_dec res key with
               | Some ids => ids
               | None => []
               end).
Proof.
  intros K D K_eq_dec m.
  destruct (get_all_resources_loop_spec K_eq_dec
              (PyDict.keys (CalendarManager._calendars m)) m PyDict.empty)
    as (res & Hrun & Hout & Hin); [auto |].
  exists res. split; [exact Hrun |]. intros key.
  assert (Hres : PyDict.get_ K_eq_dec res key
                 = match PyDict.get_ K_eq_dec (CalendarManager._calendars m) key with
                   | Some g => Some (PyDict.keys (Calendar._calendars g))
                   | None => None
                   end).
  { destruct (PyDict.get_ K_eq_dec (CalendarManager._calendars m) key)
      as [g |] eqn:Hg.
    - rewrite (Hin key (in_keys_of_get K_eq_dec _ _ _ Hg)).
      unfold group_for. now rewrite Hg.
    - rewrite Hout by (now apply get_none_keys in Hg). reflexivity. }
  split; [exact Hres |]. rewrite Hres.
  unfold CalendarManager.get_calendar_resources. unfold bind at 1, get at 1.
  destruct (PyDict.get_ K_eq_dec (CalendarManager._calendars m) key)
    as [g |] eqn:Hg; [| reflexivity].
  unfold CalendarManager.on_calendars.
  now rewrite (on_item_pure K_eq_dec _ key g Calendar.get_all_resources
                 (Ret (PyDict.keys (Calendar._calendars g))) Hg eq_refl).
Qed.

(** X19.  [add_calendar(key, calendar)] replaces: afterwards
    [get_calendar(key)] is the given calendar, or a new empty one when none
    was given, whatever was under the key before; every other key keeps its
    calendar; a new key goes last in [get_all_calendar_keys()] and an old
    one keeps its place.  So [add_calendar(key)] on a key that is in use
    discards the resources of its calendar. *)
Theorem add_calendar_replaces :
  forall (K D : Type) (K_eq_dec : forall a b : K, {a = b} + {a <> b})
         (m : CalendarManager.t K D) (key : K) (calendar : option (Calendar.t D)),
    let m' := state_of (CalendarManager.add_calendar K_eq_dec key calendar m) in
    let new := match calendar with Some c => c | None => Calendar.init None end in
    CalendarManager.get_calendar K_eq_dec key m' = (m', Ret (Some new)) /\
    (forall other, other <> key ->
       outcome_of (CalendarManager.get_calendar K_eq_dec other m')
       = outcome_of (CalendarManager.get_calendar K_eq_dec other m)) /\
    CalendarManager.get_all_calendar_keys m'
    = (m', Ret (if PyDict.contains K_eq_dec (CalendarManager._calendars m) key
                then PyDict.keys (CalendarManager._calendars m)
                else PyDict.keys (CalendarManager._calendars m) ++ [key])) /\
    (calendar = None ->
     CalendarManager.get_calendar_resources K_eq_dec key m' = (m', Ret [])).
Proof.
  intros K D K_eq_dec m key calendar m' new.
  assert (Hm' : m' = CalendarManager.mk
                       (PyDict.setitem K_eq_dec (CalendarManager._calendars m)
                          key new)).
  { subst m' new. unfold CalendarManager.add_calendar. run_m.
    now destruct calendar. }
  rewrite Hm'. clear Hm'.
  unfold CalendarManager.get_calendar, CalendarManager.get_all_calendar_keys,
    CalendarManager.get_calendar_resources, outcome_of.
  run_m. cbn [CalendarManager._calendars snd].
  rewrite get_setitem_same, keys_setitem.
  split; [reflexivity |].
  split; [intros other Hne; now rewrite get_setitem_other |].
  split; [reflexivity |].
  intros ->. subst new. unfold CalendarManager.on_calendars.
  cbn [CalendarManager._calendars].
  rewrite (on_item_pure K_eq_dec _ key (Calendar.init None)
             Calendar.get_all_resources (Ret [])
             (get_setitem_same K_eq_dec _ _ _) eq_refl).
  reflexivity.
Qed.

(** X20.  In a registry [remove_calendar(key)] returns [True] exactly when
    the key is there; the calendar is then gone, while every other key
    keeps its calendar and its place; otherwise it returns [False] and the
    registry is left as it was. *)
Theorem remove_calendar_exact :
  forall (K D : Type) (K_eq_dec : forall a b : K, {a = b} + {a <> b})
         (m : CalendarManager.t K D) (key : K),
    one_item_per_key (CalendarManager._calendars m) ->
    match PyDict.get_ K_eq_dec (CalendarManager._calendars m) key with
    | Some _ =>
        exists m',
          CalendarManager.remove_calendar K_eq_dec key m = (m', Ret true) /\
          CalendarManager.get_calendar K_eq_dec key m' = (m', Ret None) /\
          (forall other, other <> key ->
             outcome_of (CalendarManager.get_calendar K_eq_dec other m')
             = outcome_of (CalendarManager.get_calendar K_eq_dec other m)) /\
          outcome_of (CalendarManager.get_all_calendar_keys m')
          = Ret (filter (fun x => if K_eq_dec x key then false else true)
                   (PyDict.keys (CalendarManager._calendars m)))
    | None => CalendarManager.remove_calendar K_eq_dec key m = (m, Ret false)
    end.
Proof.
  intros K D K_eq_dec m key Hn.
  pose proof (delitem_cases_dict K_eq_dec (CalendarManager._calendars m) key Hn)
    as Hd.
  unfold CalendarManager.remove_calendar. run_m.
  destruct (PyDict.get_ K_eq_dec (CalendarManager._calendars m) key) eqn:Hg.
  - destruct Hd as (d' & -> & Hnone & Hother & _ & Hkeys).
    exists (CalendarManager.mk d'). split; [reflexivity |].
    unfold CalendarManager.get_calendar, CalendarManager.get_all_calendar_keys,
      outcome_of.
    run_m. cbn [CalendarManager._calendars snd].
    split; [now rewrite Hnone |].
    split; [intros other Hne; now rewrite Hother | now rewrite Hkeys].
  - now rewrite Hd.
Qed.

Lemma remove_calendar_exact_witness :
  one_item_per_key (CalendarManager._calendars one_team) /\
  exists m',
    CalendarManager.remove_calendar string_dec "eng"%string one_team
    = (m', Ret true) /\
    CalendarManager.get_calendar string_dec "eng"%string m' = (m', Ret None).
Proof.
  split; [exact one_team_keys |].
  destruct (remove_calendar_exact string string string_dec one_team
              "eng"%string one_team_keys) as (m' & H1 & H2 & _).
  exists m'. split; assumption.
Defined.

(** X21.  What the registry stores it finds: when [add_slot(key, resource,
    start, end, data)] returns [True] on a registry whose stores satisfy
    the invariant, then for every [t] with [start <= t < end],
    [get_slots_at(t, key)] on the resulting registry has an entry for [key]
    that lists [(resource, start, end, data)]. *)
Theorem registry_finds_what_it_stored :
  forall (K D : Type) (K_eq_dec : forall a b : K, {a = b} + {a <> b})
         (m : CalendarManager.t K D) (key : K) (rid : string)
         (start end_ : Z) (data : D) (t : Z),
    registry_inv K_eq_dec m ->
    start < end_ ->
    outcome_of (CalendarManager.add_slot K_eq_dec key rid start end_ data m)
    = Ret true ->
    start <= t < end_ ->
    let m' := state_of (CalendarManager.add_slot K_eq_dec key rid start end_
                          data m) in
    exists res l,
      CalendarManager.get_slots_at K_eq_dec t (Some key) m' = (m', Ret res) /\
      PyDict.get_ K_eq_dec res key = Some l /\
      In (rid, start, end_, data) l.
Proof.
  intros K D K_eq_dec m key rid start end_ data t Hinv Hlt Hout Ht m'.
  destruct (manager_add_slot_on_store K_eq_dec m key rid start end_ data)
    as (Hsame & Hhere & _).
  fold m' in Hhere. rewrite Hout in Hsame. symmetry in Hsame.
  pose proof (store_for_ordered K_eq_dec m key rid Hinv) as Ho.
  set (c0 := store_for (group_for K_eq_dec m key) rid) in *.
  destruct (add_slot_returned_true c0 start end_ data Ho Hlt Hsame) as [Hc Hrun].
  rewrite Hrun in Hhere. cbn [state_of fst CalendarBase._slots
                              CalendarBase.set_slots] in Hhere.
  rewrite conflictb_false in Hc.
  destruct (setitem_fresh _ start end_ data Ho Hlt Hc) as [Ho' Hp].
  unfold slots_of in Hhere.
  destruct (PyDict.get_ K_eq_dec (CalendarManager._calendars m') key)
    as [g' |] eqn:Hg'; [| discriminate].
  destruct (PyDict.get_ string_dec (Calendar._calendars g') rid)
    as [c' |] eqn:Hc'; [| discriminate].
  injection Hhere as Hslots.
  assert (Hhit : In (rid, start, end_, data) (hits_by_id t g')).
  { apply (hits_by_id_complete g' t rid c' start end_ data Hc');
      [rewrite Hslots; assumption | rewrite Hslots | assumption].
    apply (Permutation_in _ Hp). now left. }
  rewrite (manager_get_slots_at_one K_eq_dec m' t key g' Hg').
  destruct (hits_by_id t g') as [| x h] eqn:Hh; [destruct Hhit |].
  exists [(key, x :: h)], (x :: h). split; [reflexivity |]. split; [| assumption].
  simpl. destruct (K_eq_dec key key); congruence.
Qed.

Lemma registry_finds_what_it_stored_witness :
  registry_inv string_dec one_team /\ 16 < 19 /\
  outcome_of (CalendarManager.add_slot string_dec "eng"%string "alice"%string
                16 19 "n"%string one_team) = Ret true /\
  16 <= 17 < 19 /\
  exists res l,
    CalendarManager.get_slots_at string_dec 17 (Some "eng"%string)
      (state_of (CalendarManager.add_slot string_dec "eng"%string
                   "alice"%string 16 19 "n"%string one_team))
    = (state_of (CalendarManager.add_slot string_dec "eng"%string
                   "alice"%string 16 19 "n"%string one_team), Ret res) /\
    PyDict.get_ string_dec res "eng"%string = Some l /\
    In ("alice"%string, 16, 19, "n"%string) l.
Proof.
  split; [exact one_team_inv |]. split; [lia |]. split; [reflexivity |].
  split; [lia |].
  apply (registry_finds_what_it_stored string string string_dec one_team
           "eng"%string "alice"%string 16 19 "n"%string 17 one_team_inv);
    [lia | reflexivity | lia].
Defined.
End RegistryMaintenanceTheorems.
